(** * APA 7 citation and reference engine

    A shallow embedding of [backend/app/services/apa_service.py]
    (class [APA7Service]) and the properties of its five operations:
    [generate_citation], [generate_reference], [parse_reference_text],
    [validate_coherence] and [generate_reference_list].

    Text is [string]; a character is an [ascii] read as the Unicode code
    point of the same number (U+0000 to U+00FF), and the character classes
    of [re] and [str] are written out for that range.  Python operations
    that can raise ([l[i]], [int(s)], and [str(n)] for an integer of more
    than 4300 digits) return [option]; the service functions that use
    them live in the [option] monad, [None] standing for an exception. *)

From Stdlib Require Import List String Ascii ZArith NArith Lia Bool Arith.
From Stdlib Require Import Permutation DecimalString.
From Stdlib Require DecimalPos DecimalFacts.
Import ListNotations.
Local Open Scope string_scope.

(** ** The Python runtime the service relies on *)

Module Py.

(** *** Characters *)

Definition code (c : ascii) : N := N_of_ascii c.

Definition in_range (lo hi : N) (c : ascii) : bool :=
  ((lo <=? code c) && (code c <=? hi))%N.

Definition is_code (n : N) (c : ascii) : bool := (code c =? n)%N.

(** [\s] and [str.isspace]: TAB..CR, FS..US, SPACE, NEL, NBSP. *)
Definition is_space (c : ascii) : bool :=
  in_range 9 13 c || in_range 28 32 c || is_code 133 c || is_code 160 c.

(** [\d]: the decimal digits. *)
Definition is_digit (c : ascii) : bool := in_range 48 57 c.

(** [[A-Z]] and [[a-z]] (the patterns that use them are not compiled with
    IGNORECASE). *)
Definition is_AZ (c : ascii) : bool := in_range 65 90 c.
Definition is_az (c : ascii) : bool := in_range 97 122 c.

(** Alphanumeric in the sense of [str.isalnum]: letters, decimal digits and
    the other numeric characters of the range. *)
Definition is_alnum (c : ascii) : bool :=
  is_digit c || is_AZ c || is_az c
  || is_code 170 c || is_code 178 c || is_code 179 c || is_code 181 c
  || is_code 185 c || is_code 186 c || in_range 188 190 c
  || in_range 192 214 c || in_range 216 246 c || in_range 248 255 c.

(** [\w]: alphanumeric or underscore. *)
Definition is_word (c : ascii) : bool := is_alnum c || is_code 95 c.

(** [str.lower] on one character. *)
Definition lower_char (c : ascii) : ascii :=
  if is_AZ c || in_range 192 214 c || in_range 216 222 c
  then ascii_of_N (code c + 32) else c.

(** Equality of characters under IGNORECASE. *)
Definition eq_nocase (a c : ascii) : bool :=
  Ascii.eqb (lower_char a) (lower_char c).

(** *** Strings *)

Fixpoint smap (f : ascii -> ascii) (s : string) : string :=
  match s with
  | EmptyString => EmptyString
  | String c t => String (f c) (smap f t)
  end.

Fixpoint sfilter (p : ascii -> bool) (s : string) : string :=
  match s with
  | EmptyString => EmptyString
  | String c t => if p c then String c (sfilter p t) else sfilter p t
  end.

Definition lower (s : string) : string := smap lower_char s.

Definition len (s : string) : Z := Z.of_nat (String.length s).

(** Truth value of a string and of a list: non-empty. *)
Definition nonempty (s : string) : bool :=
  match s with EmptyString => false | _ => true end.

Definition nonnil {A : Type} (l : list A) : bool :=
  match l with [] => false | _ => true end.

(** A slice bound: a negative bound counts from the end, and every bound is
    clamped to [0, n]. *)
Definition bound (n : nat) (i : Z) : nat :=
  if (i <? 0)%Z then Z.to_nat (Z.max 0 (Z.of_nat n + i))
  else Nat.min n (Z.to_nat i).

(** [l[lo:hi]]; [None] is an omitted bound. *)
Definition slice {A : Type} (l : list A) (lo hi : option Z) : list A :=
  let n := List.length l in
  let a := match lo with None => O | Some i => bound n i end in
  let b := match hi with None => n | Some j => bound n j end in
  firstn (b - a) (skipn a l).

Definition str_slice (s : string) (lo hi : option Z) : string :=
  string_of_list_ascii (slice (list_ascii_of_string s) lo hi).

(** [l[i]]: raises IndexError (here [None]) out of range. *)
Definition index {A : Type} (l : list A) (i : Z) : option A :=
  let n := Z.of_nat (List.length l) in
  if ((0 <=? i) && (i <? n))%Z then nth_error l (Z.to_nat i)
  else if ((i <? 0) && (- n <=? i))%Z then nth_error l (Z.to_nat (n + i))
  else None.

Definition str_index (s : string) (i : Z) : option ascii :=
  index (list_ascii_of_string s) i.

(** [s.find(sub)]: position of the first occurrence, or -1. *)
Fixpoint find_at (sub s : string) (i : Z) : Z :=
  if String.prefix sub s then i
  else match s with
       | EmptyString => (-1)%Z
       | String _ t => find_at sub t (i + 1)%Z
       end.

Definition find (s sub : string) : Z := find_at sub s 0%Z.

(** [sub in s]. *)
Definition contains (sub s : string) : bool := (0 <=? find s sub)%Z.

(** [s.split(sep)] for a one-character separator: at least one field. *)
Fixpoint split_char (sep : ascii) (s : string) : list string :=
  match s with
  | EmptyString => [EmptyString]
  | String c t =>
      if Ascii.eqb c sep then EmptyString :: split_char sep t
      else match split_char sep t with
           | h :: r => String c h :: r
           | [] => [String c EmptyString]
           end
  end.

(** [s.split()]: the maximal runs of non-whitespace characters. *)
Fixpoint split_ws (s : string) : list string :=
  match s with
  | EmptyString => []
  | String c t =>
      if is_space c then split_ws t
      else match t with
           | EmptyString => [String c EmptyString]
           | String c' _ =>
               if is_space c' then String c EmptyString :: split_ws t
               else match split_ws t with
                    | h :: r => String c h :: r
                    | [] => [String c EmptyString]
                    end
           end
  end.

Fixpoint drop_while (p : ascii -> bool) (l : list ascii) : list ascii :=
  match l with
  | [] => []
  | c :: t => if p c then drop_while p t else l
  end.

(** [s.strip()]. *)
Definition strip (s : string) : string :=
  string_of_list_ascii
    (rev (drop_while is_space (rev (drop_while is_space (list_ascii_of_string s))))).

(** [sep.join(l)]. *)
Definition join (sep : string) (l : list string) : string := String.concat sep l.

(** The decimal numeral of an integer. *)
Definition numeral (z : Z) : string := NilZero.string_of_int (Z.to_int z).

(** [sys.int_max_str_digits], 4300 unless the interpreter is told
    otherwise. *)
Definition max_str_digits : Z := 4300.

(** [str(z)] for an integer: its numeral.  CPython refuses the conversion
    (ValueError, here [None]) when the integer has more digits than
    that. *)
Definition str_of_int (z : Z) : option string :=
  if (Z.of_nat (String.length (numeral (Z.abs z))) <=? max_str_digits)%Z
  then Some (numeral z)
  else None.

Fixpoint int_digits (acc : Z) (s : string) : option Z :=
  match s with
  | EmptyString => Some acc
  | String c t =>
      if is_digit c then int_digits (acc * 10 + Z.of_N (code c - 48))%Z t
      else None
  end.

(** [int(s)] on a non-empty string of decimal digits; every other string is
    taken to raise ValueError (signs, blanks and underscores, which Python
    also accepts, never reach it in the service). *)
Definition int (s : string) : option Z :=
  match s with
  | EmptyString => None
  | _ => int_digits 0%Z s
  end.

(** *** Values and dictionary entries *)

(** The scalar values a reference dictionary holds. *)
Inductive pyobj : Type :=
| PyNone
| PyInt (z : Z)
| PyStr (s : string).

(** Truth value: [None], [0] and the empty string are false. *)
Definition truthy (v : pyobj) : bool :=
  match v with
  | PyNone => false
  | PyInt z => negb (z =? 0)%Z
  | PyStr s => nonempty s
  end.

(** [str(v)], as an f-string renders a value; [None] is the ValueError of
    an integer too long. *)
Definition str (v : pyobj) : option string :=
  match v with
  | PyNone => Some "None"
  | PyInt z => str_of_int z
  | PyStr s => Some s
  end.

(** The text of a value that [str] does not refuse: a string, [None], or
    an integer within the limit.  The service renders with it the values
    of the string keys and, in the parser, the four-digit year it has just
    read; the year of a dictionary it is given goes through [str]. *)
Definition fmt (v : pyobj) : string :=
  match v with
  | PyNone => "None"
  | PyInt z => numeral z
  | PyStr s => s
  end.

Definition pyobj_eqb (a b : pyobj) : bool :=
  match a, b with
  | PyNone, PyNone => true
  | PyInt x, PyInt y => (x =? y)%Z
  | PyStr x, PyStr y => String.eqb x y
  | _, _ => false
  end.

(** One key of a dictionary: absent, present with value [None], or present
    with a value. *)
Inductive field (A : Type) : Type :=
| Missing
| Null
| Val (a : A).
Arguments Missing {A}.
Arguments Null {A}.
Arguments Val {A} a.

(** [d.get(key, default)] for a string-valued and an integer-valued key. *)
Definition sget (f : field string) (default : pyobj) : pyobj :=
  match f with Missing => default | Null => PyNone | Val s => PyStr s end.

Definition iget (f : field Z) (default : pyobj) : pyobj :=
  match f with Missing => default | Null => PyNone | Val z => PyInt z end.

(** [d.get(key, [])] for a key that holds a list when it is present. *)
Definition lget {A : Type} (f : option (list A)) : list A :=
  match f with None => [] | Some l => l end.

End Py.

(** ** Regular expressions

    A backtracking matcher with the semantics of Python's [re]: the
    leftmost match, greedy repetition, alternatives tried in order, and
    numbered groups.  The matcher is written in continuation-passing
    style: the continuation is the rest of the pattern, so a failure further
    on makes an earlier repetition or alternative try its next choice. *)

Module Re.
Import Py.

Inductive regex : Type :=
| Eps                          (* the empty pattern *)
| Chr (p : ascii -> bool)      (* one character of a class *)
| Seq (a b : regex)            (* ab *)
| Alt (a b : regex)            (* a|b *)
| Star (a : regex)             (* a*, greedy *)
| Boundary                     (* \b *)
| Bos                          (* ^ without MULTILINE *)
| Group (n : nat) (a : regex). (* the n-th capturing group *)

(** a+, a?, a{n} and a{n,}. *)
Definition Plus (a : regex) : regex := Seq a (Star a).
Definition Opt (a : regex) : regex := Alt a Eps.

Fixpoint Rep (n : nat) (a : regex) : regex :=
  match n with
  | O => Eps
  | S k => Seq a (Rep k a)
  end.

Definition AtLeast (n : nat) (a : regex) : regex := Seq (Rep n a) (Star a).

(** A literal string, and the same under IGNORECASE. *)
Fixpoint Lit (s : string) : regex :=
  match s with
  | EmptyString => Eps
  | String c t => Seq (Chr (Ascii.eqb c)) (Lit t)
  end.

Fixpoint LitI (s : string) : regex :=
  match s with
  | EmptyString => Eps
  | String c t => Seq (Chr (eq_nocase c)) (LitI t)
  end.

(** Character classes: a negated class and a set of characters. *)
Definition Not (p : ascii -> bool) : ascii -> bool := fun c => negb (p c).

Definition OneOf (s : string) : ascii -> bool :=
  fun c => existsb (Ascii.eqb c) (list_ascii_of_string s).

(** The state of a match attempt: the text before the current position
    (nearest character first), the text after it, and the groups set so
    far (latest first). *)
Record mstate : Type := MState {
  before : list ascii;
  after : list ascii;
  groups : list (nat * string)
}.

Definition word_before (st : mstate) : bool :=
  match before st with c :: _ => is_word c | [] => false end.

Definition word_after (st : mstate) : bool :=
  match after st with c :: _ => is_word c | [] => false end.

Definition at_boundary (st : mstate) : bool :=
  xorb (word_before st) (word_after st).

(** The text between two positions of one attempt. *)
Definition consumed (st st' : mstate) : string :=
  string_of_list_ascii
    (rev (firstn (List.length (before st') - List.length (before st)) (before st'))).

Definition set_group (n : nat) (s : string) (st : mstate) : mstate :=
  MState (before st) (after st) ((n, s) :: groups st).

(** Greedy repetition of [body]: one more iteration first, none as the
    fallback.  An iteration has to consume a character, so [n], the
    number of characters left when the loop is entered, bounds the
    iterations and is never the reason the loop stops. *)
Fixpoint star_loop (body : mstate -> (mstate -> option mstate) -> option mstate)
    (n : nat) (st : mstate) (k : mstate -> option mstate) : option mstate :=
  match n with
  | O => k st
  | S n' =>
      match body st (fun st' =>
                if Nat.ltb (List.length (after st')) (List.length (after st))
                then star_loop body n' st' k else None) with
      | Some r => Some r
      | None => k st
      end
  end.

Fixpoint run (r : regex) (st : mstate) (k : mstate -> option mstate)
    : option mstate :=
  match r with
  | Eps => k st
  | Chr p =>
      match after st with
      | c :: t => if p c then k (MState (c :: before st) t (groups st)) else None
      | [] => None
      end
  | Seq a b => run a st (fun st' => run b st' k)
  | Alt a b =>
      match run a st k with
      | Some r => Some r
      | None => run b st k
      end
  | Star a => star_loop (run a) (List.length (after st)) st k
  | Boundary => if at_boundary st then k st else None
  | Bos => match before st with [] => k st | _ :: _ => None end
  | Group n a => run a st (fun st' => k (set_group n (consumed st st') st'))
  end.

(** [pattern.match] at one position. *)
Definition match_here (r : regex) (st : mstate) : option mstate :=
  run r st (fun st' => Some st').

(** A match object. *)
Record match_obj : Type := MatchObj {
  m_start : nat;                  (* m.start() *)
  m_group0 : string;              (* m.group(0) *)
  m_groups : list (nat * string)
}.

Definition mk_match (st st' : mstate) : match_obj :=
  MatchObj (List.length (before st)) (consumed st st') (groups st').

Fixpoint lookup_group (n : nat) (gs : list (nat * string)) : option string :=
  match gs with
  | [] => None
  | (m, s) :: r => if Nat.eqb n m then Some s else lookup_group n r
  end.

(** [m.group(n)]; a group that took no part in the match is [None]. *)
Definition group (m : match_obj) (n : nat) : option string :=
  match n with
  | O => Some (m_group0 m)
  | _ => lookup_group n (m_groups m)
  end.

(** [re.search]: the first position, from the left, where the pattern
    matches. *)
Fixpoint search_from (r : regex) (bef aft : list ascii) : option match_obj :=
  let st := MState bef aft [] in
  match match_here r st with
  | Some st' => Some (mk_match st st')
  | None =>
      match aft with
      | [] => None
      | c :: t => search_from r (c :: bef) t
      end
  end.

Definition search (r : regex) (s : string) : option match_obj :=
  search_from r [] (list_ascii_of_string s).

(** [re.finditer]: the successive matches, none overlapping; [skip] counts
    the characters still covered by the last match.  After an empty
    match the scan moves on by one character. *)
Fixpoint finditer_from (r : regex) (bef aft : list ascii) (skip : nat)
    : list match_obj :=
  match skip with
  | S k =>
      match aft with
      | [] => []
      | c :: t => finditer_from r (c :: bef) t k
      end
  | O =>
      let st := MState bef aft [] in
      match match_here r st with
      | Some st' =>
          mk_match st st' ::
          match aft with
          | [] => []
          | c :: t => finditer_from r (c :: bef) t (Nat.pred (String.length (consumed st st')))
          end
      | None =>
          match aft with
          | [] => []
          | c :: t => finditer_from r (c :: bef) t O
          end
      end
  end.

(** [re.findall] for a pattern with one group: the text of group 1 of every
    match (the empty string when the group took no part). *)
Definition findall (r : regex) (s : string) : list string :=
  map (fun m => match group m 1 with Some g => g | None => EmptyString end)
      (finditer_from r [] (list_ascii_of_string s) O).

(** [re.sub(r, repl, s)] for a constant replacement. *)
Fixpoint sub_from (r : regex) (repl : string) (bef aft : list ascii) (skip : nat)
    : string :=
  match skip with
  | S k =>
      match aft with
      | [] => EmptyString
      | c :: t => sub_from r repl (c :: bef) t k
      end
  | O =>
      let st := MState bef aft [] in
      match match_here r st with
      | Some st' =>
          match String.length (consumed st st') with
          | O => repl ++ match aft with
                         | [] => EmptyString
                         | c :: t => String c (sub_from r repl (c :: bef) t O)
                         end
          | S k => repl ++ match aft with
                           | [] => EmptyString
                           | c :: t => sub_from r repl (c :: bef) t k
                           end
          end
      | None =>
          match aft with
          | [] => EmptyString
          | c :: t => String c (sub_from r repl (c :: bef) t O)
          end
      end
  end.

Definition sub (r : regex) (repl s : string) : string :=
  sub_from r repl [] (list_ascii_of_string s) O.

End Re.

(** ** The data model *)

Import Py.

(** A reference dictionary ([Dict[str, Any]] in the source, the schema
    [ParsedReference] at the API boundary).  [authors], [editors] and
    [type] hold a list or a string whenever they are present; every other
    key may also be present with the value [None], which is what the schema
    produces for an unset optional field. *)
Record ParsedReference : Type := mkRef {
  f_authors : option (list string);
  f_year : field Z;
  f_title : field string;
  f_source : field string;
  f_type : option string;
  f_doi : field string;
  f_url : field string;
  f_publisher : field string;
  f_volume : field string;
  f_issue : field string;
  f_pages : field string;
  f_citation_key : field string;
  f_ref_key : field string;
  (* keys outside the schema that the formatters read *)
  f_location : field string;
  f_journal : field string;
  f_site_name : field string;
  f_retrieved_date : field string;
  f_chapter_title : field string;
  f_book_title : field string;
  f_editors : option (list string)
}.

(** The empty dictionary. *)
Definition empty_ref : ParsedReference :=
  mkRef None Missing Missing Missing None Missing Missing Missing Missing
        Missing Missing Missing Missing Missing Missing Missing Missing
        Missing Missing None.

(** Assignment to one key, [d[key] = v]. *)
Definition set_authors (v : list string) (d : ParsedReference) : ParsedReference :=
  mkRef (Some v) (f_year d) (f_title d) (f_source d) (f_type d) (f_doi d)
        (f_url d) (f_publisher d) (f_volume d) (f_issue d) (f_pages d)
        (f_citation_key d) (f_ref_key d) (f_location d) (f_journal d)
        (f_site_name d) (f_retrieved_date d) (f_chapter_title d)
        (f_book_title d) (f_editors d).

Definition set_year (v : field Z) (d : ParsedReference) : ParsedReference :=
  mkRef (f_authors d) v (f_title d) (f_source d) (f_type d) (f_doi d)
        (f_url d) (f_publisher d) (f_volume d) (f_issue d) (f_pages d)
        (f_citation_key d) (f_ref_key d) (f_location d) (f_journal d)
        (f_site_name d) (f_retrieved_date d) (f_chapter_title d)
        (f_book_title d) (f_editors d).

Definition set_title (v : field string) (d : ParsedReference) : ParsedReference :=
  mkRef (f_authors d) (f_year d) v (f_source d) (f_type d) (f_doi d)
        (f_url d) (f_publisher d) (f_volume d) (f_issue d) (f_pages d)
        (f_citation_key d) (f_ref_key d) (f_location d) (f_journal d)
        (f_site_name d) (f_retrieved_date d) (f_chapter_title d)
        (f_book_title d) (f_editors d).

Definition set_source (v : field string) (d : ParsedReference) : ParsedReference :=
  mkRef (f_authors d) (f_year d) (f_title d) v (f_type d) (f_doi d)
        (f_url d) (f_publisher d) (f_volume d) (f_issue d) (f_pages d)
        (f_citation_key d) (f_ref_key d) (f_location d) (f_journal d)
        (f_site_name d) (f_retrieved_date d) (f_chapter_title d)
        (f_book_title d) (f_editors d).

Definition set_type (v : string) (d : ParsedReference) : ParsedReference :=
  mkRef (f_authors d) (f_year d) (f_title d) (f_source d) (Some v) (f_doi d)
        (f_url d) (f_publisher d) (f_volume d) (f_issue d) (f_pages d)
        (f_citation_key d) (f_ref_key d) (f_location d) (f_journal d)
        (f_site_name d) (f_retrieved_date d) (f_chapter_title d)
        (f_book_title d) (f_editors d).

Definition set_doi (v : field string) (d : ParsedReference) : ParsedReference :=
  mkRef (f_authors d) (f_year d) (f_title d) (f_source d) (f_type d) v
        (f_url d) (f_publisher d) (f_volume d) (f_issue d) (f_pages d)
        (f_citation_key d) (f_ref_key d) (f_location d) (f_journal d)
        (f_site_name d) (f_retrieved_date d) (f_chapter_title d)
        (f_book_title d) (f_editors d).

Definition set_url (v : field string) (d : ParsedReference) : ParsedReference :=
  mkRef (f_authors d) (f_year d) (f_title d) (f_source d) (f_type d) (f_doi d)
        v (f_publisher d) (f_volume d) (f_issue d) (f_pages d)
        (f_citation_key d) (f_ref_key d) (f_location d) (f_journal d)
        (f_site_name d) (f_retrieved_date d) (f_chapter_title d)
        (f_book_title d) (f_editors d).

Definition set_publisher (v : field string) (d : ParsedReference) : ParsedReference :=
  mkRef (f_authors d) (f_year d) (f_title d) (f_source d) (f_type d) (f_doi d)
        (f_url d) v (f_volume d) (f_issue d) (f_pages d)
        (f_citation_key d) (f_ref_key d) (f_location d) (f_journal d)
        (f_site_name d) (f_retrieved_date d) (f_chapter_title d)
        (f_book_title d) (f_editors d).

Definition set_volume (v : field string) (d : ParsedReference) : ParsedReference :=
  mkRef (f_authors d) (f_year d) (f_title d) (f_source d) (f_type d) (f_doi d)
        (f_url d) (f_publisher d) v (f_issue d) (f_pages d)
        (f_citation_key d) (f_ref_key d) (f_location d) (f_journal d)
        (f_site_name d) (f_retrieved_date d) (f_chapter_title d)
        (f_book_title d) (f_editors d).

Definition set_issue (v : field string) (d : ParsedReference) : ParsedReference :=
  mkRef (f_authors d) (f_year d) (f_title d) (f_source d) (f_type d) (f_doi d)
        (f_url d) (f_publisher d) (f_volume d) v (f_pages d)
        (f_citation_key d) (f_ref_key d) (f_location d) (f_journal d)
        (f_site_name d) (f_retrieved_date d) (f_chapter_title d)
        (f_book_title d) (f_editors d).

Definition set_pages (v : field string) (d : ParsedReference) : ParsedReference :=
  mkRef (f_authors d) (f_year d) (f_title d) (f_source d) (f_type d) (f_doi d)
        (f_url d) (f_publisher d) (f_volume d) (f_issue d) v
        (f_citation_key d) (f_ref_key d) (f_location d) (f_journal d)
        (f_site_name d) (f_retrieved_date d) (f_chapter_title d)
        (f_book_title d) (f_editors d).

Definition set_citation_key (v : field string) (d : ParsedReference) : ParsedReference :=
  mkRef (f_authors d) (f_year d) (f_title d) (f_source d) (f_type d) (f_doi d)
        (f_url d) (f_publisher d) (f_volume d) (f_issue d) (f_pages d)
        v (f_ref_key d) (f_location d) (f_journal d)
        (f_site_name d) (f_retrieved_date d) (f_chapter_title d)
        (f_book_title d) (f_editors d).

(** A citation and a reference as the validator receives them. *)
Record Citation : Type := mkCitation {
  c_citation_key : field string;
  c_citation_text : field string;
  c_parsed : option ParsedReference
}.

Record Reference : Type := mkReference {
  r_ref_key : field string;
  r_ref_text : field string;
  r_parsed : option ParsedReference
}.

(** The findings of the validator. *)
Record OrphanCitation : Type := mkOrphanCitation {
  oc_citation_key : string;
  oc_citation_text : pyobj
}.

Record OrphanReference : Type := mkOrphanReference {
  or_ref_key : string;
  or_ref_text : pyobj
}.

Record ImperfectMatch : Type := mkImperfectMatch {
  im_citation_key : string;
  im_ref_key : string;
  im_citation_authors : list string;
  im_reference_authors : list string;
  im_citation_year : pyobj;
  im_reference_year : pyobj;
  im_issue : string
}.

Record ValidationResult : Type := mkResult {
  citations_without_reference : list OrphanCitation;
  references_without_citations : list OrphanReference;
  imperfect_matches : list ImperfectMatch
}.

(** A [dict] with string keys: the entries in insertion order, no key
    twice.  Assigning to a key that is present replaces its value where it
    stands; a new key goes to the end. *)
Definition pydict (V : Type) : Type := list (string * V).

Fixpoint dict_set {V : Type} (k : string) (v : V) (d : pydict V) : pydict V :=
  match d with
  | [] => [(k, v)]
  | (k', v') :: r =>
      if String.eqb k k' then (k, v) :: r else (k', v') :: dict_set k v r
  end.

Fixpoint dict_get {V : Type} (k : string) (d : pydict V) : option V :=
  match d with
  | [] => None
  | (k', v') :: r => if String.eqb k k' then Some v' else dict_get k r
  end.

(** [k in d]. *)
Definition dict_mem {V : Type} (k : string) (d : pydict V) : bool :=
  match dict_get k d with Some _ => true | None => false end.

(** ** The option monad of the fallible operations *)

Definition bind {A B : Type} (m : option A) (f : A -> option B) : option B :=
  match m with
  | Some a => f a
  | None => None
  end.

Notation "x <- m ;; k" := (bind m (fun x => k))
  (at level 61, m at next level, right associativity).

(** A list comprehension [[f(a) for a in l]] whose body can raise. *)
Fixpoint mapM {A B : Type} (f : A -> option B) (l : list A) : option (list B) :=
  match l with
  | [] => Some []
  | a :: t => b <- f a ;; bs <- mapM f t ;; Some (b :: bs)
  end.

(** [parts.append(x)]. *)
Definition append (parts : list string) (x : string) : list string :=
  (parts ++ [x])%list.

(** [if c: parts.append(x)]. *)
Definition append_if (c : bool) (x : string) (parts : list string) : list string :=
  if c then append parts x else parts.

(** [if year: parts.append(f"({year}).")]; the f-string is where [str] of
    the year can raise. *)
Definition append_year (year : pyobj) (parts : list string) : option (list string) :=
  if truthy year
  then y <- str year ;; Some (append parts ("(" ++ y ++ ")."))
  else Some parts.

Definition nl : string := String (ascii_of_nat 10) EmptyString.
Definition tab : string := String (ascii_of_nat 9) EmptyString.
Definition dquote : string := String (ascii_of_nat 34) EmptyString.
Definition backslash : string := String (ascii_of_nat 92) EmptyString.

(** ** The service *)

Module APA7Service.
Import Re.

(** [f"{last}, {first[0]}." if len(first) == 1 else f"{last}, {first}"] *)
Definition initial_form (last first : string) : option string :=
  if (len first =? 1)%Z
  then c <- str_index first 0 ;;
       Some (last ++ ", " ++ String c EmptyString ++ ".")
  else Some (last ++ ", " ++ first).

(** [_format_author_name]: "Last, First" when the name has a comma,
    "First Last" when it has two words or more, the name itself
    otherwise. *)
Definition _format_author_name (name : string) (for_citation : bool)
    : option string :=
  let first_last :=
    let parts := split_ws name in
    if (2 <=? List.length parts)%nat
    then last <- index parts (-1) ;;
         let first := join " " (slice parts None (Some (-1)%Z)) in
         if for_citation then initial_form last first
         else initial_form last first
    else Some name in
  if contains "," name
  then let parts := map strip (split_char "," name) in
       if (2 <=? List.length parts)%nat
       then last <- index parts 0 ;;
            first <- index parts 1 ;;
            if for_citation then initial_form last first
            else initial_form last first
       else first_last
  else first_last.

(** The year as a citation shows it, [f"{year}"] if the year is true and
    n.d. otherwise; the f-string is only evaluated in the first case. *)
Definition year_or_nd (year : pyobj) : option string :=
  if truthy year then str year else Some "n.d.".

Definition generate_citation (parsed_ref : ParsedReference) : option string :=
  let authors := lget (f_authors parsed_ref) in
  let year := iget (f_year parsed_ref) PyNone in
  let citation_key := sget (f_citation_key parsed_ref) (PyStr EmptyString) in
  if negb (nonnil authors) && negb (truthy year)
  then Some (if truthy citation_key then fmt citation_key else "(n.d.)")
  else if negb (nonnil authors)
  then if truthy citation_key
       then if truthy year
            then y <- str year ;; Some ("(" ++ fmt citation_key ++ ", " ++ y ++ ")")
            else Some ("(" ++ fmt citation_key ++ ", n.d.)")
       else if truthy year
            then y <- str year ;; Some ("(n.d., " ++ y ++ ")")
            else Some "(n.d.)"
  else
    let author_count := List.length authors in
    if (author_count =? 1)%nat
    then a0 <- index authors 0 ;;
         author_str <- _format_author_name a0 true ;;
         if truthy year
         then y <- str year ;; Some ("(" ++ author_str ++ ", " ++ y ++ ")")
         else Some ("(" ++ author_str ++ ", n.d.)")
    else if (author_count =? 2)%nat
    then a0 <- index authors 0 ;;
         author1 <- _format_author_name a0 true ;;
         a1 <- index authors 1 ;;
         author2 <- _format_author_name a1 true ;;
         if truthy year
         then y <- str year ;;
              Some ("(" ++ author1 ++ " & " ++ author2 ++ ", " ++ y ++ ")")
         else Some ("(" ++ author1 ++ " & " ++ author2 ++ ", n.d.)")
    else if (author_count <=? 5)%nat
    then author_list <- mapM (fun a => _format_author_name a true) authors ;;
         last <- index author_list (-1) ;;
         let authors_str :=
           join ", " (slice author_list None (Some (-1)%Z)) ++ ", & " ++ last in
         if truthy year
         then y <- str year ;; Some ("(" ++ authors_str ++ ", " ++ y ++ ")")
         else Some ("(" ++ authors_str ++ ", n.d.)")
    else a0 <- index authors 0 ;;
         first_author <- _format_author_name a0 true ;;
         if truthy year
         then y <- str year ;; Some ("(" ++ first_author ++ " et al., " ++ y ++ ")")
         else Some ("(" ++ first_author ++ " et al., n.d.)").

Definition _format_author_list (authors : list string) (is_editor : bool)
    : option string :=
  if negb (nonnil authors) then Some EmptyString
  else if (List.length authors =? 1)%nat
  then a0 <- index authors 0 ;; _format_author_name a0 false
  else if (List.length authors <=? 7)%nat
  then formatted <- mapM (fun a => _format_author_name a false) authors ;;
       if (List.length formatted =? 2)%nat
       then x0 <- index formatted 0 ;;
            x1 <- index formatted 1 ;;
            Some (x0 ++ " & " ++ x1)
       else last <- index formatted (-1) ;;
            Some (join ", " (slice formatted None (Some (-1)%Z)) ++ ", & " ++ last)
  else formatted <- mapM (fun a => _format_author_name a false)
                         (slice authors None (Some 6%Z)) ;;
       Some (join ", " formatted ++ " et al.").

(** The [parts] list of [_format_book_reference], before it is joined. *)
Definition _book_parts (ref : ParsedReference) : option (list string) :=
  let year := iget (f_year ref) (PyStr "n.d.") in
  let title := sget (f_title ref) (PyStr EmptyString) in
  let publisher := sget (f_publisher ref) (PyStr EmptyString) in
  let location := sget (f_location ref) (PyStr EmptyString) in
  author_str <- _format_author_list (lget (f_authors ref)) false ;;
  let parts := [] in
  let parts := append_if (nonempty author_str) author_str parts in
  parts <- append_year year parts ;;
  let parts := append_if (truthy title) (fmt title ++ ".") parts in
  let parts :=
    if truthy publisher
    then if truthy location
         then append parts (fmt location ++ ": " ++ fmt publisher ++ ".")
         else append parts (fmt publisher ++ ".")
    else parts in
  Some parts.

Definition _format_book_reference (ref : ParsedReference) : option string :=
  parts <- _book_parts ref ;; Some (join " " parts).

Definition _article_parts (ref : ParsedReference) : option (list string) :=
  let authors := lget (f_authors ref) in
  let year := iget (f_year ref) (PyStr "n.d.") in
  let title := sget (f_title ref) (PyStr EmptyString) in
  let source := sget (f_source ref) (sget (f_journal ref) (PyStr EmptyString)) in
  let volume := sget (f_volume ref) PyNone in
  let issue := sget (f_issue ref) PyNone in
  let pages := sget (f_pages ref) PyNone in
  let doi := sget (f_doi ref) PyNone in
  author_str <- _format_author_list authors false ;;
  let parts := [] in
  let parts := append_if (nonempty author_str) author_str parts in
  parts <- append_year year parts ;;
  let parts := append_if (truthy title) (fmt title ++ ".") parts in
  let parts :=
    if truthy source
    then if truthy volume
         then if truthy issue
              then append parts (fmt source ++ ", " ++ fmt volume ++ "(" ++ fmt issue ++ "),")
              else append parts (fmt source ++ ", " ++ fmt volume ++ ",")
         else append parts (fmt source ++ ",")
    else parts in
  let parts := append_if (truthy pages) (fmt pages ++ ".") parts in
  let parts := append_if (truthy doi) ("https://doi.org/" ++ fmt doi) parts in
  Some parts.

Definition _format_article_reference (ref : ParsedReference) : option string :=
  parts <- _article_parts ref ;; Some (join " " parts).

(** [_format_web_reference]; [now] is the value of
    [datetime.now().strftime("%B %d, %Y")] when the function runs. *)
Definition _web_parts (now : string) (ref : ParsedReference)
    : option (list string) :=
  let authors := lget (f_authors ref) in
  let year := iget (f_year ref) (PyStr "n.d.") in
  let title := sget (f_title ref) (PyStr EmptyString) in
  let site_name := sget (f_site_name ref) (sget (f_source ref) (PyStr EmptyString)) in
  let url := sget (f_url ref) (PyStr EmptyString) in
  let retrieved_date := sget (f_retrieved_date ref) (PyStr now) in
  author_str <-
    (if nonnil authors then _format_author_list authors false
     else if truthy site_name then Some (fmt site_name)
     else Some EmptyString) ;;
  let parts := [] in
  let parts := append_if (nonempty author_str) author_str parts in
  parts <-
    (if truthy year && negb (pyobj_eqb year (PyStr "n.d."))
     then y <- str year ;; Some (append parts ("(" ++ y ++ ")."))
     else if truthy retrieved_date
     then Some (append parts ("(" ++ fmt retrieved_date ++ ")."))
     else Some parts) ;;
  let parts := append_if (truthy title) (fmt title ++ ".") parts in
  let parts := append_if (truthy site_name && nonnil authors) (fmt site_name ++ ".") parts in
  let parts := append_if (truthy url) (fmt url) parts in
  Some parts.

Definition _format_web_reference (now : string) (ref : ParsedReference)
    : option string :=
  parts <- _web_parts now ref ;; Some (join " " parts).

Definition _chapter_parts (ref : ParsedReference) : option (list string) :=
  let authors := lget (f_authors ref) in
  let year := iget (f_year ref) (PyStr "n.d.") in
  let chapter_title :=
    sget (f_title ref) (sget (f_chapter_title ref) (PyStr EmptyString)) in
  let editors := lget (f_editors ref) in
  let book_title :=
    sget (f_book_title ref) (sget (f_source ref) (PyStr EmptyString)) in
  let publisher := sget (f_publisher ref) (PyStr EmptyString) in
  let pages := sget (f_pages ref) (PyStr EmptyString) in
  author_str <- _format_author_list authors false ;;
  editor_str <- _format_author_list editors true ;;
  let parts := [] in
  let parts := append_if (nonempty author_str) author_str parts in
  parts <- append_year year parts ;;
  let parts := append_if (truthy chapter_title) (fmt chapter_title ++ ".") parts in
  let parts :=
    if nonempty editor_str && truthy book_title
    then append parts ("In " ++ editor_str ++ " (Ed.), " ++ fmt book_title)
    else if truthy book_title
    then append parts ("In " ++ fmt book_title)
    else parts in
  let parts :=
    if truthy pages
    then append parts ("(pp. " ++ fmt pages ++ ").")
    else if truthy book_title
    then append parts (".")
    else parts in
  let parts := append_if (truthy publisher) (fmt publisher ++ ".") parts in
  Some parts.

Definition _format_chapter_reference (ref : ParsedReference) : option string :=
  parts <- _chapter_parts ref ;; Some (join " " parts).

Definition _generic_parts (ref : ParsedReference) : option (list string) :=
  let authors := lget (f_authors ref) in
  let year := iget (f_year ref) (PyStr "n.d.") in
  let title := sget (f_title ref) (PyStr EmptyString) in
  let source := sget (f_source ref) (PyStr EmptyString) in
  author_str <- _format_author_list authors false ;;
  let parts := [] in
  let parts := append_if (nonempty author_str) author_str parts in
  parts <- append_year year parts ;;
  let parts := append_if (truthy title) (fmt title ++ ".") parts in
  let parts := append_if (truthy source) (fmt source ++ ".") parts in
  Some parts.

Definition _format_generic_reference (ref : ParsedReference) : option string :=
  parts <- _generic_parts ref ;; Some (join " " parts).

(** [parsed_ref.get("type", "book").lower()] *)
Definition ref_type_of (parsed_ref : ParsedReference) : string :=
  lower (match f_type parsed_ref with None => "book" | Some t => t end).

(** The [parts] of the entry, by the dispatch of [generate_reference]. *)
Definition reference_parts (now : string) (parsed_ref : ParsedReference)
    : option (list string) :=
  let ref_type := ref_type_of parsed_ref in
  if String.eqb ref_type "book" then _book_parts parsed_ref
  else if String.eqb ref_type "article" then _article_parts parsed_ref
  else if String.eqb ref_type "web" || String.eqb ref_type "website"
  then _web_parts now parsed_ref
  else if String.eqb ref_type "chapter" then _chapter_parts parsed_ref
  else _generic_parts parsed_ref.

Definition generate_reference (now : string) (parsed_ref : ParsedReference)
    : option string :=
  let ref_type := ref_type_of parsed_ref in
  if String.eqb ref_type "book" then _format_book_reference parsed_ref
  else if String.eqb ref_type "article" then _format_article_reference parsed_ref
  else if String.eqb ref_type "web" || String.eqb ref_type "website"
  then _format_web_reference now parsed_ref
  else if String.eqb ref_type "chapter" then _format_chapter_reference parsed_ref
  else _format_generic_reference parsed_ref.

Definition generate_reference_list (now : string)
    (references : list ParsedReference) (format_output : string)
    : option string :=
  formatted_refs <-
    mapM (fun ref =>
            formatted <- generate_reference now ref ;;
            Some (if String.eqb format_output "html"
                  then "<p style=" ++ dquote
                       ++ "text-indent: -36px; padding-left: 36px;"
                       ++ dquote ++ ">" ++ formatted ++ "</p>"
                  else if String.eqb format_output "latex"
                  then backslash ++ "hangindent=36pt " ++ formatted
                       ++ backslash ++ backslash
                  else tab ++ formatted))
         references ;;
  Some (join nl formatted_refs).

(** *** The patterns of the parser *)

Definition digit : regex := Chr is_digit.
Definition space : regex := Chr is_space.
Definition non_space : regex := Chr (Not is_space).

(** [10\.\d{4,}/[^\s]+], IGNORECASE *)
Definition DOI_PATTERN : regex :=
  Seq (LitI "10.") (Seq (AtLeast 4 digit) (Seq (LitI "/") (Plus non_space))).

(** [https?://[^\s]+], IGNORECASE *)
Definition url_pattern : regex :=
  Seq (LitI "http") (Seq (Opt (LitI "s")) (Seq (LitI "://") (Plus non_space))).

(** [\b(19|20)\d{2}\b] *)
Definition year_pattern : regex :=
  Seq Boundary
      (Seq (Group 1 (Alt (Lit "19") (Lit "20"))) (Seq (Rep 2 digit) Boundary)).

(** [([A-Z][a-z]+(?:\s+[A-Z]\.?)+)] *)
Definition author_names_pattern : regex :=
  Group 1 (Seq (Chr is_AZ)
               (Seq (Plus (Chr is_az))
                    (Plus (Seq (Plus space) (Seq (Chr is_AZ) (Opt (Lit "."))))))).

(** [^[.,;:\s]+] *)
Definition leading_punct_pattern : regex :=
  Seq Bos (Plus (Chr (fun c => OneOf ".,;:" c || is_space c))).

(** [([A-Z][a-z]+(?:\s+[A-Z][a-z]+)*\s+(?:Journal|Review|Magazine))] *)
Definition journal_pattern : regex :=
  Group 1
    (Seq (Chr is_AZ)
         (Seq (Plus (Chr is_az))
              (Seq (Star (Seq (Plus space) (Seq (Chr is_AZ) (Plus (Chr is_az)))))
                   (Seq (Plus space)
                        (Alt (Lit "Journal") (Alt (Lit "Review") (Lit "Magazine"))))))).

(** [(\d+)\s*\((\d+)\)] *)
Definition volume_pattern : regex :=
  Seq (Group 1 (Plus digit))
      (Seq (Star space) (Seq (Lit "(") (Seq (Group 2 (Plus digit)) (Lit ")")))).

(** The dash class of the pages pattern as the file spells it: the hyphen
    and the characters U+00E2, U+20AC, U+201C, of which the first two are
    in the range of the model. *)
Definition is_dash (c : ascii) : bool := is_code 45 c || is_code 226 c.

(** [(\d+)\s*[-...]\s*(\d+)] *)
Definition pages_pattern : regex :=
  Seq (Group 1 (Plus digit))
      (Seq (Star space) (Seq (Chr is_dash) (Seq (Star space) (Group 2 (Plus digit))))).

(** The value stored from [m.group(n)]. *)
Definition of_group (g : option string) : field string :=
  match g with Some s => Val s | None => Null end.

Definition fmt_group (g : option string) : string :=
  match g with Some s => s | None => "None" end.

(** The dictionary [parse_reference_text] starts from. *)
Definition initial_parsed : ParsedReference :=
  mkRef (Some []) Null Null Null (Some "book") Null Null Null Null Null Null
        Missing Missing Missing Missing Missing Missing Missing Missing None.

(** [parse_reference_text] fills the dictionary [parsed] block by block;
    each block is a function from the dictionary before it to the
    dictionary after it.  [parsed["year"]] is [iget (f_year parsed) PyNone]. *)

(** # Extract DOI *)
Definition extract_doi (raw_text : string) (parsed : ParsedReference)
    : ParsedReference :=
  match search DOI_PATTERN raw_text with
  | Some doi_match => set_doi (of_group (group doi_match 0)) parsed
  | None => parsed
  end.

(** # Extract URL *)
Definition extract_url (raw_text : string) (parsed : ParsedReference)
    : ParsedReference :=
  match search url_pattern raw_text with
  | Some url_match => set_type "web" (set_url (of_group (group url_match 0)) parsed)
  | None => parsed
  end.

(** # Extract year; [int] is the one call of the parser that can raise. *)
Definition extract_year (raw_text : string) (parsed : ParsedReference)
    : option ParsedReference :=
  let year_matches := findall year_pattern raw_text in
  if nonnil year_matches
  then match search year_pattern raw_text with
       | Some full_year_match =>
           y <- int (fmt_group (group full_year_match 0)) ;;
           Some (set_year (Val y) parsed)
       | None => Some parsed
       end
  else Some parsed.

(** [before_year] and [author_section]; [str(parsed["year"])] is the
    numeral of the four-digit integer read just before, so [fmt]. *)
Definition before_year_of (raw_text : string) (year : pyobj) : string :=
  if truthy year
  then str_slice raw_text None (Some (find raw_text (fmt year)))
  else raw_text.

Definition author_section_of (before_year : string) : option string :=
  if contains "." before_year
  then index (split_char "." before_year) 0
  else Some before_year.

(** # Extract authors *)
Definition extract_authors (author_section : string) (parsed : ParsedReference)
    : ParsedReference :=
  let author_names := findall author_names_pattern author_section in
  if nonnil author_names
  then set_authors (slice author_names None (Some 5%Z)) parsed
  else parsed.

(** [title_section], after the leading punctuation is removed *)
Definition title_section_of (raw_text author_section : string) (year : pyobj)
    : string :=
  let year_pos := find raw_text (fmt year) in
  let title_section :=
    strip (str_slice raw_text (Some (len author_section)) (Some year_pos)) in
  sub leading_punct_pattern EmptyString title_section.

(** # Extract title *)
Definition extract_title (raw_text author_section : string)
    (parsed : ParsedReference) : ParsedReference :=
  let year := iget (f_year parsed) PyNone in
  if truthy year
  then let title_section := title_section_of raw_text author_section year in
       if nonempty title_section && (10 <? len title_section)%Z
       then set_title (Val title_section) parsed
       else parsed
  else parsed.

(** # Extract publication/source info *)
Definition extract_source (raw_text : string) (parsed : ParsedReference)
    : ParsedReference :=
  if contains "Journal" raw_text || contains "Review" raw_text
  then let parsed := set_type "article" parsed in
       match search journal_pattern raw_text with
       | Some journal_match => set_source (of_group (group journal_match 1)) parsed
       | None => parsed
       end
  else parsed.

(** # Extract volume, issue, pages for articles *)
Definition extract_volume (raw_text : string) (parsed : ParsedReference)
    : ParsedReference :=
  match search volume_pattern raw_text with
  | Some volume_match =>
      set_issue (of_group (group volume_match 2))
                (set_volume (of_group (group volume_match 1)) parsed)
  | None => parsed
  end.

Definition extract_pages (raw_text : string) (parsed : ParsedReference)
    : ParsedReference :=
  match search pages_pattern raw_text with
  | Some pages_match =>
      set_pages (Val (fmt_group (group pages_match 1) ++ "-"
                      ++ fmt_group (group pages_match 2))) parsed
  | None => parsed
  end.

Definition parse_reference_text (raw_text : string) : option ParsedReference :=
  let parsed := initial_parsed in
  let parsed := extract_doi raw_text parsed in
  let parsed := extract_url raw_text parsed in
  parsed <- extract_year raw_text parsed ;;
  let before_year := before_year_of raw_text (iget (f_year parsed) PyNone) in
  author_section <- author_section_of before_year ;;
  let parsed := extract_authors author_section parsed in
  let parsed := extract_title raw_text author_section parsed in
  let parsed := extract_source raw_text parsed in
  let parsed := extract_volume raw_text parsed in
  let parsed := extract_pages raw_text parsed in
  Some parsed.

(** *** The coherence validator *)

(** [re.sub(r'[^\w\s]', '', author.lower())], then
    [re.sub(r'\s+', ' ', normalized).strip()] *)
Definition _normalize_author (author : string) : string :=
  let normalized :=
    sub (Chr (Not (fun c => is_word c || is_space c))) EmptyString (lower author) in
  let normalized := strip (sub (Plus space) " " normalized) in
  normalized.

(** One step of the comprehension [{x.get(key): x for x in l if x.get(key)}]:
    a record whose key is a non-empty string is entered under it, any
    other record is skipped. *)
Definition enter {A : Type} (key : A -> field string) (d : pydict A) (x : A)
    : pydict A :=
  match key x with
  | Val k => if nonempty k then dict_set k x d else d
  | _ => d
  end.

Definition keyed {A : Type} (key : A -> field string) (l : list A) : pydict A :=
  fold_left (enter key) l [].

(** [x.get("parsed", {})] *)
Definition parsed_of (p : option ParsedReference) : ParsedReference :=
  match p with Some d => d | None => empty_ref end.

Definition authors_differ (a b : list string) : bool :=
  if list_eq_dec string_dec a b then false else true.

Definition validate_coherence (citations : list Citation)
    (references : list Reference) : ValidationResult :=
  let citation_keys := keyed c_citation_key citations in
  let reference_keys := keyed r_ref_key references in
  let without_reference :=
    flat_map (fun '(citation_key, citation) =>
                if negb (dict_mem citation_key reference_keys)
                then [mkOrphanCitation citation_key
                        (sget (c_citation_text citation) (PyStr EmptyString))]
                else []) citation_keys in
  let without_citations :=
    flat_map (fun '(ref_key, reference) =>
                if negb (dict_mem ref_key citation_keys)
                then [mkOrphanReference ref_key
                        (sget (r_ref_text reference) (PyStr EmptyString))]
                else []) reference_keys in
  let imperfect :=
    flat_map (fun '(citation_key, citation) =>
                match dict_get citation_key reference_keys with
                | Some reference =>
                    let cit_authors := lget (f_authors (parsed_of (c_parsed citation))) in
                    let ref_authors := lget (f_authors (parsed_of (r_parsed reference))) in
                    let cit_year := iget (f_year (parsed_of (c_parsed citation))) PyNone in
                    let ref_year := iget (f_year (parsed_of (r_parsed reference))) PyNone in
                    let cit_authors_normalized := map _normalize_author cit_authors in
                    let ref_authors_normalized := map _normalize_author ref_authors in
                    if authors_differ cit_authors_normalized ref_authors_normalized
                       || negb (pyobj_eqb cit_year ref_year)
                    then [mkImperfectMatch citation_key citation_key
                            cit_authors ref_authors cit_year ref_year
                            "Authors or year mismatch between citation and reference"]
                    else []
                | None => []
                end) citation_keys in
  mkResult without_reference without_citations imperfect.

End APA7Service.

(** ** The callers of the engine

    The request schema of [schemas/apa.py] and what the endpoint
    [generate_references] of [api/v1/endpoints/apa.py] and the task
    [validate_apa_coherence] of [tasks/apa_tasks.py] do between the
    database and the engine.  The session, the access checks and the audit
    log are left out: they do not touch the values the engine is given or
    returns. *)

Module Callers.
Import Re APA7Service.

(** [schemas/apa.py], class [ParsedReference]: the fields of the request
    model (the record of the engine already has the name), and the
    dictionary [.dict()] makes of them: every field of the model is a key,
    and an optional field that was not given has the value [None]. *)
Record ParsedReferenceModel : Type := mkModel {
  m_authors : list string;
  m_year : option Z;
  m_title : option string;
  m_source : option string;
  m_type : string;
  m_doi : option string;
  m_url : option string;
  m_publisher : option string;
  m_volume : option string;
  m_issue : option string;
  m_pages : option string;
  m_citation_key : option string;
  m_ref_key : option string
}.

Definition optional {A : Type} (o : option A) : field A :=
  match o with Some a => Val a | None => Null end.

Definition model_dict (m : ParsedReferenceModel) : ParsedReference :=
  mkRef (Some (m_authors m)) (optional (m_year m)) (optional (m_title m))
        (optional (m_source m)) (Some (m_type m)) (optional (m_doi m))
        (optional (m_url m)) (optional (m_publisher m)) (optional (m_volume m))
        (optional (m_issue m)) (optional (m_pages m))
        (optional (m_citation_key m)) (optional (m_ref_key m))
        Missing Missing Missing Missing Missing Missing None.

(** [generate_references], once the document is found and may be read:
    [ref_dicts = [ref.dict() for ref in request_data.references]], then
    the reference list in the format of the request. *)
Definition generate_references (now : string)
    (references : list ParsedReferenceModel) (format : string) : option string :=
  let ref_dicts := map model_dict references in
  generate_reference_list now ref_dicts format.

(** The rows of the tables [citations] and [references]: the key and the
    text are not nullable, the parsed fields are. *)
Record CitationRow : Type := mkCitationRow {
  cit_citation_key : string;
  cit_citation_text : string;
  cit_parsed : option ParsedReference
}.

Record ReferenceRow : Type := mkReferenceRow {
  ref_ref_key : string;
  ref_ref_text : string;
  ref_parsed : option ParsedReference
}.

(** [{"citation_key": cit.citation_key, "citation_text": cit.citation_text,
    "parsed": cit.parsed or {}}], and the same for a reference. *)
Definition citation_dict (cit : CitationRow) : Citation :=
  mkCitation (Val (cit_citation_key cit)) (Val (cit_citation_text cit))
             (Some (match cit_parsed cit with Some d => d | None => empty_ref end)).

Definition reference_dict (ref : ReferenceRow) : Reference :=
  mkReference (Val (ref_ref_key ref)) (Val (ref_ref_text ref))
              (Some (match ref_parsed ref with Some d => d | None => empty_ref end)).

(** The summary of the report. *)
Record Summary : Type := mkSummary {
  total_citations : nat;
  total_references : nat;
  n_citations_without_reference : nat;
  n_references_without_citations : nat;
  n_imperfect_matches : nat
}.

(** [validate_apa_coherence], once the rows are fetched: the validation
    result and the summary. *)
Definition validate_apa_coherence (citations : list CitationRow)
    (references : list ReferenceRow) : ValidationResult * Summary :=
  let citation_dicts := map citation_dict citations in
  let reference_dicts := map reference_dict references in
  let validation_result := validate_coherence citation_dicts reference_dicts in
  (validation_result,
   mkSummary (List.length citations) (List.length references)
             (List.length (citations_without_reference validation_result))
             (List.length (references_without_citations validation_result))
             (List.length (imperfect_matches validation_result))).

End Callers.

(** ** Notions the properties are stated with *)

Import Re APA7Service.
Import Callers.

Fixpoint last_char (s : string) : option ascii :=
  match s with
  | EmptyString => None
  | String c t =>
      match t with
      | EmptyString => Some c
      | String _ _ => last_char t
      end
  end.

(** [s.startswith("(") and s.endswith(")")] *)
Definition parenthesized (s : string) : bool :=
  match s with String c _ => Ascii.eqb c "(" | EmptyString => false end
  && match last_char s with Some c => Ascii.eqb c ")" | None => false end.

(** When [_format_web_reference] puts the current date into the entry: the
    type is web or website, the year is not a non-zero integer, and there
    is no [retrieved_date] key. *)
Definition is_web (ref : ParsedReference) : bool :=
  String.eqb (ref_type_of ref) "web" || String.eqb (ref_type_of ref) "website".

Definition reads_clock (ref : ParsedReference) : bool :=
  is_web ref
  && negb (truthy (iget (f_year ref) PyNone))
  && match f_retrieved_date ref with Missing => true | _ => false end.

(** [str(year)] for the year of a reference; [None] when the year is an
    integer of more than 4300 digits, which [str] refuses. *)
Definition year_text (ref : ParsedReference) : option string :=
  str (iget (f_year ref) PyNone).

(** The normalisation of an author as the specification words it:
    lowercased, every character that is neither alphanumeric nor whitespace
    removed, whitespace collapsed (and trimmed). *)
Definition normalize_words (author : string) : string :=
  strip (sub (Plus space) " "
             (sfilter (fun c => is_alnum c || is_space c) (lower author))).

(** A record without a usable key: the key is missing, [None] or empty. *)
Definition keyless (f : field string) : Prop :=
  f = Missing \/ f = Null \/ f = Val EmptyString.

(** All the records with key [k] removed but the last one. *)
Definition has_key {A : Type} (key : A -> field string) (k : string) (x : A) : bool :=
  match key x with
  | Val k' => String.eqb k k'
  | _ => false
  end.

Fixpoint keep_last {A : Type} (key : A -> field string) (k : string) (l : list A)
    : list A :=
  match l with
  | [] => []
  | x :: t =>
      if has_key key k x && existsb (has_key key k) t
      then keep_last key k t
      else x :: keep_last key k t
  end.

(** What a match can consume: [chars_in P r] says that every character
    class of [r] lies within [P], [min_len r] is the least number of
    characters a match of [r] takes, and [extends P n st st'] that [st']
    is [st] moved forward over at least [n] characters, all in [P]. *)
Fixpoint chars_in (P : ascii -> bool) (r : regex) : Prop :=
  match r with
  | Chr p => forall c, p c = true -> P c = true
  | Seq a b | Alt a b => chars_in P a /\ chars_in P b
  | Star a | Group _ a => chars_in P a
  | Eps | Boundary | Bos => True
  end.

Fixpoint min_len (r : regex) : nat :=
  match r with
  | Chr _ => 1
  | Seq a b => min_len a + min_len b
  | Alt a b => Nat.min (min_len a) (min_len b)
  | Group _ a => min_len a
  | Eps | Star _ | Boundary | Bos => 0
  end.

Definition extends (P : ascii -> bool) (n : nat) (st st' : mstate) : Prop :=
  exists cs,
    before st' = (rev cs ++ before st)%list
    /\ after st = (cs ++ after st')%list
    /\ Forall (fun c => P c = true) cs
    /\ n <= List.length cs.

(** A few inputs used below. *)
Definition ref_with (authors : list string) (year : field Z) : ParsedReference :=
  set_year year (set_authors authors empty_ref).

Definition cite (k text : string) (authors : list string) (year : field Z) : Citation :=
  mkCitation (Val k) (Val text) (Some (ref_with authors year)).

Definition refer (k text : string) (authors : list string) (year : field Z) : Reference :=
  mkReference (Val k) (Val text) (Some (ref_with authors year)).

Definition seven_authors : list string :=
  ["Smith, J."; "Jones, M."; "Brown, K."; "White, L."; "Green, P."; "Blue, Q.";
   "Grey, R."].

Definition eight_authors : list string :=
  ["Smith, J."; "Jones, M."; "Brown, K."; "White, L."; "Green, P."; "Blue, Q.";
   "Grey, R."; "Black, S."].

(** The last record of [l] whose key is [k]. *)
Fixpoint last_with {A : Type} (key : A -> field string) (k : string) (l : list A)
    : option A :=
  match l with
  | [] => None
  | x :: t =>
      match last_with key k t with
      | Some y => Some y
      | None => if has_key key k x then Some x else None
      end
  end.

(** The record [validate_coherence] emits for a key whose two sides
    disagree. *)
Definition mismatch (k : string) (c : Citation) (r : Reference) : ImperfectMatch :=
  mkImperfectMatch k k
    (lget (f_authors (parsed_of (c_parsed c))))
    (lget (f_authors (parsed_of (r_parsed r))))
    (iget (f_year (parsed_of (c_parsed c))) PyNone)
    (iget (f_year (parsed_of (r_parsed r))) PyNone)
    "Authors or year mismatch between citation and reference".

(** The citation and the reference of the unit tests, and three citations
    of which the first and the last share a key. *)
Definition smith_cited : Citation :=
  cite "[Smith, 2020]" "Smith (2020) states..." ["Smith, J."] (Val 2020%Z).

Definition smith_listed : Reference :=
  refer "[Smith, 2020]" "Smith, J., & Jones, M. (2020). Example book."
        ["Smith, J."; "Jones, M."] (Val 2020%Z).

Definition smith_cited_underscore : Citation :=
  cite "[Smith, 2020]" "Smith (2020) states..." ["Smith_J"] (Val 2020%Z).

Definition smith_listed_plain : Reference :=
  refer "[Smith, 2020]" "Smith, J. (2020). Example book." ["SmithJ"] (Val 2020%Z).

Definition cited_twice : list Citation :=
  [cite "[A]" "first" [] Missing; cite "[B]" "second" [] Missing;
   cite "[A]" "third" [] Missing].

Definition no_key : Citation := mkCitation Null (Val "stray") None.

Definition empty_key : Reference := mkReference (Val EmptyString) (Val "stray") None.

(** A web page without a year, and the book of the unit tests. *)
Definition web_page : ParsedReference :=
  set_url (Val "https://example.com/article") (set_type "web" empty_ref).

Definition book_2020 : ParsedReference :=
  set_type "book" (set_title (Val "Book Title") (ref_with ["Smith, J."] (Val 2020%Z))).

Definition book_undated : ParsedReference :=
  set_type "book" (set_title (Val "Book Title") (ref_with ["Smith, J."] Missing)).

(** *** Text

    [take_while p l] is the longest prefix of [l] within [p];
    [drop_while] leaves the rest. *)
Fixpoint take_while (p : ascii -> bool) (l : list ascii) : list ascii :=
  match l with
  | [] => []
  | c :: t => if p c then c :: take_while p t else []
  end.

(** [strip] on the characters of a text, and its second half, which trims
    the end. *)
Definition strip_list (l : list ascii) : list ascii :=
  rev (drop_while is_space (rev (drop_while is_space l))).

Definition rstrip_list (l : list ascii) : list ascii :=
  rev (drop_while is_space (rev l)).

(** A text that does not start with whitespace. *)
Definition starts_clean (l : list ascii) : Prop :=
  match l with c :: _ => is_space c = false | [] => True end.

(** A text that [strip] leaves as it is; a text without a comma; a text
    without whitespace. *)
Definition stripped (s : string) : Prop := strip s = s.

Definition comma_free (s : string) : Prop := ~ In ","%char (list_ascii_of_string s).

Definition no_space (s : string) : Prop :=
  Forall (fun c => is_space c = false) (list_ascii_of_string s).

(** [w] is a word of [s]: not empty, without whitespace, made of
    characters of [s]. *)
Definition word_of (s w : string) : Prop :=
  w <> EmptyString
  /\ forall c, In c (list_ascii_of_string w) ->
               is_space c = false /\ In c (list_ascii_of_string s).

(** Every run of whitespace replaced by one space; [in_run] says that the
    character before was whitespace. *)
Fixpoint squeeze (in_run : bool) (l : list ascii) : list ascii :=
  match l with
  | [] => []
  | c :: t =>
      if is_space c
      then if in_run then squeeze true t else " "%char :: squeeze true t
      else c :: squeeze false t
  end.

(** No two whitespace characters side by side. *)
Fixpoint single_spaced (l : list ascii) : bool :=
  match l with
  | [] => true
  | c :: t =>
      match t with
      | [] => true
      | d :: _ => negb (is_space c && is_space d) && single_spaced t
      end
  end.

(** The characters of a normalised author: lowercase word characters and
    the space. *)
Definition normal_char (c : ascii) : bool :=
  (is_word c && Ascii.eqb (lower_char c) c) || Ascii.eqb c " ".

(** The shape [_format_author_name] gives a name of two parts or more:
    the last name, a comma and a space, and the rest, which is not a
    single character. *)
Definition last_first (s : string) : Prop :=
  exists last first,
    s = last ++ ", " ++ first
    /\ comma_free last /\ comma_free first
    /\ stripped last /\ stripped first
    /\ String.length first <> 1.

(** *** Patterns

    [lang r] is the set of texts the pattern [r] can match, boundaries
    and anchors aside. *)
Inductive star_of (L : list ascii -> Prop) : list ascii -> Prop :=
| star_none : star_of L []
| star_more (x y : list ascii) : L x -> star_of L y -> star_of L (x ++ y)%list.

Fixpoint lang (r : regex) (cs : list ascii) : Prop :=
  match r with
  | Eps | Boundary | Bos => cs = []
  | Chr p => exists c, cs = [c] /\ p c = true
  | Seq a b => exists x y, cs = (x ++ y)%list /\ lang a x /\ lang b y
  | Alt a b => lang a cs \/ lang b cs
  | Star a => star_of (lang a) cs
  | Group _ a => lang a cs
  end.

(** [groups_in G r]: whatever a group [n] of [r] can capture satisfies
    [G n]; [must_set r]: the groups every match of [r] sets. *)
Fixpoint groups_in (G : nat -> string -> Prop) (r : regex) : Prop :=
  match r with
  | Group n a =>
      (forall cs, lang a cs -> G n (string_of_list_ascii cs)) /\ groups_in G a
  | Seq a b | Alt a b => groups_in G a /\ groups_in G b
  | Star a => groups_in G a
  | Eps | Chr _ | Boundary | Bos => True
  end.

Fixpoint must_set (r : regex) : list nat :=
  match r with
  | Group n a => n :: must_set a
  | Seq a b => (must_set a ++ must_set b)%list
  | Eps | Chr _ | Alt _ _ | Star _ | Boundary | Bos => []
  end.

(** [reaches G r st st']: [st'] is [st] after a text of [lang r], with
    new groups that satisfy [G] and include those of [must_set r]. *)
Definition reaches (G : nat -> string -> Prop) (r : regex) (st st' : mstate) : Prop :=
  exists cs new,
    lang r cs
    /\ before st' = (rev cs ++ before st)%list
    /\ after st = (cs ++ after st')%list
    /\ groups st' = (new ++ groups st)%list
    /\ Forall (fun g => G (fst g) (snd g)) new
    /\ incl (must_set r) (map fst new).


(** A book sent to the endpoint without a year. *)
Definition undated_model : ParsedReferenceModel :=
  mkModel ["Smith, J."] None (Some "Book Title") None "book" None None
          (Some "Academic Press") None None None None None.

(** The same book with the key [year] set to [None], and a reference
    whose year [str] refuses: 1 followed by 4300 zeros. *)
Definition book_year_none : ParsedReference :=
  set_type "book" (set_title (Val "Book Title") (ref_with ["Smith, J."] Null)).

Definition book_year_too_long : ParsedReference :=
  set_type "book"
    (set_title (Val "Book Title")
               (ref_with ["Smith, J."] (Val (10 ^ max_str_digits)%Z))).

(** ** Properties *)

(** *** The runtime *)

(** [str] refuses an integer whose absolute value is 10^4300 or more: it
    has more than 4300 digits. *)
Lemma uint_length (d : Decimal.uint) :
  String.length (NilEmpty.string_of_uint d) = Decimal.nb_digits d.
Proof. induction d; simpl; congruence. Qed.

Lemma uint_length_le (d : Decimal.uint) :
  Decimal.nb_digits d <= String.length (NilZero.string_of_uint d).
Proof.
  destruct d; unfold NilZero.string_of_uint; rewrite ?uint_length; simpl; lia.
Qed.

Lemma usize_digits (d : Decimal.uint) :
  DecimalPos.Unsigned.usize d = N.of_nat (Decimal.nb_digits d).
Proof.
  induction d; cbn [DecimalPos.Unsigned.usize Decimal.nb_digits];
    rewrite ?Nat2N.inj_succ, ?IHd; reflexivity.
Qed.

Lemma of_lu_bound (d : Decimal.uint) :
  (DecimalPos.Unsigned.of_lu d < 10 ^ DecimalPos.Unsigned.usize d)%N.
Proof.
  induction d; cbn [DecimalPos.Unsigned.of_lu DecimalPos.Unsigned.usize];
    rewrite ?N.pow_succ_r'; [rewrite N.pow_0_r|..]; lia.
Qed.

Lemma numeral_bound (p : positive) :
  (N.pos p < 10 ^ N.of_nat (String.length (numeral (Z.pos p))))%N.
Proof.
  unfold numeral. cbn [Z.to_int NilZero.string_of_int].
  eapply N.lt_le_trans.
  - rewrite <- (DecimalPos.Unsigned.of_to p), DecimalPos.Unsigned.of_uint_alt.
    apply of_lu_bound.
  - rewrite usize_digits, DecimalFacts.nb_digits_rev.
    apply N.pow_le_mono_r; [lia|].
    pose proof (uint_length_le (Pos.to_uint p)). lia.
Qed.

Lemma str_of_int_too_long (z : Z) :
  (10 ^ max_str_digits <= Z.abs z)%Z -> str_of_int z = None.
Proof.
  intros H. unfold str_of_int.
  assert (M : (0 <= max_str_digits)%Z) by (unfold max_str_digits; lia).
  generalize dependent max_str_digits. intros m H M.
  destruct (Z.of_nat _ <=? m)%Z eqn:E; [|reflexivity]. exfalso.
  apply Z.leb_le in E.
  assert (P : exists p, Z.abs z = Z.pos p).
  { destruct z as [|p|p]; simpl in *; eauto.
    pose proof (Z.pow_pos_nonneg 10 m ltac:(lia) M). lia. }
  destruct P as [p Hp]. rewrite Hp in *.
  pose proof (numeral_bound p) as B.
  set (n := String.length (numeral (Z.pos p))) in *.
  assert (B' : (Z.pos p < 10 ^ Z.of_nat n)%Z).
  { apply N2Z.inj_lt in B. rewrite N2Z.inj_pow in B.
    rewrite nat_N_Z in B. exact B. }
  assert (L : (10 ^ Z.of_nat n <= 10 ^ m)%Z) by (apply Z.pow_le_mono_r; lia).
  lia.
Qed.

Lemma year_too_long :
  f_year book_year_too_long = Val (10 ^ max_str_digits)%Z
  /\ year_text book_year_too_long = None.
Proof.
  split; [reflexivity|].
  change (str_of_int (10 ^ max_str_digits) = None).
  apply str_of_int_too_long.
  rewrite Z.abs_eq by (apply Z.pow_nonneg; lia). apply Z.le_refl.
Qed.

Lemma index_head {A : Type} (a : A) (l : list A) : index (a :: l) 0 = Some a.
Proof.
  unfold index.
  replace ((0 <=? 0)%Z && (0 <? Z.of_nat (List.length (a :: l)))%Z) with true.
  - reflexivity.
  - symmetry. apply andb_true_intro. split.
    + reflexivity.
    + apply Z.ltb_lt. simpl List.length. lia.
Qed.

Lemma index_second {A : Type} (a b : A) (l : list A) :
  index (a :: b :: l) 1 = Some b.
Proof.
  unfold index.
  replace ((0 <=? 1)%Z && (1 <? Z.of_nat (List.length (a :: b :: l)))%Z) with true.
  - reflexivity.
  - symmetry. apply andb_true_intro. split.
    + reflexivity.
    + apply Z.ltb_lt. simpl List.length. lia.
Qed.

Lemma index_last {A : Type} (l : list A) (a : A) :
  index (l ++ [a])%list (-1) = Some a.
Proof.
  unfold index. rewrite length_app. simpl List.length.
  replace ((0 <=? -1)%Z && (-1 <? Z.of_nat (List.length l + 1))%Z) with false by reflexivity.
  replace ((-1 <? 0)%Z && (- Z.of_nat (List.length l + 1) <=? -1)%Z) with true.
  - replace (Z.to_nat (Z.of_nat (List.length l + 1) + -1)) with (List.length l) by lia.
    rewrite nth_error_app2 by lia. rewrite Nat.sub_diag. reflexivity.
  - symmetry. apply andb_true_intro. split.
    + reflexivity.
    + apply Z.leb_le. lia.
Qed.

Lemma index_last_total {A : Type} (l : list A) :
  l <> [] -> exists a, index l (-1) = Some a.
Proof.
  intros H. destruct (exists_last H) as (l' & a & ->).
  exists a. apply index_last.
Qed.

Lemma mapM_total {A B : Type} (f : A -> option B) (l : list A) :
  (forall a, exists b, f a = Some b) ->
  exists bs, mapM f l = Some bs /\ List.length bs = List.length l.
Proof.
  intros Hf. induction l as [|a t IH].
  - exists []. split; reflexivity.
  - destruct (Hf a) as [b Hb]. destruct IH as (bs & Hbs & Hlen).
    exists (b :: bs). simpl. rewrite Hb. simpl. rewrite Hbs. simpl.
    split; [reflexivity | now rewrite Hlen].
Qed.

Lemma last_char_append (a s : string) (c : ascii) :
  last_char s = Some c -> last_char (a ++ s) = Some c.
Proof.
  intros H. induction a as [|x a IH]; simpl.
  - exact H.
  - destruct (a ++ s) eqn:E.
    + simpl in IH. discriminate.
    + exact IH.
Qed.

Lemma parenthesized_wrap (s : string) : parenthesized ("(" ++ s ++ ")") = true.
Proof.
  unfold parenthesized.
  assert (H : last_char ("(" ++ s ++ ")") = Some ")"%char)
    by (apply last_char_append; apply last_char_append; reflexivity).
  rewrite H. reflexivity.
Qed.

(** *** Author names never raise *)

Lemma initial_form_total (last first : string) :
  exists s, initial_form last first = Some s.
Proof.
  unfold initial_form. destruct (len first =? 1)%Z eqn:E.
  - destruct first as [|c [|c' t]].
    + discriminate.
    + eexists. reflexivity.
    + apply Z.eqb_eq in E. unfold len in E. simpl in E. lia.
  - eexists. reflexivity.
Qed.

Lemma format_author_name_total (name : string) (for_citation : bool) :
  exists s, _format_author_name name for_citation = Some s.
Proof.
  assert (FL : exists s,
    (let parts := split_ws name in
     if (2 <=? List.length parts)%nat
     then last <- index parts (-1) ;;
          let first := join " " (slice parts None (Some (-1)%Z)) in
          if for_citation then initial_form last first
          else initial_form last first
     else Some name) = Some s).
  { cbv zeta. destruct (2 <=? List.length (split_ws name))%nat eqn:E.
    - destruct (index_last_total (split_ws name)) as [a Ha].
      + intros Hnil. rewrite Hnil in E. discriminate.
      + rewrite Ha. simpl. destruct for_citation; apply initial_form_total.
    - eexists. reflexivity. }
  unfold _format_author_name. cbv zeta in *.
  destruct (contains "," name); [|exact FL].
  destruct (map strip (split_char "," name)) as [|p0 [|p1 r]] eqn:E; try exact FL.
  simpl List.length. simpl Nat.leb.
  rewrite index_head. simpl bind. rewrite index_second. simpl bind.
  destruct for_citation; apply initial_form_total.
Qed.

(** *** In-text citations *)

Lemma parenthesized_open (s : string) :
  last_char s = Some ")"%char -> parenthesized ("(" ++ s) = true.
Proof.
  intros H. unfold parenthesized.
  rewrite (last_char_append "(" s ")"%char H). reflexivity.
Qed.

Lemma last_char_cons (x : ascii) (s : string) (c : ascii) :
  last_char s = Some c -> last_char (String x s) = Some c.
Proof. apply (last_char_append (String x EmptyString)). Qed.

Ltac ends_with_paren :=
  repeat first [ reflexivity | apply last_char_append | apply last_char_cons ].

Ltac paren_shape :=
  split; [reflexivity | apply parenthesized_open; ends_with_paren].

(** [str] only refuses an integer, and never one that is false. *)
Lemma str_falsy (v : pyobj) : truthy v = false -> exists s, str v = Some s.
Proof.
  destruct v as [|z|s]; simpl; intros H.
  - eexists. reflexivity.
  - apply negb_false_iff, Z.eqb_eq in H. subst z. eexists. reflexivity.
  - eexists. reflexivity.
Qed.

Lemma append_assoc (a b c : string) : (a ++ b) ++ c = a ++ b ++ c.
Proof. induction a as [|x a IH]; simpl; [reflexivity | now rewrite IH]. Qed.

(** With authors the citation is the authors, a comma and the year (or
    n.d.) between parentheses, and it raises when [str] refuses the
    year. *)
Lemma citation_with_authors (ref : ParsedReference) :
  nonnil (lget (f_authors ref)) = true ->
  exists a,
    generate_citation ref
    = (y <- year_or_nd (iget (f_year ref) PyNone) ;;
       Some ("(" ++ a ++ ", " ++ y ++ ")")).
Proof.
  intros Hnn. unfold generate_citation, year_or_nd. cbv zeta.
  destruct (lget (f_authors ref)) as [|a0 rest]; [discriminate|].
  simpl nonnil. simpl negb. rewrite !andb_false_l. cbv iota.
  set (year := iget (f_year ref) PyNone).
  destruct (format_author_name_total a0 true) as [n0 H0].
  destruct (List.length (a0 :: rest) =? 1)%nat eqn:E1.
  { rewrite index_head. cbn [bind]. rewrite H0. cbn [bind].
    exists n0. destruct (truthy year); reflexivity. }
  destruct (List.length (a0 :: rest) =? 2)%nat eqn:E2.
  { destruct rest as [|a1 [|a2 rest]]; try discriminate.
    destruct (format_author_name_total a1 true) as [n1 H1].
    rewrite index_head. cbn [bind]. rewrite H0. cbn [bind].
    rewrite ?index_second. cbn [bind]. rewrite H1. cbn [bind].
    exists (n0 ++ " & " ++ n1).
    destruct (truthy year); [destruct (str year)|]; cbn [bind];
      rewrite ?append_assoc; reflexivity. }
  destruct (List.length (a0 :: rest) <=? 5)%nat eqn:E5.
  { destruct (mapM_total (fun a => _format_author_name a true) (a0 :: rest))
      as (fs & Hfs & Hlen); [intros a; apply format_author_name_total|].
    rewrite Hfs. cbn [bind].
    destruct (index_last_total fs) as [l Hl].
    { intros ->. discriminate. }
    rewrite Hl. cbn [bind].
    eexists. destruct (truthy year); reflexivity. }
  rewrite index_head. cbn [bind]. rewrite H0. cbn [bind].
  exists (n0 ++ " et al.").
  destruct (truthy year); [destruct (str year)|]; cbn [bind];
    rewrite ?append_assoc; reflexivity.
Qed.

(** With authors and without a year the year slot holds "n.d.". *)
Lemma citation_with_authors_no_year (ref : ParsedReference) :
  nonnil (lget (f_authors ref)) = true ->
  truthy (iget (f_year ref) PyNone) = false ->
  exists a, generate_citation ref = Some ("(" ++ a ++ ", " ++ "n.d." ++ ")").
Proof.
  intros Hnn Hy. destruct (citation_with_authors ref Hnn) as [a Ha].
  exists a. rewrite Ha. unfold year_or_nd. now rewrite Hy.
Qed.

(** [generate_citation] raises exactly when [str] refuses the year. *)
Lemma generate_citation_raises (ref : ParsedReference) :
  year_text ref = None -> generate_citation ref = None.
Proof.
  unfold year_text. intros H.
  assert (Ht : truthy (iget (f_year ref) PyNone) = true).
  { destruct (truthy (iget (f_year ref) PyNone)) eqn:E; [reflexivity|].
    destruct (str_falsy _ E) as [s Hs]. congruence. }
  destruct (nonnil (lget (f_authors ref))) eqn:EA.
  - destruct (citation_with_authors ref EA) as [a ->].
    unfold year_or_nd. now rewrite Ht, H.
  - unfold generate_citation. cbv zeta. rewrite EA, Ht, H.
    simpl negb. rewrite andb_false_r. cbv iota.
    destruct (truthy (sget (f_citation_key ref) (PyStr EmptyString))); reflexivity.
Qed.

(** C3 (as amended). [generate_citation] raises when the year is an
    integer that [str] refuses, one of more than 4300 digits, and only
    then; otherwise it returns a non-empty string.  With no authors and no
    year (absent, [None] or 0) the string is the citation key as it stands
    when the key is a non-empty string, and "(n.d.)" otherwise; in every
    other case the string begins with "(" and ends with ")". *)
Theorem generate_citation_shape (ref : ParsedReference) :
  match year_text ref with
  | None => generate_citation ref = None
  | Some _ =>
      exists s,
        generate_citation ref = Some s
        /\ nonempty s = true
        /\ (if negb (nonnil (lget (f_authors ref)))
               && negb (truthy (iget (f_year ref) PyNone))
            then s = (if truthy (sget (f_citation_key ref) (PyStr EmptyString))
                      then fmt (sget (f_citation_key ref) (PyStr EmptyString))
                      else "(n.d.)")
            else parenthesized s = true)
  end.
Proof.
  destruct (year_text ref) as [y|] eqn:EY; [|now apply generate_citation_raises].
  unfold year_text in EY.
  destruct (nonnil (lget (f_authors ref))) eqn:EA.
  - destruct (citation_with_authors ref EA) as [a Ha].
    assert (Hy : exists y', year_or_nd (iget (f_year ref) PyNone) = Some y').
    { unfold year_or_nd. destruct (truthy _); eauto. }
    destruct Hy as [y' Hy]. rewrite Hy in Ha. cbn [bind] in Ha.
    eexists. split; [exact Ha|]. simpl negb. rewrite andb_false_l. paren_shape.
  - unfold generate_citation. cbv zeta. rewrite EA, EY.
    simpl negb. rewrite !andb_true_l.
    destruct (truthy (iget (f_year ref) PyNone)) eqn:ET; simpl negb; cbv iota.
    + destruct (truthy (sget (f_citation_key ref) (PyStr EmptyString)));
        cbn [bind]; eexists; (split; [reflexivity|]); paren_shape.
    + eexists. split; [reflexivity|]. split; [|reflexivity].
      destruct (f_citation_key ref) as [| |k]; try reflexivity.
      destruct k; reflexivity.
Qed.

(** C3, the claim as stated fails: with no authors, no year and the key
    "Test2020" the citation is the bare key, which is not parenthesized. *)
Lemma generate_citation_bare_key :
  generate_citation (set_citation_key (Val "Test2020") empty_ref) = Some "Test2020"
  /\ parenthesized "Test2020" = false.
Proof. split; reflexivity. Qed.

(** And the citation raises for a year of 4301 digits, 10^4300. *)
Example citation_year_too_long :
  year_text book_year_too_long = None
  /\ generate_citation book_year_too_long = None.
Proof.
  split; [apply year_too_long|].
  apply generate_citation_raises, year_too_long.
Qed.

(** C4. At the boundary between five and six authors: with exactly five
    authors the citation lists the five formatted names, joined by ", "
    with ", & " before the last; with exactly six it is the formatted first
    author followed by " et al.".  The year slot holds the year as [str]
    gives it, or n.d.; the citation raises when [str] refuses the year. *)
Theorem citation_author_boundary (ref : ParsedReference) :
  (forall a1 a2 a3 a4 a5,
      f_authors ref = Some [a1; a2; a3; a4; a5] ->
      exists n1 n2 n3 n4 n5,
        _format_author_name a1 true = Some n1
        /\ _format_author_name a2 true = Some n2
        /\ _format_author_name a3 true = Some n3
        /\ _format_author_name a4 true = Some n4
        /\ _format_author_name a5 true = Some n5
        /\ generate_citation ref
           = (year <- year_or_nd (iget (f_year ref) PyNone) ;;
              Some ("(" ++ (join ", " [n1; n2; n3; n4] ++ ", & " ++ n5) ++ ", "
                        ++ year ++ ")")))
  /\ (forall a1 a2 a3 a4 a5 a6,
         f_authors ref = Some [a1; a2; a3; a4; a5; a6] ->
         exists n1,
           _format_author_name a1 true = Some n1
           /\ generate_citation ref
              = (year <- year_or_nd (iget (f_year ref) PyNone) ;;
                 Some ("(" ++ n1 ++ " et al., " ++ year ++ ")"))).
Proof.
  split.
  - intros a1 a2 a3 a4 a5 H.
    destruct (format_author_name_total a1 true) as [n1 H1].
    destruct (format_author_name_total a2 true) as [n2 H2].
    destruct (format_author_name_total a3 true) as [n3 H3].
    destruct (format_author_name_total a4 true) as [n4 H4].
    destruct (format_author_name_total a5 true) as [n5 H5].
    exists n1, n2, n3, n4, n5. repeat (split; [assumption|]).
    unfold generate_citation. rewrite H. simpl lget. cbv zeta.
    simpl nonnil. simpl negb. rewrite !andb_false_l. cbv iota.
    simpl List.length. simpl Nat.eqb. simpl Nat.leb. cbv iota.
    simpl mapM. rewrite H1, H2, H3, H4, H5. simpl bind.
    change (index [n1; n2; n3; n4; n5] (-1)) with (Some n5). simpl bind.
    change (slice [n1; n2; n3; n4; n5] None (Some (-1)%Z)) with [n1; n2; n3; n4].
    unfold year_or_nd.
    destruct (truthy (iget (f_year ref) PyNone)); reflexivity.
  - intros a1 a2 a3 a4 a5 a6 H.
    destruct (format_author_name_total a1 true) as [n1 H1].
    exists n1. split; [assumption|].
    unfold generate_citation. rewrite H. simpl lget. cbv zeta.
    simpl nonnil. simpl negb. rewrite !andb_false_l. cbv iota.
    simpl List.length. simpl Nat.eqb. simpl Nat.leb. cbv iota.
    rewrite index_head. simpl bind. rewrite H1. simpl bind.
    unfold year_or_nd. destruct (truthy (iget (f_year ref) PyNone)); reflexivity.
Qed.

Lemma citation_author_boundary_witness :
  (exists n1 n2 n3 n4 n5,
      _format_author_name "Smith, J." true = Some n1
      /\ _format_author_name "Jones, M." true = Some n2
      /\ _format_author_name "Brown, K." true = Some n3
      /\ _format_author_name "White, L." true = Some n4
      /\ _format_author_name "Green, P." true = Some n5
      /\ generate_citation
           (ref_with ["Smith, J."; "Jones, M."; "Brown, K."; "White, L."; "Green, P."]
                     (Val 2020%Z))
         = Some ("(" ++ (join ", " [n1; n2; n3; n4] ++ ", & " ++ n5) ++ ", "
                     ++ "2020" ++ ")"))
  /\ (exists n1,
         _format_author_name "Smith, J." true = Some n1
         /\ generate_citation
              (ref_with ["Smith, J."; "Jones, M."; "Brown, K."; "White, L.";
                         "Green, P."; "Blue, Q."] (Val 2020%Z))
            = Some ("(" ++ n1 ++ " et al., " ++ "2020" ++ ")")).
Proof.
  split.
  - apply (proj1 (citation_author_boundary
             (ref_with ["Smith, J."; "Jones, M."; "Brown, K."; "White, L."; "Green, P."]
                       (Val 2020%Z)))).
    reflexivity.
  - apply (proj2 (citation_author_boundary
             (ref_with ["Smith, J."; "Jones, M."; "Brown, K."; "White, L.";
                        "Green, P."; "Blue, Q."] (Val 2020%Z)))
             "Smith, J." "Jones, M." "Brown, K." "White, L." "Green, P." "Blue, Q.").
    reflexivity.
Defined.

(** *** Reference-list entries *)

Lemma format_author_list_total (authors : list string) (is_editor : bool) :
  exists s, _format_author_list authors is_editor = Some s.
Proof.
  unfold _format_author_list.
  destruct authors as [|a0 rest]; [eexists; reflexivity|].
  simpl nonnil. simpl negb. cbv iota.
  destruct (List.length (a0 :: rest) =? 1)%nat.
  { rewrite index_head. simpl bind. apply format_author_name_total. }
  destruct (List.length (a0 :: rest) <=? 7)%nat.
  - destruct (mapM_total (fun a => _format_author_name a false) (a0 :: rest))
      as (fs & Hfs & Hlen); [intros a; apply format_author_name_total|].
    rewrite Hfs. simpl bind.
    destruct (List.length fs =? 2)%nat eqn:E2.
    + destruct fs as [|x0 [|x1 fs]]; try discriminate.
      rewrite index_head. simpl bind. rewrite index_second. eexists. reflexivity.
    + destruct (index_last_total fs) as [l Hl]; [intros ->; discriminate|].
      rewrite Hl. eexists. reflexivity.
  - destruct (mapM_total (fun a => _format_author_name a false)
                (slice (a0 :: rest) None (Some 6%Z)))
      as (fs & Hfs & _); [intros a; apply format_author_name_total|].
    rewrite Hfs. eexists. reflexivity.
Qed.

Lemma generate_reference_parts (now : string) (ref : ParsedReference) :
  generate_reference now ref
  = (parts <- reference_parts now ref ;; Some (join " " parts)).
Proof.
  unfold generate_reference, reference_parts.
  repeat match goal with |- context [if ?c then _ else _] => destruct c end;
    reflexivity.
Qed.

(** The year of an entry is [ref.get("year", "n.d.")]; [str] refuses it
    when it refuses [ref.get("year")], and then the year is true and is
    not the string n.d.. *)
Lemma year_default_some (ref : ParsedReference) (y : string) :
  year_text ref = Some y ->
  exists y', str (iget (f_year ref) (PyStr "n.d.")) = Some y'.
Proof.
  unfold year_text. destruct (f_year ref); simpl; eauto.
Qed.

Lemma year_default_none (ref : ParsedReference) :
  year_text ref = None ->
  str (iget (f_year ref) (PyStr "n.d.")) = None
  /\ truthy (iget (f_year ref) (PyStr "n.d.")) = true
  /\ pyobj_eqb (iget (f_year ref) (PyStr "n.d.")) (PyStr "n.d.") = false.
Proof.
  unfold year_text. destruct (f_year ref) as [| |z]; simpl; try discriminate.
  intros H. repeat split; [exact H|].
  destruct (z =? 0)%Z eqn:E; [|reflexivity].
  apply Z.eqb_eq in E. subst z. discriminate.
Qed.

Lemma append_year_some (year : pyobj) (y : string) (parts : list string) :
  str year = Some y ->
  append_year year parts = Some (append_if (truthy year) ("(" ++ y ++ ").") parts).
Proof.
  intros H. unfold append_year, append_if. rewrite H. now destruct (truthy year).
Qed.

(** An entry raises when [str] refuses its year. *)
Lemma reference_parts_raises (now : string) (ref : ParsedReference) :
  year_text ref = None -> reference_parts now ref = None.
Proof.
  intros H. destruct (year_default_none ref H) as (Hs & Ht & Hn).
  destruct (format_author_list_total (lget (f_authors ref)) false) as [a Ha].
  destruct (format_author_list_total (lget (f_editors ref)) true) as [e He].
  unfold reference_parts, _book_parts, _article_parts, _web_parts,
    _chapter_parts, _generic_parts, append_year.
  cbv zeta. rewrite Ha, He, Hs, Ht, Hn. cbn [bind negb andb].
  destruct (String.eqb (ref_type_of ref) "book"); [reflexivity|].
  destruct (String.eqb (ref_type_of ref) "article"); [reflexivity|].
  destruct (String.eqb (ref_type_of ref) "web" || String.eqb (ref_type_of ref) "website").
  { destruct (nonnil (lget (f_authors ref))); [reflexivity|].
    destruct (truthy (sget (f_site_name ref) _)); reflexivity. }
  destruct (String.eqb (ref_type_of ref) "chapter"); reflexivity.
Qed.

(** It returns otherwise. *)
Lemma reference_parts_total (now : string) (ref : ParsedReference) (y : string) :
  year_text ref = Some y ->
  exists parts, reference_parts now ref = Some parts.
Proof.
  intros H. destruct (year_default_some ref y H) as [y' Hy].
  destruct (format_author_list_total (lget (f_authors ref)) false) as [a Ha].
  destruct (format_author_list_total (lget (f_editors ref)) true) as [e He].
  unfold reference_parts, _book_parts, _article_parts, _web_parts,
    _chapter_parts, _generic_parts.
  cbv zeta. rewrite Ha, He. cbn [bind].
  rewrite (append_year_some _ y' _ Hy). cbn [bind].
  destruct (String.eqb (ref_type_of ref) "book"); [eexists; reflexivity|].
  destruct (String.eqb (ref_type_of ref) "article"); [eexists; reflexivity|].
  destruct (String.eqb (ref_type_of ref) "web" || String.eqb (ref_type_of ref) "website").
  { destruct (nonnil (lget (f_authors ref)));
      [|destruct (truthy (sget (f_site_name ref) _))];
      cbn [bind]; rewrite Hy; cbn [bind];
      destruct (_ && _);
      try destruct (truthy (sget (f_retrieved_date ref) _));
      eexists; reflexivity. }
  destruct (String.eqb (ref_type_of ref) "chapter"); eexists; reflexivity.
Qed.

Lemma generate_reference_raises (now : string) (ref : ParsedReference) :
  year_text ref = None -> generate_reference now ref = None.
Proof.
  intros H. rewrite generate_reference_parts.
  now rewrite (reference_parts_raises now ref H).
Qed.

Lemma generate_reference_total (now : string) (ref : ParsedReference) (y : string) :
  year_text ref = Some y ->
  exists s, generate_reference now ref = Some s.
Proof.
  intros H. rewrite generate_reference_parts.
  destruct (reference_parts_total now ref y H) as [parts ->].
  eexists. reflexivity.
Qed.

(** [generate_reference] raises exactly when [str] refuses the year. *)
Lemma generate_reference_none (now : string) (ref : ParsedReference) :
  generate_reference now ref = None <-> year_text ref = None.
Proof.
  split.
  - intros H. destruct (year_text ref) as [y|] eqn:E; [|reflexivity].
    destruct (generate_reference_total now ref y E) as [s Hs]. congruence.
  - apply generate_reference_raises.
Qed.

Ltac split_ifs :=
  repeat match goal with
         | |- context [if ?c then _ else _] => destruct c
         end.

(** The author list, when there is one, is the first part of the entry
    whatever the type. *)
Lemma reference_parts_head (now : string) (ref : ParsedReference)
    (author_str y : string) :
  year_text ref = Some y ->
  nonnil (lget (f_authors ref)) = true ->
  _format_author_list (lget (f_authors ref)) false = Some author_str ->
  nonempty author_str = true ->
  exists rest, reference_parts now ref = Some (author_str :: rest).
Proof.
  intros Hyt Hnn Ha Hne. destruct (year_default_some ref y Hyt) as [y' Hy].
  destruct (format_author_list_total (lget (f_editors ref)) true) as [e He].
  unfold reference_parts, _book_parts, _article_parts, _web_parts,
    _chapter_parts, _generic_parts.
  cbv zeta. rewrite Hnn, Ha, He. cbn [bind].
  rewrite (append_year_some _ y' _ Hy), Hy. cbn [bind]. rewrite Hne.
  unfold append_if, append.
  split_ifs; cbn [bind]; eexists; reflexivity.
Qed.

(** C5. At the boundary between seven and eight authors: with exactly
    seven authors the entry begins with the seven formatted names, joined
    by ", " with ", & " before the last; with exactly eight it begins with
    the first six formatted names joined by ", " and followed by
    " et al.".  (The entry raises when [str] refuses the year, as every
    entry does.) *)
Theorem reference_author_boundary (now : string) (ref : ParsedReference) :
  (forall a1 a2 a3 a4 a5 a6 a7,
      f_authors ref = Some [a1; a2; a3; a4; a5; a6; a7] ->
      exists n1 n2 n3 n4 n5 n6 n7,
        mapM (fun a => _format_author_name a false) [a1; a2; a3; a4; a5; a6; a7]
          = Some [n1; n2; n3; n4; n5; n6; n7]
        /\ _format_author_list [a1; a2; a3; a4; a5; a6; a7] false
           = Some (join ", " [n1; n2; n3; n4; n5; n6] ++ ", & " ++ n7)
        /\ match year_text ref with
           | Some _ =>
               exists rest,
                 generate_reference now ref
                 = Some (join " " ((join ", " [n1; n2; n3; n4; n5; n6] ++ ", & " ++ n7)
                                     :: rest))
           | None => generate_reference now ref = None
           end)
  /\ (forall a1 a2 a3 a4 a5 a6 a7 a8,
         f_authors ref = Some [a1; a2; a3; a4; a5; a6; a7; a8] ->
         exists n1 n2 n3 n4 n5 n6,
           mapM (fun a => _format_author_name a false) [a1; a2; a3; a4; a5; a6]
             = Some [n1; n2; n3; n4; n5; n6]
           /\ _format_author_list [a1; a2; a3; a4; a5; a6; a7; a8] false
              = Some (join ", " [n1; n2; n3; n4; n5; n6] ++ " et al.")
           /\ match year_text ref with
              | Some _ =>
                  exists rest,
                    generate_reference now ref
                    = Some (join " " ((join ", " [n1; n2; n3; n4; n5; n6] ++ " et al.")
                                        :: rest))
              | None => generate_reference now ref = None
              end).
Proof.
  split.
  - intros a1 a2 a3 a4 a5 a6 a7 H.
    destruct (format_author_name_total a1 false) as [n1 H1].
    destruct (format_author_name_total a2 false) as [n2 H2].
    destruct (format_author_name_total a3 false) as [n3 H3].
    destruct (format_author_name_total a4 false) as [n4 H4].
    destruct (format_author_name_total a5 false) as [n5 H5].
    destruct (format_author_name_total a6 false) as [n6 H6].
    destruct (format_author_name_total a7 false) as [n7 H7].
    assert (HM : mapM (fun a => _format_author_name a false)
                   [a1; a2; a3; a4; a5; a6; a7] = Some [n1; n2; n3; n4; n5; n6; n7]).
    { simpl. rewrite H1, H2, H3, H4, H5, H6, H7. reflexivity. }
    assert (HL : _format_author_list [a1; a2; a3; a4; a5; a6; a7] false
                 = Some (join ", " [n1; n2; n3; n4; n5; n6] ++ ", & " ++ n7)).
    { unfold _format_author_list. rewrite HM. reflexivity. }
    exists n1, n2, n3, n4, n5, n6, n7. split; [exact HM|]. split; [exact HL|].
    destruct (year_text ref) as [y|] eqn:EY;
      [|now apply generate_reference_raises].
    destruct (reference_parts_head now ref
                (join ", " [n1; n2; n3; n4; n5; n6] ++ ", & " ++ n7) y EY)
      as [rest Hrest].
    + rewrite H. reflexivity.
    + rewrite H. exact HL.
    + destruct n1; reflexivity.
    + exists rest. rewrite generate_reference_parts, Hrest. reflexivity.
  - intros a1 a2 a3 a4 a5 a6 a7 a8 H.
    destruct (format_author_name_total a1 false) as [n1 H1].
    destruct (format_author_name_total a2 false) as [n2 H2].
    destruct (format_author_name_total a3 false) as [n3 H3].
    destruct (format_author_name_total a4 false) as [n4 H4].
    destruct (format_author_name_total a5 false) as [n5 H5].
    destruct (format_author_name_total a6 false) as [n6 H6].
    assert (HM : mapM (fun a => _format_author_name a false)
                   [a1; a2; a3; a4; a5; a6] = Some [n1; n2; n3; n4; n5; n6]).
    { simpl. rewrite H1, H2, H3, H4, H5, H6. reflexivity. }
    assert (HL : _format_author_list [a1; a2; a3; a4; a5; a6; a7; a8] false
                 = Some (join ", " [n1; n2; n3; n4; n5; n6] ++ " et al.")).
    { unfold _format_author_list.
      change (slice [a1; a2; a3; a4; a5; a6; a7; a8] None (Some 6%Z))
        with [a1; a2; a3; a4; a5; a6].
      rewrite HM. reflexivity. }
    exists n1, n2, n3, n4, n5, n6. split; [exact HM|]. split; [exact HL|].
    destruct (year_text ref) as [y|] eqn:EY;
      [|now apply generate_reference_raises].
    destruct (reference_parts_head now ref
                (join ", " [n1; n2; n3; n4; n5; n6] ++ " et al.") y EY)
      as [rest Hrest].
    + rewrite H. reflexivity.
    + rewrite H. exact HL.
    + destruct n1; reflexivity.
    + exists rest. rewrite generate_reference_parts, Hrest. reflexivity.
Qed.

Lemma reference_author_boundary_witness :
  (exists n1 n2 n3 n4 n5 n6 n7,
      mapM (fun a => _format_author_name a false) seven_authors
        = Some [n1; n2; n3; n4; n5; n6; n7]
      /\ _format_author_list seven_authors false
         = Some (join ", " [n1; n2; n3; n4; n5; n6] ++ ", & " ++ n7)
      /\ exists rest,
           generate_reference "November 04, 2026" (ref_with seven_authors (Val 2020%Z))
           = Some (join " " ((join ", " [n1; n2; n3; n4; n5; n6] ++ ", & " ++ n7)
                               :: rest)))
  /\ (exists n1 n2 n3 n4 n5 n6,
         mapM (fun a => _format_author_name a false)
              ["Smith, J."; "Jones, M."; "Brown, K."; "White, L."; "Green, P."; "Blue, Q."]
           = Some [n1; n2; n3; n4; n5; n6]
         /\ _format_author_list eight_authors false
            = Some (join ", " [n1; n2; n3; n4; n5; n6] ++ " et al.")
         /\ exists rest,
              generate_reference "November 04, 2026" (ref_with eight_authors (Val 2020%Z))
              = Some (join " " ((join ", " [n1; n2; n3; n4; n5; n6] ++ " et al.")
                                  :: rest))).
Proof.
  split.
  - apply (proj1 (reference_author_boundary "November 04, 2026"
                    (ref_with seven_authors (Val 2020%Z)))).
    reflexivity.
  - apply (proj2 (reference_author_boundary "November 04, 2026"
                    (ref_with eight_authors (Val 2020%Z)))
             "Smith, J." "Jones, M." "Brown, K." "White, L." "Green, P." "Blue, Q."
             "Grey, R." "Black, S.").
    reflexivity.
Defined.

(** *** The year segment *)

Lemma reference_parts_undated (now : string) (ref : ParsedReference) :
  f_year ref = Missing ->
  is_web ref = false ->
  exists author_str rest,
    _format_author_list (lget (f_authors ref)) false = Some author_str
    /\ reference_parts now ref
       = Some ((if nonempty author_str then [author_str] else [])
                 ++ "(n.d.)." :: rest)%list.
Proof.
  intros Hy Hw. unfold is_web in Hw.
  destruct (format_author_list_total (lget (f_authors ref)) false) as [a Ha].
  destruct (format_author_list_total (lget (f_editors ref)) true) as [e He].
  exists a.
  unfold reference_parts, _book_parts, _article_parts, _chapter_parts, _generic_parts.
  cbv zeta. rewrite Hw, Hy, Ha, He. simpl bind. simpl iget. simpl truthy.
  unfold append_if, append.
  destruct (nonempty a); split_ifs; eexists; (split; [reflexivity|]);
    simpl; reflexivity.
Qed.

(** X20. A reference whose dictionary has no year key renders n.d..
    [generate_citation], also when the key is there with the value [None]:
    with authors it puts "n.d." in the year slot; with neither authors nor
    a citation key it returns "(n.d.)"; with no authors and a citation key
    it returns the key alone.  [generate_reference], for a type other than
    web and website: the segment that follows the author part is
    "(n.d.).". *)
Theorem year_key_missing_rendering (now : string) (ref : ParsedReference) :
  (f_year ref = Missing \/ f_year ref = Null ->
   (nonnil (lget (f_authors ref)) = true ->
    exists a, generate_citation ref = Some ("(" ++ a ++ ", " ++ "n.d." ++ ")"))
   /\ (nonnil (lget (f_authors ref)) = false ->
       truthy (sget (f_citation_key ref) (PyStr EmptyString)) = false ->
       generate_citation ref = Some "(n.d.)")
   /\ (nonnil (lget (f_authors ref)) = false ->
       truthy (sget (f_citation_key ref) (PyStr EmptyString)) = true ->
       generate_citation ref
       = Some (fmt (sget (f_citation_key ref) (PyStr EmptyString)))))
  /\ (f_year ref = Missing ->
      is_web ref = false ->
      exists author_str rest,
        _format_author_list (lget (f_authors ref)) false = Some author_str
        /\ generate_reference now ref
           = Some (join " " ((if nonempty author_str then [author_str] else [])
                               ++ "(n.d.)." :: rest)%list)).
Proof.
  split.
  - intros Hy.
    assert (HY : truthy (iget (f_year ref) PyNone) = false)
      by (destruct Hy as [-> | ->]; reflexivity).
    split; [|split].
    + intros Hnn. now apply citation_with_authors_no_year.
    + intros Hnn Hk. unfold generate_citation. cbv zeta.
      rewrite Hnn, HY, Hk. reflexivity.
    + intros Hnn Hk. unfold generate_citation. cbv zeta.
      rewrite Hnn, HY, Hk. reflexivity.
  - intros Hy Hw.
    destruct (reference_parts_undated now ref Hy Hw) as (a & rest & Ha & Hp).
    exists a, rest. split; [exact Ha|].
    rewrite generate_reference_parts, Hp. reflexivity.
Qed.

Lemma year_key_missing_rendering_witness :
  (exists a, generate_citation book_undated = Some ("(" ++ a ++ ", " ++ "n.d." ++ ")"))
  /\ generate_citation empty_ref = Some "(n.d.)"
  /\ generate_citation (set_citation_key (Val "Test2020") empty_ref) = Some "Test2020"
  /\ (exists author_str rest,
         _format_author_list (lget (f_authors book_undated)) false = Some author_str
         /\ generate_reference "November 04, 2026" book_undated
            = Some (join " " ((if nonempty author_str then [author_str] else [])
                                ++ "(n.d.)." :: rest)%list)).
Proof.
  split; [|split; [|split]].
  - apply (proj1 (year_key_missing_rendering "November 04, 2026" book_undated));
      [left|]; reflexivity.
  - apply (proj1 (year_key_missing_rendering "November 04, 2026" empty_ref));
      [left| |]; reflexivity.
  - apply (proj1 (year_key_missing_rendering "November 04, 2026"
                    (set_citation_key (Val "Test2020") empty_ref)));
      [left| |]; reflexivity.
  - apply (proj2 (year_key_missing_rendering "November 04, 2026" book_undated));
      reflexivity.
Defined.

Example book_undated_entry :
  generate_reference "November 04, 2026" book_undated
  = Some "Smith, J. (n.d.). Book Title.".
Proof. reflexivity. Qed.

(** C8. The claim holds of the citation and fails of the entry: for a
    book, and for a reference of an unknown type, whose dictionary holds
    the key [year] with the value [None], as [parse_reference_text] and
    [ParsedReference.dict()] give it, the entry has no year segment at
    all.  [ref.get("year", "n.d.")] falls back to n.d. only when the key
    is missing, as the last entry shows. *)
Lemma year_none_has_no_nd :
  f_year book_year_none = Null
  /\ generate_citation book_year_none = Some "(Smith, J., n.d.)"
  /\ generate_reference "November 04, 2026" book_year_none
     = Some "Smith, J. Book Title."
  /\ generate_reference "November 04, 2026" (set_type "report" book_year_none)
     = Some "Smith, J. Book Title."
  /\ contains "n.d." "Smith, J. Book Title." = false
  /\ generate_reference "November 04, 2026" book_undated
     = Some "Smith, J. (n.d.). Book Title.".
Proof. repeat split; reflexivity. Qed.

(** A web page whose dictionary has no year gets the retrieval date, not
    "(n.d.).", as its year segment. *)
Example web_undated_has_no_nd :
  f_year web_page = Missing
  /\ generate_reference "November 04, 2026" web_page
     = Some "(November 04, 2026). https://example.com/article"
  /\ contains "(n.d.)." "(November 04, 2026). https://example.com/article" = false.
Proof. repeat split; reflexivity. Qed.

(** *** The current date *)

(** C1 (as amended). [generate_reference] and [generate_reference_list]
    are functions of their arguments and of the current date, and the date
    only matters for an entry of type web or website whose year is not a
    non-zero integer and that has no [retrieved_date] key: for every other
    reference two calls return the same string whatever the date of each
    call.  (The other operations take no date at all.) *)
Theorem generate_reference_clock (now1 now2 : string) :
  (forall ref,
      reads_clock ref = false ->
      generate_reference now1 ref = generate_reference now2 ref)
  /\ (forall references format_output,
         forallb (fun ref => negb (reads_clock ref)) references = true ->
         generate_reference_list now1 references format_output
         = generate_reference_list now2 references format_output).
Proof.
  assert (H1 : forall ref, reads_clock ref = false ->
                 generate_reference now1 ref = generate_reference now2 ref).
  { intros ref H. unfold reads_clock, is_web in H.
    unfold generate_reference, _format_web_reference, _web_parts.
    destruct (String.eqb (ref_type_of ref) "book"); [reflexivity|].
    destruct (String.eqb (ref_type_of ref) "article"); [reflexivity|].
    destruct (String.eqb (ref_type_of ref) "web" || String.eqb (ref_type_of ref) "website");
      [|reflexivity].
    cbv zeta.
    destruct (f_year ref) as [| |z]; destruct (f_retrieved_date ref);
      simpl in H; try discriminate; try reflexivity.
    simpl iget. simpl truthy. simpl pyobj_eqb.
    destruct (z =? 0)%Z; [discriminate | reflexivity]. }
  split; [exact H1|].
  intros references format_output H.
  unfold generate_reference_list. f_equal.
  induction references as [|r t IH]; [reflexivity|].
  cbn [forallb] in H. apply andb_prop in H. destruct H as [Hr Ht].
  cbn [mapM]. rewrite (H1 r) by (now destruct (reads_clock r)).
  now rewrite (IH Ht).
Qed.

Lemma generate_reference_clock_witness :
  generate_reference "November 04, 2026" book_2020
  = generate_reference "November 05, 2026" book_2020
  /\ generate_reference_list "November 04, 2026" [book_2020; book_undated] "html"
     = generate_reference_list "November 05, 2026" [book_2020; book_undated] "html".
Proof.
  split.
  - apply (proj1 (generate_reference_clock "November 04, 2026" "November 05, 2026")).
    reflexivity.
  - apply (proj2 (generate_reference_clock "November 04, 2026" "November 05, 2026")).
    reflexivity.
Defined.

(** C1, the claim as stated fails: the same raw text, parsed and formatted
    on two different days, gives two different entries. *)
Lemma parse_then_format_reads_clock :
  exists p,
    parse_reference_text "https://example.com/article" = Some p
    /\ generate_reference "November 04, 2026" p
       = Some "(November 04, 2026). https://example.com/article"
    /\ generate_reference "November 05, 2026" p
       = Some "(November 05, 2026). https://example.com/article"
    /\ generate_reference "November 04, 2026" p
       <> generate_reference "November 05, 2026" p.
Proof.
  eexists. split; [vm_compute; reflexivity|].
  split; [reflexivity|]. split; [reflexivity|]. discriminate.
Qed.

(** *** The reference list *)

Lemma mapM_wrap {A : Type} (f : A -> option string) (w : string -> string)
    (l : list A) :
  mapM (fun a => x <- f a ;; Some (w x)) l
  = (xs <- mapM f l ;; Some (map w xs)).
Proof.
  induction l as [|a t IH]; [reflexivity|].
  simpl. destruct (f a) as [x|]; [|reflexivity]. simpl.
  rewrite IH. destruct (mapM f t); reflexivity.
Qed.

Lemma mapM_none {A B : Type} (f : A -> option B) (l : list A) :
  mapM f l = None <-> exists a, In a l /\ f a = None.
Proof.
  induction l as [|a t IH]; simpl.
  - split; [discriminate | intros (a & [] & _)].
  - destruct (f a) as [b|] eqn:E; simpl.
    + destruct (mapM f t) as [bs|]; simpl.
      * split; [discriminate|]. intros (x & [<- | Hx] & Hf); [congruence|].
        assert (C : Some bs = None) by (apply IH; eauto). discriminate.
      * split; [|reflexivity]. intros _.
        destruct IH as [IH' _]. destruct (IH' eq_refl) as (x & Hx & Hf).
        exists x. auto.
    + split; [|reflexivity]. intros _. exists a. auto.
Qed.

(** The list raises, whatever the format, when an entry does. *)
Lemma reference_list_none (now : string) (references : list ParsedReference)
    (format_output : string) :
  (exists ref, In ref references /\ year_text ref = None) ->
  generate_reference_list now references format_output = None.
Proof.
  intros (ref & Hin & Hn). unfold generate_reference_list.
  match goal with |- context [mapM ?f references] => set (wrap := f) end.
  assert (E : mapM wrap references = None).
  { apply mapM_none. exists ref. split; [exact Hin|].
    unfold wrap. now rewrite (generate_reference_raises now ref Hn). }
  now rewrite E.
Qed.

(** C9 (as amended). A format that is neither "html" nor "latex" gives
    what the "text" format gives: every entry with one tab before it, the
    entries joined by newlines; and under either format the list raises
    exactly when an entry does, that is when [str] refuses the year of a
    reference, an integer of more than 4300 digits. *)
Theorem reference_list_fallback (now : string) (references : list ParsedReference)
    (format_output : string) :
  format_output <> "html" ->
  format_output <> "latex" ->
  generate_reference_list now references format_output
  = generate_reference_list now references "text"
  /\ generate_reference_list now references "text"
     = (entries <- mapM (generate_reference now) references ;;
        Some (join nl (map (fun e => tab ++ e) entries)))
  /\ (generate_reference_list now references "text" = None
      <-> exists ref, In ref references /\ year_text ref = None).
Proof.
  intros Hh Hl.
  apply String.eqb_neq in Hh. apply String.eqb_neq in Hl.
  assert (E : generate_reference_list now references "text"
              = (entries <- mapM (generate_reference now) references ;;
                 Some (join nl (map (fun e => tab ++ e) entries)))).
  { unfold generate_reference_list. simpl String.eqb. cbv iota.
    rewrite (mapM_wrap (generate_reference now) (fun e => tab ++ e)).
    destruct (mapM (generate_reference now) references); reflexivity. }
  split; [|split; [exact E|]].
  - unfold generate_reference_list. rewrite Hh, Hl. reflexivity.
  - rewrite E. split.
    + intros H.
      destruct (mapM (generate_reference now) references) as [entries|] eqn:EM;
        [discriminate|].
      apply mapM_none in EM. destruct EM as (ref & Hin & Hn).
      exists ref. split; [exact Hin|]. now apply (generate_reference_none now).
    + intros (ref & Hin & Hn).
      assert (EM : mapM (generate_reference now) references = None).
      { apply mapM_none. exists ref. split; [exact Hin|].
        now apply generate_reference_none. }
      now rewrite EM.
Qed.

Lemma reference_list_fallback_witness :
  generate_reference_list "November 04, 2026" [book_2020; book_undated] "bogus"
  = generate_reference_list "November 04, 2026" [book_2020; book_undated] "text"
  /\ generate_reference_list "November 04, 2026" [book_2020; book_undated] "text"
     = (entries <- mapM (generate_reference "November 04, 2026")
                        [book_2020; book_undated] ;;
        Some (join nl (map (fun e => tab ++ e) entries)))
  /\ (generate_reference_list "November 04, 2026" [book_2020; book_undated] "text"
      = None
      <-> exists ref, In ref [book_2020; book_undated] /\ year_text ref = None).
Proof.
  apply (reference_list_fallback "November 04, 2026" [book_2020; book_undated] "bogus");
    discriminate.
Defined.

(** C9, the claim as stated fails: the list raises, under the format
    "bogus" as under "text", when the year of a reference is 1 followed by
    4300 zeros, which [str] refuses. *)
Lemma reference_list_raises :
  generate_reference_list "November 04, 2026" [book_2020; book_year_too_long] "bogus"
  = None
  /\ generate_reference_list "November 04, 2026" [book_2020; book_year_too_long] "text"
     = None.
Proof.
  split; apply reference_list_none; exists book_year_too_long;
    (split; [right; left; reflexivity | apply year_too_long]).
Qed.

Example reference_list_text :
  generate_reference_list "November 04, 2026" [book_2020; book_undated] "bogus"
  = Some (tab ++ "Smith, J. (2020). Book Title." ++ nl
              ++ tab ++ "Smith, J. (n.d.). Book Title.").
Proof. reflexivity. Qed.

(** *** The parser *)

Section Soundness.
Variable P : ascii -> bool.

Lemma extends_refl st : extends P 0 st st.
Proof. exists []. repeat split; auto. Qed.

Lemma extends_trans n m st1 st2 st3 :
  extends P n st1 st2 -> extends P m st2 st3 -> extends P (n + m) st1 st3.
Proof.
  intros (cs & Hb & Ha & Hf & Hn) (ds & Hb' & Ha' & Hf' & Hm).
  exists (cs ++ ds)%list. repeat split.
  - rewrite Hb', Hb, rev_app_distr, app_assoc. reflexivity.
  - rewrite Ha, Ha', app_assoc. reflexivity.
  - apply Forall_app. auto.
  - rewrite length_app. lia.
Qed.

Lemma extends_weaken n m st st' : m <= n -> extends P n st st' -> extends P m st st'.
Proof. intros Hle (cs & Hb & Ha & Hf & Hn). exists cs. repeat split; auto. lia. Qed.

Lemma extends_set_group n g s st st' :
  extends P n st st' -> extends P n st (set_group g s st').
Proof. intros (cs & H). exists cs. exact H. Qed.

Lemma star_loop_sound (body : mstate -> (mstate -> option mstate) -> option mstate) :
  (forall st k x, body st k = Some x -> exists st', extends P 0 st st' /\ k st' = Some x) ->
  forall n st k x,
    star_loop body n st k = Some x -> exists st', extends P 0 st st' /\ k st' = Some x.
Proof.
  intros Hbody. induction n as [|n IH]; intros st k x H; simpl in H.
  - exists st. split; [apply extends_refl | exact H].
  - destruct (body st _) as [r|] eqn:E.
    + injection H as ->.
      apply Hbody in E. destruct E as (st1 & H1 & E1).
      destruct (Nat.ltb _ _); [|discriminate].
      apply IH in E1. destruct E1 as (st2 & H2 & E2).
      exists st2. split; [|exact E2].
      apply (extends_trans 0 0 st st1 st2); assumption.
    + exists st. split; [apply extends_refl | exact H].
Qed.

(** A successful run of [r] ends in a state that extends the start by
    characters of the classes of [r], at least [min_len r] of them, and
    the continuation succeeds from there. *)
Theorem run_sound (r : regex) :
  chars_in P r ->
  forall st k x,
    run r st k = Some x ->
    exists st', extends P (min_len r) st st' /\ k st' = Some x.
Proof.
  induction r as [|p|a IHa b IHb|a IHa b IHb|a IHa| | |g a IHa];
    intros Hc st k x H; simpl in H.
  - exists st. split; [apply extends_refl | exact H].
  - destruct (after st) as [|c t] eqn:Ea; [discriminate|].
    destruct (p c) eqn:Ep; [|discriminate].
    eexists. split; [|exact H].
    exists [c]. simpl. repeat split; auto.
  - destruct Hc as [Hca Hcb].
    apply (IHa Hca) in H. destruct H as (st1 & H1 & H).
    apply (IHb Hcb) in H. destruct H as (st2 & H2 & H).
    exists st2. split; [|exact H]. simpl. eapply extends_trans; eassumption.
  - destruct Hc as [Hca Hcb]. simpl.
    destruct (run a st k) as [r|] eqn:E.
    + injection H as ->. apply (IHa Hca) in E. destruct E as (st1 & H1 & E1).
      exists st1. split; [|exact E1]. eapply extends_weaken; [|exact H1]. lia.
    + apply (IHb Hcb) in H. destruct H as (st1 & H1 & E1).
      exists st1. split; [|exact E1]. eapply extends_weaken; [|exact H1]. lia.
  - simpl in Hc. simpl.
    apply (star_loop_sound (run a)) in H; [exact H|].
    intros st0 k0 x0 H0. apply (IHa Hc) in H0. destruct H0 as (st1 & H1 & E).
    exists st1. split; [|exact E]. eapply extends_weaken; [|exact H1]. lia.
  - destruct (at_boundary st); [|discriminate].
    exists st. split; [apply extends_refl | exact H].
  - destruct (before st); [|discriminate].
    exists st. split; [apply extends_refl | exact H].
  - simpl in Hc. apply (IHa Hc) in H. destruct H as (st1 & H1 & E).
    eexists. split; [|exact E]. simpl. apply extends_set_group. exact H1.
Qed.
End Soundness.

Lemma consumed_extends P n st st' :
  extends P n st st' ->
  exists cs, consumed st st' = string_of_list_ascii cs
             /\ Forall (fun c => P c = true) cs /\ n <= List.length cs.
Proof.
  intros (cs & Hb & Ha & Hf & Hn). exists cs. repeat split; auto.
  unfold consumed. rewrite Hb, length_app, length_rev.
  replace (List.length cs + List.length (before st) - List.length (before st))
    with (List.length (rev cs)) by (rewrite length_rev; lia).
  rewrite firstn_app, Nat.sub_diag, firstn_all. simpl. rewrite app_nil_r, rev_involutive.
  reflexivity.
Qed.

Lemma search_sound P r :
  chars_in P r ->
  forall aft bef m,
    search_from r bef aft = Some m ->
    exists cs, m_group0 m = string_of_list_ascii cs
               /\ Forall (fun c => P c = true) cs /\ min_len r <= List.length cs.
Proof.
  intros Hc. induction aft as [|c t IH]; intros bef m H; simpl in H.
  - destruct (match_here r _) as [st'|] eqn:E; [|discriminate].
    injection H as <-. apply (run_sound P r Hc) in E.
    destruct E as (st1 & H1 & E1). injection E1 as ->.
    simpl. apply (consumed_extends P _ _ _ H1).
  - destruct (match_here r _) as [st'|] eqn:E.
    + injection H as <-. apply (run_sound P r Hc) in E.
      destruct E as (st1 & H1 & E1). injection E1 as ->.
      simpl. apply (consumed_extends P _ _ _ H1).
    + apply IH in H. exact H.
Qed.

Lemma int_digits_total cs : 
  Forall (fun c => is_digit c = true) cs ->
  forall acc, exists y, int_digits acc (string_of_list_ascii cs) = Some y.
Proof.
  induction 1 as [|c cs Hc _ IH]; intros acc; simpl.
  - eexists. reflexivity.
  - rewrite Hc. apply IH.
Qed.

Lemma year_pattern_digits : chars_in is_digit year_pattern.
Proof.
  unfold year_pattern, digit. cbn [chars_in Lit Rep].
  repeat split; auto; intros c H; apply Ascii.eqb_eq in H; subst; reflexivity.
Qed.

Lemma year_match_int raw m :
  search year_pattern raw = Some m -> exists y, int (m_group0 m) = Some y.
Proof.
  intros H. apply (search_sound is_digit _ year_pattern_digits) in H.
  destruct H as (cs & -> & Hf & Hn). simpl in Hn.
  destruct cs as [|c cs]; [simpl in Hn; lia|].
  unfold int. simpl string_of_list_ascii. apply (int_digits_total (c :: cs) Hf).
Qed.

Lemma author_section_total s : exists sec, author_section_of s = Some sec.
Proof.
  unfold author_section_of. destruct (contains "." s); [|eauto].
  destruct s as [|c t]; simpl.
  - rewrite index_head. eauto.
  - destruct (Ascii.eqb c "."); [rewrite index_head; eauto|].
    destruct (split_char "." t); rewrite index_head; eauto.
Qed.

Ltac split_matches :=
  repeat match goal with
         | |- context [match ?c with _ => _ end] => destruct c
         end.

Lemma extract_year_total raw p :
  exists p1, extract_year raw p = Some p1
             /\ (p1 = p \/ exists y, p1 = set_year (Val y) p)
             /\ (search year_pattern raw = None -> p1 = p).
Proof.
  unfold extract_year. cbv zeta.
  destruct (nonnil _); [|exists p; auto].
  destruct (search year_pattern raw) as [m|] eqn:E; [|exists p; auto].
  destruct (year_match_int _ _ E) as [y Hy].
  cbn [group fmt_group]. rewrite Hy. cbn [bind].
  eexists. split; [reflexivity|]. split; [eauto | discriminate].
Qed.

(** A block leaves the keys it does not assign as they were. *)
Ltac frame f :=
  repeat match goal with
         | |- context [f (extract_pages ?r ?p)] =>
             replace (f (extract_pages r p)) with (f p)
               by (unfold extract_pages; split_matches; reflexivity)
         | |- context [f (extract_volume ?r ?p)] =>
             replace (f (extract_volume r p)) with (f p)
               by (unfold extract_volume; split_matches; reflexivity)
         | |- context [f (extract_source ?r ?p)] =>
             replace (f (extract_source r p)) with (f p)
               by (unfold extract_source; split_matches; reflexivity)
         | |- context [f (extract_title ?r ?a ?p)] =>
             replace (f (extract_title r a p)) with (f p)
               by (unfold extract_title; split_matches; reflexivity)
         | |- context [f (extract_authors ?a ?p)] =>
             replace (f (extract_authors a p)) with (f p)
               by (unfold extract_authors; split_matches; reflexivity)
         | |- context [f (set_year ?y ?p)] =>
             change (f (set_year y p)) with (f p)
         | |- context [f (extract_url ?r ?p)] =>
             replace (f (extract_url r p)) with (f p)
               by (unfold extract_url; split_matches; reflexivity)
         | |- context [f (extract_doi ?r ?p)] =>
             replace (f (extract_doi r p)) with (f p)
               by (unfold extract_doi; split_matches; reflexivity)
         end.

(** C7. [parse_reference_text] never raises, and a field whose
    extraction finds nothing keeps the value the dictionary starts with:
    [[]] for the authors, [None] for year, title, source, doi, url,
    publisher, volume, issue and pages, "book" for the type. *)
Theorem parse_total (raw_text : string) :
  exists parsed author_section,
    parse_reference_text raw_text = Some parsed
    /\ author_section_of (before_year_of raw_text (iget (f_year parsed) PyNone))
       = Some author_section
    /\ (search DOI_PATTERN raw_text = None -> f_doi parsed = Null)
    /\ (search url_pattern raw_text = None -> f_url parsed = Null)
    /\ (search year_pattern raw_text = None -> f_year parsed = Null)
    /\ (findall author_names_pattern author_section = [] -> f_authors parsed = Some [])
    /\ (f_year parsed = Null
        \/ (len (title_section_of raw_text author_section (iget (f_year parsed) PyNone))
            <= 10)%Z ->
        f_title parsed = Null)
    /\ (contains "Journal" raw_text || contains "Review" raw_text = false
        \/ search journal_pattern raw_text = None ->
        f_source parsed = Null)
    /\ f_publisher parsed = Null
    /\ (search volume_pattern raw_text = None ->
        f_volume parsed = Null /\ f_issue parsed = Null)
    /\ (search pages_pattern raw_text = None -> f_pages parsed = Null)
    /\ (search url_pattern raw_text = None ->
        contains "Journal" raw_text || contains "Review" raw_text = false ->
        f_type parsed = Some "book").
Proof.
  unfold parse_reference_text. cbv zeta.
  destruct (extract_year_total raw_text (extract_url raw_text (extract_doi raw_text initial_parsed)))
    as (p1 & -> & Hp1 & Hnone).
  cbn [bind].
  destruct (author_section_total (before_year_of raw_text (iget (f_year p1) PyNone)))
    as [sec Hsec].
  rewrite Hsec. cbn [bind].
  eexists. exists sec. split; [reflexivity|].
  split.
  { frame f_year. exact Hsec. }
  split.
  { intros H. frame f_doi. destruct Hp1 as [-> | [y ->]]; frame f_doi;
      unfold extract_doi; rewrite H; reflexivity. }
  split.
  { intros H. frame f_url. destruct Hp1 as [-> | [y ->]]; frame f_url;
      unfold extract_url; rewrite H; frame f_url; reflexivity. }
  split.
  { intros H. frame f_year. rewrite (Hnone H). frame f_year. reflexivity. }
  split.
  { intros H. frame f_authors. unfold extract_authors. cbv zeta. rewrite H.
    cbn [nonnil]. destruct Hp1 as [-> | [y ->]]; frame f_authors; reflexivity. }
  split.
  { intros H. frame f_title. revert H. frame f_year. intros H.
    unfold extract_title. cbv zeta. frame f_year.
    destruct (truthy (iget (f_year p1) PyNone)) eqn:Ey.
    - destruct H as [H | H]; [rewrite H in Ey; discriminate|].
      replace (10 <? _)%Z with false by (symmetry; apply Z.ltb_ge; exact H).
      rewrite andb_false_r. frame f_title.
      destruct Hp1 as [-> | [y ->]]; frame f_title; reflexivity.
    - frame f_title. destruct Hp1 as [-> | [y ->]]; frame f_title; reflexivity. }
  split.
  { intros H. frame f_source. unfold extract_source. cbv zeta.
    destruct H as [H | H]; rewrite H.
    - frame f_source. destruct Hp1 as [-> | [y ->]]; frame f_source; reflexivity.
    - destruct (_ || _); cbn [f_source set_type]; frame f_source;
        destruct Hp1 as [-> | [y ->]]; frame f_source; reflexivity. }
  split.
  { frame f_publisher. destruct Hp1 as [-> | [y ->]]; frame f_publisher; reflexivity. }
  split.
  { intros H. split.
    - frame f_volume. unfold extract_volume. rewrite H. frame f_volume.
      destruct Hp1 as [-> | [y ->]]; frame f_volume; reflexivity.
    - frame f_issue. unfold extract_volume. rewrite H. frame f_issue.
      destruct Hp1 as [-> | [y ->]]; frame f_issue; reflexivity. }
  split.
  { intros H. unfold extract_pages. rewrite H. frame f_pages.
    destruct Hp1 as [-> | [y ->]]; frame f_pages; reflexivity. }
  intros Hu Hj. frame f_type. unfold extract_source. cbv zeta. rewrite Hj.
  frame f_type. destruct Hp1 as [-> | [y ->]]; frame f_type;
    unfold extract_url; rewrite Hu; frame f_type; reflexivity.
Qed.

(** *** The coherence validator *)

Section Dict.
Context {V : Type}.
Implicit Types (d : pydict V) (k : string) (v : V).

Lemma dict_get_set k k' v d :
  dict_get k (dict_set k' v d) = if String.eqb k k' then Some v else dict_get k d.
Proof.
  induction d as [|[k0 v0] d IH]; simpl.
  - reflexivity.
  - destruct (String.eqb k' k0) eqn:E0; simpl.
    + apply String.eqb_eq in E0. subst k0.
      destruct (String.eqb k k'); reflexivity.
    + rewrite IH. destruct (String.eqb k k') eqn:E1; [|reflexivity].
      apply String.eqb_eq in E1. subst k. now rewrite E0.
Qed.

Lemma dict_set_keys k v d :
  map fst (dict_set k v d)
  = if dict_mem k d then map fst d else (map fst d ++ [k])%list.
Proof.
  unfold dict_mem. induction d as [|[k0 v0] d IH]; simpl.
  - reflexivity.
  - destruct (String.eqb k k0) eqn:E0; simpl.
    + apply String.eqb_eq in E0. now subst.
    + rewrite IH. destruct (dict_get k d); reflexivity.
Qed.

Lemma dict_get_keys k d : dict_get k d = None <-> ~ In k (map fst d).
Proof.
  induction d as [|[k0 v0] d IH]; simpl.
  - tauto.
  - destruct (String.eqb k k0) eqn:E0.
    + apply String.eqb_eq in E0. subst. split; [discriminate | tauto].
    + apply String.eqb_neq in E0. rewrite IH. split.
      * intros H [H1 | H1]; [congruence | tauto].
      * tauto.
Qed.

Lemma dict_set_nodup k v d : NoDup (map fst d) -> NoDup (map fst (dict_set k v d)).
Proof.
  intros H. rewrite dict_set_keys. unfold dict_mem.
  destruct (dict_get k d) eqn:E; [exact H|].
  apply dict_get_keys in E.
  apply NoDup_rev in H. rewrite <- (rev_involutive (map fst d ++ [k])).
  apply NoDup_rev. rewrite rev_app_distr. simpl. constructor.
  - rewrite <- in_rev. exact E.
  - exact H.
Qed.

Lemma dict_get_in k v d :
  NoDup (map fst d) -> (In (k, v) d <-> dict_get k d = Some v).
Proof.
  induction d as [|[k0 v0] d IH]; simpl; intros H.
  - split; [tauto | discriminate].
  - inversion H as [|? ? Hn Hd]; subst.
    destruct (String.eqb k k0) eqn:E0.
    + apply String.eqb_eq in E0. subst k0. split.
      * intros [H1 | H1]; [congruence|].
        exfalso. apply Hn. apply (in_map fst) in H1. exact H1.
      * intros H1. left. congruence.
    + apply String.eqb_neq in E0. rewrite <- (IH Hd). split.
      * intros [H1 | H1]; [congruence | exact H1].
      * tauto.
Qed.

Lemma dict_permutation d d' :
  NoDup (map fst d) -> NoDup (map fst d') ->
  (forall k, dict_get k d = dict_get k d') ->
  Permutation d d'.
Proof.
  intros H H' Hg. apply NoDup_Permutation.
  - eapply NoDup_map_inv. exact H.
  - eapply NoDup_map_inv. exact H'.
  - intros [k v]. rewrite (dict_get_in k v d H), (dict_get_in k v d' H'), Hg.
    reflexivity.
Qed.
End Dict.

Section Keyed.
Context {A : Type} (key : A -> field string).

Lemma keyed_snoc l x : keyed key (l ++ [x]) = enter key (keyed key l) x.
Proof. unfold keyed. rewrite fold_left_app. reflexivity. Qed.

Lemma keyed_nodup l : NoDup (map fst (keyed key l)).
Proof.
  induction l as [|x l IH] using rev_ind.
  - constructor.
  - rewrite keyed_snoc. unfold enter.
    destruct (key x) as [| |k]; try exact IH.
    destruct (nonempty k); [apply dict_set_nodup|]; exact IH.
Qed.

Lemma keyed_keys_nonempty l :
  Forall (fun kv => nonempty (fst kv) = true) (keyed key l).
Proof.
  induction l as [|x l IH] using rev_ind.
  - constructor.
  - rewrite keyed_snoc. unfold enter.
    destruct (key x) as [| |k]; try exact IH.
    destruct (nonempty k) eqn:E; [|exact IH].
    clear -IH E. induction (keyed key l) as [|[k0 v0] d IHd]; simpl.
    + constructor; [exact E | constructor].
    + inversion IH; subst. destruct (String.eqb k k0); constructor; auto.
Qed.

Lemma last_with_snoc k l x :
  last_with key k (l ++ [x])
  = if has_key key k x then Some x else last_with key k l.
Proof.
  induction l as [|y l IH]; simpl.
  - destruct (has_key key k x); reflexivity.
  - rewrite IH. destruct (has_key key k x); [reflexivity|].
    destruct (last_with key k l); reflexivity.
Qed.

Lemma dict_get_keyed k l :
  dict_get k (keyed key l) = if nonempty k then last_with key k l else None.
Proof.
  induction l as [|x l IH] using rev_ind.
  - simpl. destruct (nonempty k); reflexivity.
  - rewrite keyed_snoc, last_with_snoc. unfold enter, has_key.
    destruct (key x) as [| |k']; try exact IH.
    destruct (nonempty k') eqn:E'.
    + rewrite dict_get_set, IH. destruct (String.eqb k k') eqn:E; [|reflexivity].
      apply String.eqb_eq in E. subst. now rewrite E'.
    + rewrite IH. destruct (String.eqb k k') eqn:E; [|reflexivity].
      apply String.eqb_eq in E. subst. now rewrite E'.
Qed.

Lemma last_with_exists k l :
  existsb (has_key key k) l = true -> last_with key k l <> None.
Proof.
  induction l as [|x l IH]; simpl; [discriminate|].
  intros H. destruct (last_with key k l); [discriminate|].
  destruct (has_key key k x); [discriminate|]. simpl in H. now apply IH.
Qed.

Lemma has_key_unique k k' x : has_key key k x = true -> has_key key k' x = true -> k' = k.
Proof.
  unfold has_key. destruct (key x); try discriminate.
  intros H H'. apply String.eqb_eq in H, H'. congruence.
Qed.

Lemma last_with_keep_last k k' l :
  last_with key k' (keep_last key k l) = last_with key k' l.
Proof.
  induction l as [|x l IH]; simpl; [reflexivity|].
  destruct (has_key key k x && existsb (has_key key k) l) eqn:E.
  - rewrite IH. apply andb_prop in E. destruct E as [Ex El].
    destruct (last_with key k' l) eqn:EL; [reflexivity|].
    destruct (has_key key k' x) eqn:Ex'; [|reflexivity].
    rewrite (has_key_unique k k' x Ex Ex') in EL.
    exfalso. exact (last_with_exists k l El EL).
  - simpl. rewrite IH. reflexivity.
Qed.

Lemma dict_get_keep_last k k' l :
  dict_get k' (keyed key (keep_last key k l)) = dict_get k' (keyed key l).
Proof. rewrite !dict_get_keyed, last_with_keep_last. reflexivity. Qed.

Lemma keyed_keep_last k l :
  Permutation (keyed key l) (keyed key (keep_last key k l)).
Proof.
  apply dict_permutation; try apply keyed_nodup.
  intros k'. symmetry. apply dict_get_keep_last.
Qed.

Lemma keyed_keyless l1 x l2 :
  keyless (key x) -> keyed key (l1 ++ x :: l2) = keyed key (l1 ++ l2).
Proof.
  intros H. unfold keyed. rewrite !fold_left_app. cbn [fold_left].
  replace (enter key (fold_left (enter key) l1 []) x)
    with (fold_left (enter key) l1 []); [reflexivity|].
  unfold enter. destruct H as [-> | [-> | ->]]; reflexivity.
Qed.
End Keyed.

Lemma pyobj_eqb_eq a b : pyobj_eqb a b = true <-> a = b.
Proof.
  destruct a, b; simpl; split; try discriminate; try reflexivity; intros H.
  - apply Z.eqb_eq in H. congruence.
  - injection H as ->. apply Z.eqb_refl.
  - apply String.eqb_eq in H. congruence.
  - injection H as ->. apply String.eqb_refl.
Qed.

Lemma authors_differ_true a b : authors_differ a b = true <-> a <> b.
Proof.
  unfold authors_differ. destruct (list_eq_dec string_dec a b); split; congruence.
Qed.

(** **** Normalised authors *)

Lemma consumed_one bef c t g g' :
  consumed (MState bef (c :: t) g) (MState (c :: bef) t g') = String c EmptyString.
Proof.
  unfold consumed. cbn [before List.length].
  replace (S (List.length bef) - List.length bef) with 1 by lia.
  reflexivity.
Qed.

(** Substituting the empty string for one character class is filtering. *)
Lemma sub_class_filter (q : ascii -> bool) (s : string) :
  sub (Chr q) EmptyString s = sfilter (fun c => negb (q c)) s.
Proof.
  unfold sub. rewrite <- (string_of_list_ascii_of_string s) at 2.
  generalize (@nil ascii) as bef.
  induction (list_ascii_of_string s) as [|c t IH]; intros bef.
  - reflexivity.
  - cbn [sub_from]. unfold match_here. cbn [run after before groups].
    destruct (q c) eqn:E.
    + rewrite consumed_one. cbn [String.length]. rewrite IH.
      cbn [string_of_list_ascii sfilter]. rewrite E. reflexivity.
    + rewrite IH. cbn [string_of_list_ascii sfilter]. rewrite E. reflexivity.
Qed.

Lemma sfilter_ext (p q : ascii -> bool) (s : string) :
  (forall c, In c (list_ascii_of_string s) -> p c = q c) ->
  sfilter p s = sfilter q s.
Proof.
  induction s as [|c t IH]; intros H; simpl.
  - reflexivity.
  - rewrite (H c) by (left; reflexivity).
    rewrite IH by (intros x Hx; apply H; right; exact Hx). reflexivity.
Qed.

Lemma lower_char_underscore (c : ascii) :
  is_code 95 (lower_char c) = is_code 95 c.
Proof.
  destruct c as [[] [] [] [] [] [] [] []]; reflexivity.
Qed.

Lemma in_lower (c : ascii) (s : string) :
  In c (list_ascii_of_string (lower s)) ->
  exists c', In c' (list_ascii_of_string s) /\ c = lower_char c'.
Proof.
  induction s as [|x t IH]; simpl; [tauto|].
  intros [H | H].
  - exists x. auto.
  - destruct (IH H) as (c' & Hc & E). exists c'. auto.
Qed.

(** Away from the underscore the normalisation of the code is the one the
    specification words. *)
Lemma normalize_words_agrees (author : string) :
  (forall c, In c (list_ascii_of_string author) -> is_code 95 c = false) ->
  _normalize_author author = normalize_words author.
Proof.
  intros H. unfold _normalize_author, normalize_words. cbv zeta.
  rewrite sub_class_filter. do 2 f_equal.
  apply sfilter_ext. intros c Hc.
  apply in_lower in Hc. destruct Hc as (c' & Hc' & ->).
  unfold Not, is_word. rewrite negb_involutive, lower_char_underscore, (H c' Hc').
  now rewrite orb_false_r.
Qed.

(** X19. For a key present in both key maps,
    [validate_coherence] emits an imperfect match if and only if the
    authors of the two sides, normalised by [_normalize_author]
    (lowercased, every character that is neither a word character, that
    is alphanumeric or underscore, nor whitespace removed, whitespace
    collapsed and trimmed) and compared as sequences, differ or the years
    differ; the record carries the authors and years of both sides as they
    were given; and the key has no finding in the other two lists, so a key
    whose two sides agree has no finding at all. *)
Theorem imperfect_match_iff (citations : list Citation) (references : list Reference)
    (k : string) (c : Citation) (r : Reference) :
  dict_get k (keyed c_citation_key citations) = Some c ->
  dict_get k (keyed r_ref_key references) = Some r ->
  let res := validate_coherence citations references in
  let cit_authors := lget (f_authors (parsed_of (c_parsed c))) in
  let ref_authors := lget (f_authors (parsed_of (r_parsed r))) in
  let cit_year := iget (f_year (parsed_of (c_parsed c))) PyNone in
  let ref_year := iget (f_year (parsed_of (r_parsed r))) PyNone in
  ((exists m, In m (imperfect_matches res) /\ im_citation_key m = k)
   <-> (map _normalize_author cit_authors <> map _normalize_author ref_authors
        \/ cit_year <> ref_year))
  /\ (forall m, In m (imperfect_matches res) -> im_citation_key m = k ->
                m = mismatch k c r)
  /\ (forall o, In o (citations_without_reference res) -> oc_citation_key o <> k)
  /\ (forall o, In o (references_without_citations res) -> or_ref_key o <> k).
Proof.
  intros Hc Hr res cit_authors ref_authors cit_year ref_year.
  assert (HIn : In (k, c) (keyed c_citation_key citations))
    by (apply dict_get_in; [apply keyed_nodup | exact Hc]).
  assert (Himp : forall m,
             In m (imperfect_matches res) -> im_citation_key m = k ->
             m = mismatch k c r
             /\ (map _normalize_author cit_authors <> map _normalize_author ref_authors
                 \/ cit_year <> ref_year)).
  { intros m Hm Hk. unfold res, validate_coherence in Hm. cbv zeta in Hm.
    cbn [imperfect_matches] in Hm. apply in_flat_map in Hm.
    destruct Hm as ([k' c'] & Hin & Hm).
    destruct (dict_get k' (keyed r_ref_key references)) as [r'|] eqn:Er; [|destruct Hm].
    destruct (authors_differ _ _ || negb (pyobj_eqb _ _)) eqn:Ed; [|destruct Hm].
    destruct Hm as [<- | []]. simpl in Hk. subst k'.
    apply dict_get_in in Hin; [|apply keyed_nodup].
    rewrite Hc in Hin. injection Hin as <-.
    rewrite Hr in Er. injection Er as <-.
    split; [reflexivity|].
    apply orb_prop in Ed. destruct Ed as [Ed | Ed].
    - left. now apply authors_differ_true.
    - right. intros E. apply pyobj_eqb_eq in E. fold cit_year ref_year in Ed.
      rewrite E in Ed. discriminate. }
  split; [split|split; [|split]].
  - intros (m & Hm & Hk). apply (Himp m Hm Hk).
  - intros Hd. exists (mismatch k c r). split; [|reflexivity].
    unfold res, validate_coherence. cbv zeta. cbn [imperfect_matches].
    apply in_flat_map. exists (k, c). split; [exact HIn|].
    rewrite Hr.
    replace (authors_differ _ _ || negb (pyobj_eqb _ _)) with true; [left; reflexivity|].
    symmetry. destruct Hd as [Hd | Hd].
    + apply authors_differ_true in Hd. fold cit_authors ref_authors. now rewrite Hd.
    + apply orb_true_iff. right. apply negb_true_iff.
      destruct (pyobj_eqb _ _) eqn:E; [|reflexivity].
      apply pyobj_eqb_eq in E. contradiction.
  - intros m Hm Hk. apply (Himp m Hm Hk).
  - intros o Ho Hk. unfold res, validate_coherence in Ho. cbv zeta in Ho.
    cbn [citations_without_reference] in Ho. apply in_flat_map in Ho.
    destruct Ho as ([k' c'] & Hin & Ho).
    destruct (negb (dict_mem k' _)) eqn:E; [|destruct Ho].
    destruct Ho as [<- | []]. simpl in Hk. subst k'.
    unfold dict_mem in E. rewrite Hr in E. discriminate.
  - intros o Ho Hk. unfold res, validate_coherence in Ho. cbv zeta in Ho.
    cbn [references_without_citations] in Ho. apply in_flat_map in Ho.
    destruct Ho as ([k' r'] & Hin & Ho).
    destruct (negb (dict_mem k' _)) eqn:E; [|destruct Ho].
    destruct Ho as [<- | []]. simpl in Hk. subst k'.
    unfold dict_mem in E. rewrite Hc in E. discriminate.
Qed.

Lemma imperfect_match_iff_witness :
  exists m,
    In m (imperfect_matches (validate_coherence [smith_cited] [smith_listed]))
    /\ im_citation_key m = "[Smith, 2020]".
Proof.
  apply (proj1 (imperfect_match_iff [smith_cited] [smith_listed] "[Smith, 2020]"
                  smith_cited smith_listed eq_refl eq_refl)).
  left. discriminate.
Defined.

(** C2. The code breaks the claim, and its own comment (remove
    punctuation): "Smith_J" and "SmithJ" are equal once every
    non-alphanumeric character is removed, and the years are equal, yet
    an imperfect match is emitted, because [[^\w\s]] keeps the
    underscore. *)
Lemma underscore_survives_normalisation :
  map normalize_words ["Smith_J"] = map normalize_words ["SmithJ"]
  /\ map _normalize_author ["Smith_J"] <> map _normalize_author ["SmithJ"]
  /\ imperfect_matches (validate_coherence [smith_cited_underscore] [smith_listed_plain])
     = [mismatch "[Smith, 2020]" smith_cited_underscore smith_listed_plain].
Proof. split; [reflexivity|]. split; [discriminate | reflexivity]. Qed.

(** C6 (as amended). Duplicate keys collapse with the last record
    winning: removing all but the last record of a key from the citations
    (from the references) leaves every result list with the same findings,
    though the citation-side (reference-side) lists may come in another
    order, since a key keeps the place of its first record. *)
Theorem duplicate_keys_last_wins (citations : list Citation)
    (references : list Reference) (k : string) :
  let res := validate_coherence citations references in
  let res_c := validate_coherence (keep_last c_citation_key k citations) references in
  let res_r := validate_coherence citations (keep_last r_ref_key k references) in
  (Permutation (citations_without_reference res) (citations_without_reference res_c)
   /\ references_without_citations res = references_without_citations res_c
   /\ Permutation (imperfect_matches res) (imperfect_matches res_c))
  /\ (citations_without_reference res = citations_without_reference res_r
      /\ Permutation (references_without_citations res)
                     (references_without_citations res_r)
      /\ imperfect_matches res = imperfect_matches res_r).
Proof.
  cbv zeta. unfold validate_coherence. cbv zeta.
  cbn [citations_without_reference references_without_citations imperfect_matches].
  pose proof (keyed_keep_last c_citation_key k citations) as Pc.
  pose proof (keyed_keep_last r_ref_key k references) as Pr.
  pose proof (fun k' => dict_get_keep_last c_citation_key k k' citations) as Gc.
  pose proof (fun k' => dict_get_keep_last r_ref_key k k' references) as Gr.
  repeat split.
  - apply Permutation_flat_map. exact Pc.
  - apply flat_map_ext. intros [k' r']. unfold dict_mem. now rewrite Gc.
  - apply Permutation_flat_map. exact Pc.
  - apply flat_map_ext. intros [k' c']. unfold dict_mem. now rewrite Gr.
  - apply Permutation_flat_map. exact Pr.
  - apply flat_map_ext. intros [k' c']. now rewrite Gr.
Qed.

(** C6, the claim as stated fails: with the key "[A]" cited first and last,
    its finding comes first; with only the last record kept it comes
    second. *)
Lemma duplicate_keys_change_order :
  citations_without_reference (validate_coherence cited_twice [])
  = [mkOrphanCitation "[A]" (PyStr "third"); mkOrphanCitation "[B]" (PyStr "second")]
  /\ citations_without_reference
       (validate_coherence (keep_last c_citation_key "[A]" cited_twice) [])
     = [mkOrphanCitation "[B]" (PyStr "second"); mkOrphanCitation "[A]" (PyStr "third")]
  /\ validate_coherence cited_twice []
     <> validate_coherence (keep_last c_citation_key "[A]" cited_twice) [].
Proof. split; [reflexivity|]. split; [reflexivity | discriminate]. Qed.

(** C10. A citation or reference whose key is missing, [None] or empty
    does not enter the key maps: the result is the same with and without
    it, and every finding carries a non-empty key. *)
Theorem keyless_records_dropped :
  (forall c cs1 cs2 references,
      keyless (c_citation_key c) ->
      validate_coherence (cs1 ++ c :: cs2) references
      = validate_coherence (cs1 ++ cs2) references)
  /\ (forall r citations rs1 rs2,
         keyless (r_ref_key r) ->
         validate_coherence citations (rs1 ++ r :: rs2)
         = validate_coherence citations (rs1 ++ rs2))
  /\ (forall citations references,
         let res := validate_coherence citations references in
         Forall (fun o => nonempty (oc_citation_key o) = true)
                (citations_without_reference res)
         /\ Forall (fun o => nonempty (or_ref_key o) = true)
                   (references_without_citations res)
         /\ Forall (fun m => nonempty (im_citation_key m) = true
                             /\ nonempty (im_ref_key m) = true)
                   (imperfect_matches res)).
Proof.
  repeat split.
  - intros c cs1 cs2 references H. unfold validate_coherence.
    now rewrite (keyed_keyless c_citation_key cs1 c cs2 H).
  - intros r citations rs1 rs2 H. unfold validate_coherence.
    now rewrite (keyed_keyless r_ref_key rs1 r rs2 H).
  - apply Forall_forall. intros o Ho. unfold validate_coherence in Ho.
    cbn [citations_without_reference] in Ho. apply in_flat_map in Ho.
    destruct Ho as ([k' c'] & Hin & Ho).
    pose proof (keyed_keys_nonempty c_citation_key citations) as F.
    rewrite Forall_forall in F. specialize (F _ Hin).
    destruct (negb _); [|destruct Ho]. destruct Ho as [<- | []]. exact F.
  - apply Forall_forall. intros o Ho. unfold validate_coherence in Ho.
    cbn [references_without_citations] in Ho. apply in_flat_map in Ho.
    destruct Ho as ([k' c'] & Hin & Ho).
    pose proof (keyed_keys_nonempty r_ref_key references) as F.
    rewrite Forall_forall in F. specialize (F _ Hin).
    destruct (negb _); [|destruct Ho]. destruct Ho as [<- | []]. exact F.
  - apply Forall_forall. intros o Ho. unfold validate_coherence in Ho.
    cbn [imperfect_matches] in Ho. apply in_flat_map in Ho.
    destruct Ho as ([k' c'] & Hin & Ho).
    pose proof (keyed_keys_nonempty c_citation_key citations) as F.
    rewrite Forall_forall in F. specialize (F _ Hin).
    destruct (dict_get k' _); [|destruct Ho].
    destruct (_ || _); [|destruct Ho]. destruct Ho as [<- | []]. split; exact F.
Qed.

Lemma keyless_records_dropped_witness :
  validate_coherence ([smith_cited] ++ no_key :: []) [smith_listed]
  = validate_coherence ([smith_cited] ++ []) [smith_listed]
  /\ validate_coherence [smith_cited] ([] ++ empty_key :: [smith_listed])
     = validate_coherence [smith_cited] ([] ++ [smith_listed]).
Proof.
  split.
  - apply (proj1 keyless_records_dropped). right. left. reflexivity.
  - apply (proj1 (proj2 keyless_records_dropped)). right. right. reflexivity.
Defined.

Lemma parse_total_witness :
  exists parsed,
    parse_reference_text "untitled note" = Some parsed
    /\ f_authors parsed = Some [] /\ f_year parsed = Null /\ f_title parsed = Null
    /\ f_source parsed = Null /\ f_doi parsed = Null /\ f_url parsed = Null
    /\ f_publisher parsed = Null /\ f_volume parsed = Null /\ f_issue parsed = Null
    /\ f_pages parsed = Null /\ f_type parsed = Some "book".
Proof.
  destruct (parse_total "untitled note")
    as (p & sec & Hp & Hsec & Hdoi & Hurl & Hyear & Hauth & Htitle & Hsrc & Hpub
        & Hvol & Hpages & Htype).
  exists p.
  assert (Y : f_year p = Null) by (apply Hyear; reflexivity).
  rewrite Y in Hsec. injection Hsec as <-.
  split; [exact Hp|].
  split; [apply Hauth; reflexivity|].
  split; [exact Y|].
  split; [apply Htitle; left; exact Y|].
  split; [apply Hsrc; left; reflexivity|].
  split; [apply Hdoi; reflexivity|].
  split; [apply Hurl; reflexivity|].
  split; [exact Hpub|].
  split; [apply Hvol; reflexivity|].
  split; [apply Hvol; reflexivity|].
  split; [apply Hpages; reflexivity|].
  apply Htype; reflexivity.
Defined.

Example reference_seven :
  generate_reference "November 04, 2026" (ref_with seven_authors (Val 2020%Z))
  = Some "Smith, J., Jones, M., Brown, K., White, L., Green, P., Blue, Q., & Grey, R. (2020).".
Proof. reflexivity. Qed.

Example reference_eight :
  generate_reference "November 04, 2026" (ref_with eight_authors (Val 2020%Z))
  = Some "Smith, J., Jones, M., Brown, K., White, L., Green, P., Blue, Q. et al. (2020).".
Proof. reflexivity. Qed.

Example citation_five :
  generate_citation
    (ref_with ["Smith, J."; "Jones, M."; "Brown, K."; "White, L."; "Green, P."]
              (Val 2020%Z))
  = Some "(Smith, J., Jones, M., Brown, K., White, L., & Green, P., 2020)".
Proof. reflexivity. Qed.

Example citation_six :
  generate_citation
    (ref_with ["Smith, J."; "Jones, M."; "Brown, K."; "White, L."; "Green, P.";
               "Blue, Q."] Missing)
  = Some "(Smith, J. et al., n.d.)".
Proof. reflexivity. Qed.

Example lower_ex : Py.lower "Smith, J. & O'Neil_2" = "smith, j. & o'neil_2".
Proof. reflexivity. Qed.
Example split_ex : Py.split_char "," "Smith, J." = ["Smith"; " J."].
Proof. reflexivity. Qed.
Example split_ws_ex : Py.split_ws "  John  Q Smith " = ["John"; "Q"; "Smith"].
Proof. reflexivity. Qed.
Example strip_ex : Py.strip "  a b  " = "a b".
Proof. reflexivity. Qed.
Example find_ex : Py.find "ab 2020 2020" "2020" = 3%Z.
Proof. reflexivity. Qed.
Example find_ex2 : Py.find "ab" "2020" = (-1)%Z.
Proof. reflexivity. Qed.
Example slice_ex : Py.str_slice "abcdef" (Some 1%Z) (Some (-1)%Z) = "bcde".
Proof. reflexivity. Qed.
Example str_ex :
  Py.str_of_int 2020 = Some "2020" /\ Py.str_of_int 0 = Some "0"
  /\ Py.str_of_int (-5) = Some "-5".
Proof. repeat split; reflexivity. Qed.
Example str_limit_ex :
  Py.str_of_int (10 ^ 4300) = None /\ Py.str_of_int (- 10 ^ 4300) = None.
Proof.
  assert (P : (0 <= 10 ^ Py.max_str_digits)%Z) by (apply Z.pow_nonneg; lia).
  change 4300%Z with Py.max_str_digits.
  split; apply str_of_int_too_long.
  - rewrite Z.abs_eq by exact P. apply Z.le_refl.
  - rewrite Z.abs_opp, Z.abs_eq by exact P. apply Z.le_refl.
Qed.
Example int_ex : Py.int "2020" = Some 2020%Z.
Proof. reflexivity. Qed.

(** The cases of the unit tests of the validator and of the parser. *)
Example validator_perfect_match :
  validate_coherence
    [smith_cited]
    [refer "[Smith, 2020]" "Smith, J. (2020). Example book." ["Smith, J."] (Val 2020%Z)]
  = mkResult [] [] [].
Proof. reflexivity. Qed.

Example validator_orphans :
  validate_coherence [smith_cited] []
  = mkResult [mkOrphanCitation "[Smith, 2020]" (PyStr "Smith (2020) states...")] [] []
  /\ validate_coherence [] [smith_listed]
     = mkResult []
         [mkOrphanReference "[Smith, 2020]"
            (PyStr "Smith, J., & Jones, M. (2020). Example book.")] [].
Proof. split; reflexivity. Qed.

Example parser_volume_issue_pages :
  exists parsed,
    parse_reference_text "Smith, J. (2020). Title. Journal, 45(3), 123-145." = Some parsed
    /\ f_year parsed = Val 2020%Z
    /\ f_volume parsed = Val "45" /\ f_issue parsed = Val "3"
    /\ f_pages parsed = Val "123-145" /\ f_type parsed = Some "article".
Proof. eexists. split; [vm_compute; reflexivity|]. repeat split. Qed.

Example parser_doi :
  exists parsed,
    parse_reference_text
      "Smith, J. (2020). Example article. Journal Name, 10(2), 50-60. https://doi.org/10.1234/example"
    = Some parsed
    /\ f_doi parsed = Val "10.1234/example"
    /\ f_url parsed = Val "https://doi.org/10.1234/example".
Proof. eexists. split; [vm_compute; reflexivity|]. repeat split. Qed.

Example normalize_ex :
  _normalize_author "  Smith,  J.  O'Neil_x " = "smith j oneil_x".
Proof. reflexivity. Qed.

(** ** Further properties *)

(** *** Runs of whitespace *)

Lemma take_drop (p : ascii -> bool) (l : list ascii) :
  l = (take_while p l ++ drop_while p l)%list.
Proof.
  induction l as [|c t IH]; simpl; [reflexivity|].
  destruct (p c); simpl; [now rewrite <- IH | reflexivity].
Qed.

Lemma star_greedy (p : ascii -> bool) (n : nat) :
  forall aft bef g,
    List.length aft <= n ->
    star_loop (run (Chr p)) n (MState bef aft g) (fun st => Some st)
    = Some (MState (rev (take_while p aft) ++ bef) (drop_while p aft) g).
Proof.
  induction n as [|n IH]; intros aft bef g Hn.
  - destruct aft; [reflexivity | simpl in Hn; lia].
  - cbn [star_loop run after before groups].
    destruct aft as [|c t]; [reflexivity|].
    cbn [take_while drop_while]. destruct (p c); [|reflexivity].
    cbn [after List.length].
    replace (Nat.ltb (List.length t) (S (List.length t))) with true
      by (symmetry; apply Nat.ltb_lt; lia).
    rewrite IH by (simpl in Hn; lia).
    cbn [rev]. now rewrite <- app_assoc.
Qed.

Lemma plus_match (p : ascii -> bool) bef aft :
  match_here (Plus (Chr p)) (MState bef aft [])
  = match aft with
    | c :: t =>
        if p c
        then Some (MState (rev (take_while p t) ++ c :: bef) (drop_while p t) [])
        else None
    | [] => None
    end.
Proof.
  unfold match_here, Plus.
  destruct aft as [|c t]; [reflexivity|].
  change (run (Seq (Chr p) (Star (Chr p))) (MState bef (c :: t) []) (fun st => Some st))
    with (if p c
          then star_loop (run (Chr p)) (List.length t) (MState (c :: bef) t [])
                         (fun st => Some st)
          else None).
  destruct (p c); [|reflexivity].
  now rewrite star_greedy.
Qed.

Lemma consumed_run bef c l aft g g' :
  String.length (consumed (MState bef (c :: l ++ aft) g)
                          (MState (rev l ++ c :: bef) aft g'))
  = S (List.length l).
Proof.
  assert (L : forall x, String.length (string_of_list_ascii x) = List.length x).
  { induction x; simpl; congruence. }
  unfold consumed. cbn [before].
  rewrite L, length_rev, length_firstn, !length_app, !length_rev.
  cbn [List.length]. lia.
Qed.

Lemma sub_skip (r : regex) (repl : string) (p : ascii -> bool) :
  forall aft bef,
    sub_from r repl bef aft (List.length (take_while p aft))
    = sub_from r repl (rev (take_while p aft) ++ bef) (drop_while p aft) 0.
Proof.
  induction aft as [|c t IH]; intros bef.
  - reflexivity.
  - cbn [take_while drop_while]. destruct (p c).
    + cbn [List.length]. cbn [sub_from]. rewrite IH. cbn [rev].
      now rewrite <- app_assoc.
    + reflexivity.
Qed.

Lemma squeeze_run (l : list ascii) :
  squeeze true l = squeeze false (drop_while is_space l).
Proof.
  induction l as [|c t IH]; [reflexivity|].
  cbn [squeeze drop_while]. destruct (is_space c) eqn:E; [exact IH|].
  cbn [squeeze]. now rewrite E.
Qed.

Lemma drop_while_length (p : ascii -> bool) (l : list ascii) :
  List.length (drop_while p l) <= List.length l.
Proof.
  induction l as [|c t IH]; simpl; [lia|]. destruct (p c); simpl; lia.
Qed.

(** Substituting one space for [\s+] squeezes the runs of whitespace. *)
Lemma sub_spaces_from (n : nat) :
  forall aft bef,
    List.length aft <= n ->
    sub_from (Plus space) " " bef aft 0 = string_of_list_ascii (squeeze false aft).
Proof.
  induction n as [|n IH]; intros aft bef Hn.
  - destruct aft; [reflexivity | simpl in Hn; lia].
  - destruct aft as [|c t]; [reflexivity|].
    cbn [sub_from]. unfold space. rewrite plus_match.
    cbn [squeeze]. destruct (is_space c) eqn:E.
    + rewrite (take_drop is_space t) at 1. rewrite consumed_run.
      rewrite sub_skip. rewrite IH.
      * rewrite squeeze_run. reflexivity.
      * pose proof (drop_while_length is_space t). simpl in Hn. lia.
    + rewrite IH by (simpl in Hn; lia). reflexivity.
Qed.

Lemma sub_spaces (s : string) :
  sub (Plus space) " " s = string_of_list_ascii (squeeze false (list_ascii_of_string s)).
Proof. unfold sub. now apply (sub_spaces_from (List.length (list_ascii_of_string s))). Qed.

(** *** The normal form of an author *)

Lemma normal_char_facts (c : ascii) :
  normal_char c = true ->
  lower_char c = c
  /\ (is_word c || is_space c) = true
  /\ (is_space c = true -> c = " "%char).
Proof.
  destruct c as [[] [] [] [] [] [] [] []]; intros H; vm_compute in H;
    first [discriminate H | repeat split; first [reflexivity | discriminate]].
Qed.

Lemma kept_char_normal (c : ascii) :
  (is_word (lower_char c) || is_space (lower_char c)) = true ->
  is_space (lower_char c) = false ->
  normal_char (lower_char c) = true.
Proof.
  destruct c as [[] [] [] [] [] [] [] []]; intros H H'; vm_compute in H, H';
    first [discriminate H | discriminate H' | reflexivity].
Qed.

Lemma in_sfilter (p : ascii -> bool) (c : ascii) (s : string) :
  In c (list_ascii_of_string (sfilter p s)) ->
  p c = true /\ In c (list_ascii_of_string s).
Proof.
  induction s as [|x t IH]; simpl; [tauto|].
  destruct (p x) eqn:E; simpl.
  - intros [<- | H]; [auto | destruct (IH H); auto].
  - intros H. destruct (IH H); auto.
Qed.

Lemma squeeze_normal (l : list ascii) :
  (forall c, In c l -> is_space c = false -> normal_char c = true) ->
  forall b, forallb normal_char (squeeze b l) = true.
Proof.
  induction l as [|c t IH]; intros H b; [reflexivity|].
  cbn [squeeze]. assert (Ht : forall x, In x t -> is_space x = false -> normal_char x = true)
    by (intros x Hx; apply H; right; exact Hx).
  destruct (is_space c) eqn:E.
  - destruct b; [now apply IH|]. cbn [forallb]. now rewrite IH.
  - cbn [forallb]. rewrite (H c) by (auto; left; reflexivity). now rewrite IH.
Qed.

Lemma squeeze_single (l : list ascii) :
  forall b,
    single_spaced (squeeze b l) = true
    /\ (b = true ->
        match squeeze b l with c :: _ => is_space c = false | [] => True end).
Proof.
  induction l as [|c t IH]; intros b; [simpl; auto|].
  cbn [squeeze]. destruct (is_space c) eqn:E.
  - destruct b; [apply IH|]. split; [|discriminate].
    destruct (IH true) as [H1 H2]. specialize (H2 eq_refl).
    cbn [single_spaced]. destruct (squeeze true t) as [|d u]; [reflexivity|].
    rewrite H2, andb_false_r. exact H1.
  - destruct (IH false) as [H1 _]. split; [|intros _; exact E].
    cbn [single_spaced]. destruct (squeeze false t) as [|d u]; [reflexivity|].
    rewrite E. exact H1.
Qed.

Lemma single_spaced_app (a b : list ascii) :
  single_spaced (a ++ b) = true -> single_spaced a = true /\ single_spaced b = true.
Proof.
  induction a as [|c t IH]; intros H; [simpl; auto|].
  destruct t as [|d u].
  - split; [reflexivity|]. destruct b as [|e v]; [reflexivity|].
    simpl in H. apply andb_true_iff in H. apply H.
  - change (negb (is_space c && is_space d) && single_spaced ((d :: u) ++ b) = true) in H.
    apply andb_true_iff in H. destruct H as [H1 H2].
    destruct (IH H2) as [Ha Hb]. split; [|exact Hb].
    change (negb (is_space c && is_space d) && single_spaced (d :: u) = true).
    now rewrite H1, Ha.
Qed.

Lemma drop_while_head (p : ascii -> bool) (l : list ascii) c t :
  drop_while p l = c :: t -> p c = false.
Proof.
  induction l as [|x u IH]; simpl; [discriminate|].
  destruct (p x) eqn:E; [exact IH|]. intros H. injection H as <- _. exact E.
Qed.

Lemma drop_while_fixed (p : ascii -> bool) (l : list ascii) :
  match l with c :: _ => p c = false | [] => True end -> drop_while p l = l.
Proof. destruct l as [|c t]; [reflexivity|]. simpl. now intros ->. Qed.

Lemma strip_list_inside (l : list ascii) :
  exists a z, l = (a ++ strip_list l ++ z)%list.
Proof.
  unfold strip_list. exists (take_while is_space l).
  exists (rev (take_while is_space (rev (drop_while is_space l)))).
  rewrite (take_drop is_space l) at 1. f_equal.
  rewrite <- rev_app_distr, <- take_drop, rev_involutive. reflexivity.
Qed.

Lemma strip_list_fixed (l : list ascii) : strip_list (strip_list l) = strip_list l.
Proof.
  unfold strip_list.
  set (x := drop_while is_space l).
  set (y := drop_while is_space (rev x)).
  assert (Hy : drop_while is_space y = y).
  { apply drop_while_fixed. destruct y as [|c t] eqn:E; [exact I|].
    apply (drop_while_head is_space (rev x) c t). exact E. }
  assert (Hx : drop_while is_space (rev y) = rev y).
  { apply drop_while_fixed. destruct (rev y) as [|c t] eqn:E; [exact I|].
    assert (Hp : rev x = (take_while is_space (rev x) ++ y)%list) by apply take_drop.
    apply (f_equal (@rev ascii)) in Hp. rewrite rev_involutive, rev_app_distr, E in Hp.
    apply (drop_while_head is_space l c (t ++ rev (take_while is_space (rev x)))).
    exact Hp. }
  rewrite Hx, rev_involutive, Hy. reflexivity.
Qed.

Lemma strip_as_list (s : string) :
  strip s = string_of_list_ascii (strip_list (list_ascii_of_string s)).
Proof. reflexivity. Qed.

Lemma squeeze_fixed (l : list ascii) :
  forallb normal_char l = true -> single_spaced l = true -> squeeze false l = l.
Proof.
  induction l as [|c t IH]; intros Hn Hs; [reflexivity|].
  cbn [forallb] in Hn. apply andb_true_iff in Hn. destruct Hn as [Hc Hn].
  destruct (normal_char_facts c Hc) as (_ & _ & Hsp).
  assert (Ht : single_spaced t = true).
  { destruct t as [|d u]; [reflexivity|].
    change (negb (is_space c && is_space d) && single_spaced (d :: u) = true) in Hs.
    apply andb_true_iff in Hs. apply Hs. }
  cbn [squeeze]. destruct (is_space c) eqn:E.
  - rewrite (Hsp eq_refl). f_equal. rewrite squeeze_run.
    rewrite drop_while_fixed; [now apply IH|].
    destruct t as [|d u]; [exact I|].
    change (negb (is_space c && is_space d) && single_spaced (d :: u) = true) in Hs.
    apply andb_true_iff in Hs. destruct Hs as [Hs _].
    rewrite E in Hs. simpl in Hs. now apply negb_true_iff in Hs.
  - f_equal. now apply IH.
Qed.

Lemma smap_fixed (f : ascii -> ascii) (l : list ascii) :
  (forall c, In c l -> f c = c) ->
  smap f (string_of_list_ascii l) = string_of_list_ascii l.
Proof.
  induction l as [|c t IH]; intros H; simpl; [reflexivity|].
  rewrite (H c) by (left; reflexivity).
  rewrite IH by (intros x Hx; apply H; right; exact Hx). reflexivity.
Qed.

Lemma sfilter_fixed (p : ascii -> bool) (l : list ascii) :
  (forall c, In c l -> p c = true) ->
  sfilter p (string_of_list_ascii l) = string_of_list_ascii l.
Proof.
  induction l as [|c t IH]; intros H; simpl; [reflexivity|].
  rewrite (H c) by (left; reflexivity).
  rewrite IH by (intros x Hx; apply H; right; exact Hx). reflexivity.
Qed.

Lemma forallb_inside (p : ascii -> bool) (a l z : list ascii) :
  forallb p (a ++ l ++ z) = true -> forallb p l = true.
Proof.
  rewrite !forallb_app. intros H. apply andb_true_iff in H. destruct H as [_ H].
  apply andb_true_iff in H. apply H.
Qed.

(** The list of characters [_normalize_author] returns. *)
Lemma normalize_as_list (author : string) :
  _normalize_author author
  = string_of_list_ascii
      (strip_list
         (squeeze false
            (list_ascii_of_string
               (sfilter (fun c => negb (Not (fun c => is_word c || is_space c) c))
                        (lower author))))).
Proof.
  unfold _normalize_author. cbv zeta.
  rewrite sub_class_filter, sub_spaces, strip_as_list, list_ascii_of_string_of_list_ascii.
  reflexivity.
Qed.

Lemma normalize_list_normal (author : string) :
  let kept :=
    squeeze false
      (list_ascii_of_string
         (sfilter (fun c => negb (Not (fun c => is_word c || is_space c) c))
                  (lower author))) in
  forallb normal_char (strip_list kept) = true
  /\ single_spaced (strip_list kept) = true.
Proof.
  cbv zeta.
  match goal with |- context [strip_list ?k] => set (kept := k) end.
  destruct (strip_list_inside kept) as (a & z & E).
  assert (Hn : forallb normal_char kept = true).
  { apply squeeze_normal. intros c Hc Hs.
    apply in_sfilter in Hc. destruct Hc as [Hk Hc].
    apply in_lower in Hc. destruct Hc as (c' & _ & ->).
    unfold Not in Hk. rewrite negb_involutive in Hk.
    now apply kept_char_normal. }
  assert (Hs : single_spaced kept = true) by apply (squeeze_single _ false).
  rewrite E in Hn, Hs. split.
  - eapply forallb_inside. exact Hn.
  - apply single_spaced_app in Hs. destruct Hs as [_ Hs].
    apply single_spaced_app in Hs. apply Hs.
Qed.

(** X1. What [_normalize_author] returns is in normal form: every
    character is a lowercase word character or the space, no two
    whitespace characters are side by side, the text neither starts nor
    ends with whitespace, and normalising it again leaves it as it is. *)
Theorem normalize_author_normal_form (author : string) :
  let normalized := _normalize_author author in
  forallb normal_char (list_ascii_of_string normalized) = true
  /\ single_spaced (list_ascii_of_string normalized) = true
  /\ strip normalized = normalized
  /\ _normalize_author normalized = normalized.
Proof.
  cbv zeta. rewrite (normalize_as_list author).
  destruct (normalize_list_normal author) as [Hn Hs]. cbv zeta in Hn, Hs.
  match type of Hn with forallb _ (strip_list ?k) = _ => set (kept := k) in * end.
  rewrite list_ascii_of_string_of_list_ascii.
  assert (Hstrip : strip (string_of_list_ascii (strip_list kept))
                   = string_of_list_ascii (strip_list kept)).
  { rewrite strip_as_list, list_ascii_of_string_of_list_ascii, strip_list_fixed.
    reflexivity. }
  split; [exact Hn|]. split; [exact Hs|]. split; [exact Hstrip|].
  rewrite normalize_as_list.
  assert (F : forall c, In c (strip_list kept) -> normal_char c = true).
  { intros c Hc. rewrite forallb_forall in Hn. now apply Hn. }
  unfold lower. rewrite smap_fixed by (intros c Hc; apply normal_char_facts, F, Hc).
  rewrite sfilter_fixed.
  2:{ intros c Hc. unfold Not. rewrite negb_involutive.
      apply normal_char_facts, F, Hc. }
  rewrite list_ascii_of_string_of_list_ascii, squeeze_fixed by assumption.
  now rewrite strip_list_fixed.
Qed.

(** *** The name of an author *)

Lemma list_of_app (a b : string) :
  list_ascii_of_string (a ++ b)
  = (list_ascii_of_string a ++ list_ascii_of_string b)%list.
Proof. induction a as [|c t IH]; simpl; [reflexivity | now rewrite IH]. Qed.

Lemma prefix_empty (s : string) : String.prefix EmptyString s = true.
Proof. destruct s; reflexivity. Qed.

Lemma find_comma (s : string) :
  forall i, (0 <= i)%Z ->
    (In ","%char (list_ascii_of_string s) -> (i <= find_at "," s i)%Z)
    /\ (~ In ","%char (list_ascii_of_string s) -> find_at "," s i = (-1)%Z).
Proof.
  induction s as [|c t IH]; intros i Hi.
  - split; [intros [] | reflexivity].
  - cbn [find_at String.prefix]. destruct (ascii_dec "," c) as [<- | Hc].
    + rewrite prefix_empty. split; [lia|]. intros H. exfalso. apply H. left. reflexivity.
    + destruct (IH (i + 1)%Z ltac:(lia)) as [I1 I2]. split.
      * intros [E | Hin]; [congruence|]. specialize (I1 Hin). lia.
      * intros Hn. apply I2. intros Hin. apply Hn. right. exact Hin.
Qed.

Lemma contains_comma (s : string) :
  contains "," s = true <-> In ","%char (list_ascii_of_string s).
Proof.
  unfold contains, find. destruct (find_comma s 0 ltac:(lia)) as [H1 H2]. split.
  - intros H. destruct (in_dec ascii_dec ","%char (list_ascii_of_string s)) as [Hin | Hn];
      [exact Hin|]. rewrite (H2 Hn) in H. discriminate.
  - intros Hin. apply Z.leb_le. now apply H1.
Qed.

Lemma split_char_nonnil (sep : ascii) (s : string) : split_char sep s <> [].
Proof.
  induction s as [|c t IH]; simpl; [discriminate|].
  destruct (Ascii.eqb c sep); [discriminate|].
  destruct (split_char sep t); discriminate.
Qed.

Lemma split_comma_free (s : string) : comma_free s -> split_char "," s = [s].
Proof.
  unfold comma_free. induction s as [|c t IH]; intros H; [reflexivity|].
  cbn [split_char]. destruct (Ascii.eqb c ",") eqn:E.
  - apply Ascii.eqb_eq in E. exfalso. apply H. left. now subst.
  - rewrite IH; [reflexivity|]. intros Hin. apply H. right. exact Hin.
Qed.

Lemma split_comma_app (a rest : string) :
  comma_free a ->
  split_char "," (a ++ String "," rest) = a :: split_char "," rest.
Proof.
  unfold comma_free. induction a as [|c t IH]; intros H; [reflexivity|].
  cbn [String.append split_char]. destruct (Ascii.eqb c ",") eqn:E.
  - apply Ascii.eqb_eq in E. exfalso. apply H. left. now subst.
  - rewrite IH; [reflexivity|]. intros Hin. apply H. right. exact Hin.
Qed.

(** The fields of a split hold no separator, and there are two of them
    at least when the text has one. *)
Lemma split_char_fields (s : string) :
  Forall comma_free (split_char "," s)
  /\ (In ","%char (list_ascii_of_string s) -> 2 <= List.length (split_char "," s)).
Proof.
  induction s as [|c t [IH1 IH2]].
  - split; [repeat constructor; intros [] | intros []].
  - cbn [split_char]. destruct (Ascii.eqb c ",") eqn:E.
    + split.
      * constructor; [intros [] | exact IH1].
      * intros _. pose proof (split_char_nonnil "," t).
        destruct (split_char "," t); [congruence | simpl; lia].
    + apply Ascii.eqb_neq in E.
      pose proof (split_char_nonnil "," t) as Hn.
      destruct (split_char "," t) as [|h r]; [congruence|]. split.
      * inversion IH1; subst. constructor; [|assumption].
        intros [Hc | Hin]; [congruence | auto].
      * intros [Hc | Hin]; [congruence | now apply IH2].
Qed.

Lemma strip_inside (s : string) (c : ascii) :
  In c (list_ascii_of_string (strip s)) -> In c (list_ascii_of_string s).
Proof.
  rewrite strip_as_list, list_ascii_of_string_of_list_ascii. intros H.
  destruct (strip_list_inside (list_ascii_of_string s)) as (a & z & E).
  rewrite E. apply in_or_app. right. apply in_or_app. left. exact H.
Qed.

Lemma strip_comma_free (s : string) : comma_free s -> comma_free (strip s).
Proof. unfold comma_free. intros H Hin. apply H. now apply strip_inside. Qed.

Lemma strip_stripped (s : string) : stripped (strip s).
Proof.
  unfold stripped. rewrite !strip_as_list, list_ascii_of_string_of_list_ascii.
  now rewrite strip_list_fixed.
Qed.

Lemma stripped_one (c : ascii) : stripped (String c EmptyString) -> is_space c = false.
Proof.
  unfold stripped, strip. cbn [list_ascii_of_string drop_while].
  destruct (is_space c); [discriminate | reflexivity].
Qed.

Lemma initial_stripped (c : ascii) :
  is_space c = false -> stripped (String c ".").
Proof.
  intros H. unfold stripped, strip. cbn [list_ascii_of_string drop_while].
  rewrite H. cbn [rev app drop_while].
  replace (is_space ".") with false by reflexivity.
  cbn [rev app string_of_list_ascii]. reflexivity.
Qed.

(** What [initial_form] makes of two stripped, comma-free parts. *)
Lemma initial_form_shape (last first : string) :
  comma_free last -> comma_free first -> stripped last -> stripped first ->
  exists out, initial_form last first = Some out /\ last_first out.
Proof.
  intros Cl Cf Sl Sf. unfold initial_form.
  destruct (len first =? 1)%Z eqn:E.
  - destruct first as [|c [|c' t]].
    + discriminate.
    + unfold str_index. cbn [list_ascii_of_string]. rewrite index_head. cbn [bind].
      eexists. split; [reflexivity|]. exists last, (String c "."). repeat split.
      * exact Cl.
      * intros [H | [H | []]]; [|discriminate]. apply Cf. left. exact H.
      * exact Sl.
      * apply initial_stripped, stripped_one, Sf.
      * simpl. lia.
    + apply Z.eqb_eq in E. unfold len in E. simpl in E. lia.
  - eexists. split; [reflexivity|]. exists last, first. repeat split; auto.
    apply Z.eqb_neq in E. unfold len in E. lia.
Qed.

(** A name of that shape is formatted to itself. *)
Lemma format_last_first (s : string) (for_citation : bool) :
  last_first s -> _format_author_name s for_citation = Some s.
Proof.
  intros (last & first & -> & Cl & Cf & Sl & Sf & Hlen).
  unfold _format_author_name. cbv zeta.
  assert (Hc : contains "," (last ++ ", " ++ first) = true).
  { apply contains_comma. rewrite list_of_app. apply in_or_app. right. left. reflexivity. }
  rewrite Hc.
  change (last ++ ", " ++ first) with (last ++ String "," (String " " first)).
  rewrite split_comma_app by exact Cl.
  rewrite split_comma_free.
  2:{ intros [H | H]; [discriminate | now apply Cf]. }
  cbn [map List.length Nat.leb].
  rewrite index_head. cbn [bind]. rewrite index_second. cbn [bind].
  change (strip (String " " first)) with (strip first).
  rewrite Sl, Sf.
  assert (E : initial_form last first = Some (last ++ ", " ++ first)).
  { unfold initial_form. replace (len first =? 1)%Z with false; [reflexivity|].
    symmetry. apply Z.eqb_neq. unfold len. lia. }
  destruct for_citation; exact E.
Qed.

(** *** Words *)

Lemma split_ws_words (s : string) : Forall (word_of s) (split_ws s).
Proof.
  assert (W : forall c t l, Forall (word_of t) l -> Forall (word_of (String c t)) l).
  { intros c t l H. eapply Forall_impl; [|exact H].
    intros w [Hn Hw]. split; [exact Hn|]. intros x Hx.
    destruct (Hw x Hx). split; [assumption | right; assumption]. }
  assert (One : forall c t, is_space c = false -> word_of (String c t) (String c EmptyString)).
  { intros c t Hc. split; [discriminate|]. intros x [<- | []]. split; [exact Hc | now left]. }
  induction s as [|c t IH]; [constructor|].
  cbn [split_ws]. destruct (is_space c) eqn:Ec; [now apply W|].
  destruct t as [|c' t']; [constructor; [now apply One | constructor]|].
  destruct (is_space c') eqn:Ec'.
  - constructor; [now apply One | now apply W].
  - destruct (split_ws (String c' t')) as [|h r]; [constructor; [now apply One | constructor]|].
    inversion IH as [|? ? [Hn Hh] Hr]; subst. constructor; [|now apply W].
    split; [discriminate|]. intros x [<- | Hx].
    + split; [exact Ec | now left].
    + destruct (Hh x Hx). split; [assumption | right; assumption].
Qed.

Lemma stripped_iff (l : list ascii) :
  starts_clean l -> starts_clean (rev l) -> strip_list l = l.
Proof.
  intros H1 H2. unfold strip_list.
  rewrite (drop_while_fixed is_space l) by exact H1.
  rewrite (drop_while_fixed is_space (rev l)) by exact H2.
  apply rev_involutive.
Qed.

Lemma starts_clean_app (a b : list ascii) :
  a <> [] -> starts_clean a -> starts_clean (a ++ b).
Proof. destruct a; [congruence | auto]. Qed.

Lemma word_clean (s w : string) :
  word_of s w ->
  list_ascii_of_string w <> []
  /\ starts_clean (list_ascii_of_string w)
  /\ starts_clean (rev (list_ascii_of_string w)).
Proof.
  intros [Hn Hw]. split; [|split].
  - destruct w; [congruence | discriminate].
  - destruct w as [|c t]; [exact I|]. apply Hw. left. reflexivity.
  - destruct (rev (list_ascii_of_string w)) as [|c t] eqn:E; [exact I|].
    apply Hw. apply in_rev. rewrite E. left. reflexivity.
Qed.

Lemma join_words (s : string) (ws : list string) :
  ws <> [] -> Forall (word_of s) ws ->
  let l := list_ascii_of_string (join " " ws) in
  l <> [] /\ starts_clean l /\ starts_clean (rev l)
  /\ forall c, In c l -> c = " "%char \/ In c (list_ascii_of_string s).
Proof.
  cbv zeta. induction ws as [|w ws IH]; [congruence|]. intros _ H.
  inversion H as [|? ? Hw Hws]; subst.
  destruct (word_clean s w Hw) as (N & C1 & C2).
  destruct ws as [|w' ws'].
  - cbn [join String.concat]. repeat split; auto.
    intros c Hc. right. now apply Hw.
  - change (join " " (w :: w' :: ws')) with (w ++ " " ++ join " " (w' :: ws')).
    destruct (IH ltac:(discriminate) Hws) as (N' & C1' & C2' & In').
    rewrite !list_of_app. cbn [list_ascii_of_string].
    set (j := list_ascii_of_string (join " " (w' :: ws'))) in *.
    repeat split.
    + intros E. apply app_eq_nil in E. destruct E. congruence.
    + now apply starts_clean_app.
    + rewrite rev_app_distr. cbn [rev app].
      rewrite <- !app_assoc. apply starts_clean_app; [|exact C2'].
      intros E. apply (f_equal (@rev ascii)) in E. rewrite rev_involutive in E.
      simpl in E. congruence.
    + intros c Hc. apply in_app_or in Hc. destruct Hc as [Hc | Hc].
      * right. now apply Hw.
      * simpl in Hc. destruct Hc as [Hc | Hc]; [left; now subst | now apply In'].
Qed.

Lemma stripped_of_clean (s : string) :
  starts_clean (list_ascii_of_string s) ->
  starts_clean (rev (list_ascii_of_string s)) -> stripped s.
Proof.
  intros H1 H2. unfold stripped. rewrite strip_as_list, stripped_iff by assumption.
  apply string_of_list_ascii_of_string.
Qed.

Lemma slice_init {A : Type} (l : list A) (a : A) :
  slice (l ++ [a])%list None (Some (-1)%Z) = l.
Proof.
  unfold slice. cbv zeta. rewrite length_app. cbn [List.length].
  unfold bound. replace (-1 <? 0)%Z with true by reflexivity.
  replace (Z.to_nat (Z.max 0 (Z.of_nat (List.length l + 1) + -1)))
    with (List.length l) by lia.
  rewrite Nat.sub_0_r. cbn [skipn].
  rewrite firstn_app, Nat.sub_diag, firstn_all. cbn [firstn]. apply app_nil_r.
Qed.

(** X2. [_format_author_name] never raises, and a name it has formatted
    is formatted to itself: formatting twice is formatting once, whatever
    the flag [for_citation] of either call. *)
Theorem format_author_name_idempotent (name : string) (for_citation again : bool) :
  exists formatted,
    _format_author_name name for_citation = Some formatted
    /\ _format_author_name formatted again = Some formatted.
Proof.
  assert (FL : ~ In ","%char (list_ascii_of_string name) ->
               exists out,
                 (let parts := split_ws name in
                  if (2 <=? List.length parts)%nat
                  then last <- index parts (-1) ;;
                       let first := join " " (slice parts None (Some (-1)%Z)) in
                       if for_citation then initial_form last first
                       else initial_form last first
                  else Some name) = Some out
                 /\ (last_first out
                     \/ (out = name /\ (2 <=? List.length (split_ws name))%nat = false))).
  { intros Hc. cbv zeta. destruct (2 <=? List.length (split_ws name))%nat eqn:E.
    - pose proof (split_ws_words name) as W.
      destruct (split_ws name) as [|w0 ws0] eqn:Es; [discriminate|].
      destruct (@exists_last _ (w0 :: ws0) ltac:(discriminate)) as (init & last & El).
      rewrite El in *. rewrite index_last, slice_init. cbn [bind].
      apply Forall_app in W. destruct W as [Wi Wl].
      inversion Wl as [|? ? Wlast _]; subst.
      assert (Ni : init <> []).
      { intros ->. simpl in E. discriminate. }
      destruct (join_words name init Ni Wi) as (_ & J1 & J2 & J3).
      destruct (word_clean name last Wlast) as (_ & L1 & L2).
      destruct (initial_form_shape last (join " " init)) as (out & Ho & Hs).
      + intros Hin. apply Hc. now apply Wlast.
      + intros Hin. destruct (J3 _ Hin) as [Hsp | Hn]; [discriminate | auto].
      + now apply stripped_of_clean.
      + now apply stripped_of_clean.
      + exists out. split; [destruct for_citation; exact Ho | left; exact Hs].
    - exists name. auto. }
  unfold _format_author_name at 1. cbv zeta.
  destruct (contains "," name) eqn:Ec.
  - apply contains_comma in Ec.
    destruct (split_char_fields name) as [Hf Hl]. specialize (Hl Ec).
    destruct (split_char "," name) as [|x0 [|x1 rest]]; simpl in Hl; try lia.
    inversion Hf as [|? ? H0 Hf']; subst. inversion Hf' as [|? ? H1 _]; subst.
    cbn [map List.length Nat.leb].
    rewrite index_head. cbn [bind]. rewrite index_second. cbn [bind].
    destruct (initial_form_shape (strip x0) (strip x1)) as (out & Ho & Hs);
      try apply strip_comma_free; try apply strip_stripped; auto.
    exists out. split; [destruct for_citation; exact Ho|].
    now apply format_last_first.
  - assert (Hn : ~ In ","%char (list_ascii_of_string name)).
    { intros Hin. apply contains_comma in Hin. congruence. }
    destruct (FL Hn) as (out & Ho & [Hs | [-> Hw]]).
    + exists out. split; [exact Ho | now apply format_last_first].
    + exists name. split; [exact Ho|].
      unfold _format_author_name. cbv zeta. rewrite Ec, Hw. reflexivity.
Qed.

Lemma squeeze_starts_clean (l : list ascii) :
  starts_clean l -> starts_clean (squeeze false l).
Proof.
  destruct l as [|c t]; [auto|]. simpl. intros H. rewrite H. exact H.
Qed.

Lemma drop_while_clean (l : list ascii) : starts_clean (drop_while is_space l).
Proof.
  destruct (drop_while is_space l) as [|c t] eqn:E; [exact I|].
  apply (drop_while_head is_space l c t E).
Qed.

Lemma squeeze_lstrip (l : list ascii) :
  drop_while is_space (squeeze false l) = squeeze false (drop_while is_space l).
Proof.
  destruct l as [|c t]; [reflexivity|].
  cbn [squeeze drop_while]. destruct (is_space c) eqn:E.
  - cbn [drop_while]. replace (is_space " ") with true by reflexivity.
    rewrite squeeze_run. apply drop_while_fixed, squeeze_starts_clean, drop_while_clean.
  - cbn [drop_while squeeze]. now rewrite E.
Qed.

Lemma split_ws_lstrip (l : list ascii) :
  split_ws (string_of_list_ascii l)
  = split_ws (string_of_list_ascii (drop_while is_space l)).
Proof.
  induction l as [|c t IH]; [reflexivity|].
  cbn [drop_while]. destruct (is_space c) eqn:E; [|reflexivity].
  cbn [string_of_list_ascii split_ws]. now rewrite E.
Qed.

Lemma drop_while_app_clean (a b : list ascii) :
  drop_while is_space a <> [] ->
  drop_while is_space (a ++ b) = (drop_while is_space a ++ b)%list.
Proof.
  induction a as [|c t IH]; simpl; [congruence|].
  destruct (is_space c); [exact IH | reflexivity].
Qed.

Lemma drop_while_all (a b : list ascii) :
  drop_while is_space a = [] ->
  drop_while is_space (a ++ b) = drop_while is_space b.
Proof.
  induction a as [|c t IH]; simpl; [reflexivity|].
  destruct (is_space c); [exact IH | discriminate].
Qed.

Lemma rstrip_cons_clean (c : ascii) (x : list ascii) :
  is_space c = false -> rstrip_list (c :: x) = c :: rstrip_list x.
Proof.
  intros H. unfold rstrip_list. cbn [rev].
  destruct (drop_while is_space (rev x)) as [|d u] eqn:E.
  - rewrite drop_while_all by exact E. simpl. now rewrite H.
  - rewrite drop_while_app_clean by (rewrite E; discriminate).
    rewrite E, rev_app_distr. reflexivity.
Qed.

Lemma rstrip_cons_nonempty (c : ascii) (x : list ascii) :
  rstrip_list x <> [] -> rstrip_list (c :: x) = c :: rstrip_list x.
Proof.
  intros H. unfold rstrip_list in *. cbn [rev].
  rewrite drop_while_app_clean.
  - rewrite rev_app_distr. reflexivity.
  - intros E. rewrite E in H. now apply H.
Qed.

Lemma rstrip_space (c : ascii) :
  is_space c = true -> rstrip_list [c] = [].
Proof. intros H. unfold rstrip_list. simpl. now rewrite H. Qed.

Lemma join_cons (c : ascii) (h : string) (r : list string) :
  join " " (String c h :: r) = String c (join " " (h :: r)).
Proof. destruct r; reflexivity. Qed.

Lemma split_ws_clean (l : list ascii) :
  l <> [] -> starts_clean l -> split_ws (string_of_list_ascii l) <> [].
Proof.
  destruct l as [|c t]; [congruence|]. intros _ H. simpl in H.
  cbn [string_of_list_ascii split_ws]. rewrite H.
  destruct (string_of_list_ascii t) as [|c' t']; [discriminate|].
  destruct (is_space c'); [discriminate|].
  destruct (split_ws (String c' t')); discriminate.
Qed.

(** Squeezing the whitespace of a text and trimming it gives its words,
    one space apart. *)
Lemma squeeze_words (n : nat) :
  forall l,
    List.length l <= n -> starts_clean l ->
    rstrip_list (squeeze false l)
    = list_ascii_of_string (join " " (split_ws (string_of_list_ascii l))).
Proof.
  induction n as [|n IH]; intros l Hn Hc.
  - destruct l; [reflexivity | simpl in Hn; lia].
  - destruct l as [|c t]; [reflexivity|]. simpl in Hc.
    cbn [squeeze]. rewrite Hc. rewrite rstrip_cons_clean by exact Hc.
    cbn [string_of_list_ascii split_ws]. rewrite Hc.
    destruct t as [|c' u]; [reflexivity|].
    cbn [string_of_list_ascii]. destruct (is_space c') eqn:Ec'.
    + change (String c' (string_of_list_ascii u))
        with (string_of_list_ascii (c' :: u)).
      rewrite (split_ws_lstrip (c' :: u)).
      cbn [squeeze drop_while]. rewrite Ec'. rewrite squeeze_run.
      set (l' := drop_while is_space u).
      assert (Hl' : List.length l' <= n).
      { pose proof (drop_while_length is_space u). simpl in Hn. unfold l'. lia. }
      specialize (IH l' Hl' (drop_while_clean u)).
      destruct l' as [|d v] eqn:El'.
      * reflexivity.
      * assert (Hd : is_space d = false).
        { pose proof (drop_while_clean u) as Hd. fold l' in Hd. rewrite El' in Hd.
          exact Hd. }
        rewrite rstrip_cons_nonempty.
        2:{ cbn [squeeze]. rewrite Hd, rstrip_cons_clean by exact Hd. discriminate. }
        rewrite IH.
        pose proof (split_ws_clean (d :: v) ltac:(discriminate) Hd) as Hw.
        destruct (split_ws (string_of_list_ascii (d :: v))) as [|h r]; [congruence|].
        reflexivity.
    + change (String c' (string_of_list_ascii u))
        with (string_of_list_ascii (c' :: u)).
      rewrite (IH (c' :: u)) by (simpl in *; first [lia | exact Ec']).
      pose proof (split_ws_clean (c' :: u) ltac:(discriminate) Ec') as Hw.
      destruct (split_ws (string_of_list_ascii (c' :: u))) as [|h r]; [congruence|].
      rewrite join_cons. reflexivity.
Qed.

Lemma normalize_as_words (author : string) :
  _normalize_author author
  = join " " (split_ws (sfilter (fun c => is_word c || is_space c) (lower author))).
Proof.
  rewrite normalize_as_list.
  replace (sfilter (fun c => negb (Not (fun c => is_word c || is_space c) c))
                   (lower author))
    with (sfilter (fun c => is_word c || is_space c) (lower author))
    by (apply sfilter_ext; intros c _; unfold Not; now rewrite negb_involutive).
  set (kept := sfilter _ _).
  unfold strip_list. rewrite squeeze_lstrip.
  change (rev (drop_while is_space (rev ?x))) with (rstrip_list x).
  rewrite (squeeze_words (List.length (drop_while is_space (list_ascii_of_string kept))))
    by (auto using drop_while_clean).
  rewrite string_of_list_ascii_of_string.
  rewrite <- split_ws_lstrip, string_of_list_ascii_of_string. reflexivity.
Qed.

(** Words joined by a space can be read back. *)
Lemma app_sep_inj (c : ascii) (a a' x x' : list ascii) :
  ~ In c a -> ~ In c a' ->
  (a ++ c :: x = a' ++ c :: x')%list -> a = a' /\ x = x'.
Proof.
  revert a'. induction a as [|d t IH]; intros a' Ha Ha' E.
  - destruct a' as [|d' t']; simpl in E.
    + injection E as ->. auto.
    + injection E as -> _. exfalso. apply Ha'. left. reflexivity.
  - destruct a' as [|d' t']; simpl in E.
    + injection E as -> _. exfalso. apply Ha. left. reflexivity.
    + injection E as -> E. destruct (IH t') as [-> ->]; auto.
      * intros H. apply Ha. right. exact H.
      * intros H. apply Ha'. right. exact H.
Qed.

Lemma join_list (w : string) (ws : list string) :
  list_ascii_of_string (join " " (w :: ws))
  = match ws with
    | [] => list_ascii_of_string w
    | _ :: _ => (list_ascii_of_string w ++ " "%char :: list_ascii_of_string (join " " ws))%list
    end.
Proof.
  destruct ws as [|w' r]; [reflexivity|].
  change (join " " (w :: w' :: r)) with (w ++ " " ++ join " " (w' :: r)).
  now rewrite !list_of_app.
Qed.

Lemma word_no_space (s w : string) :
  word_of s w -> ~ In " "%char (list_ascii_of_string w).
Proof. intros [_ H] Hin. destruct (H _ Hin) as [Hs _]. discriminate. Qed.

Lemma join_inj (s s' : string) (ws ws' : list string) :
  Forall (word_of s) ws -> Forall (word_of s') ws' ->
  join " " ws = join " " ws' -> ws = ws'.
Proof.
  intros H. revert ws'. induction H as [|w r Hw Hr IH]; intros ws' H' E.
  - destruct H' as [|w' r' Hw' _]; [reflexivity|].
    apply (f_equal list_ascii_of_string) in E. rewrite join_list in E.
    destruct Hw' as [Hn _]. destruct w'; [congruence|].
    destruct r'; discriminate.
  - destruct H' as [|w' r' Hw' Hr'].
    + apply (f_equal list_ascii_of_string) in E. rewrite join_list in E.
      destruct Hw as [Hn _]. destruct w; [congruence|].
      destruct r; discriminate.
    + apply (f_equal list_ascii_of_string) in E. rewrite !join_list in E.
      pose proof (word_no_space _ _ Hw) as N.
      pose proof (word_no_space _ _ Hw') as N'.
      assert (L : forall a b : string,
                 list_ascii_of_string a = list_ascii_of_string b -> a = b).
      { intros a b Hab. apply (f_equal string_of_list_ascii) in Hab.
        now rewrite !string_of_list_ascii_of_string in Hab. }
      destruct r as [|x r]; destruct r' as [|x' r'].
      * f_equal. now apply L.
      * exfalso. apply N. rewrite E. apply in_or_app. right. left. reflexivity.
      * exfalso. apply N'. rewrite <- E. apply in_or_app. right. left. reflexivity.
      * apply app_sep_inj in E; [|assumption|assumption].
        destruct E as [E1 E2]. f_equal; [now apply L|].
        apply IH; [exact Hr' | now apply L].
Qed.

(** X3. The normal form of an author is the words of the name, once
    lowercased and rid of every character that is neither a word character
    nor whitespace, one space apart ([" ".join(kept.split())]); so two
    authors have the same normal form if and only if they have the same
    such words. *)
Theorem normalize_author_words (a b : string) :
  let words := fun author =>
    split_ws (sfilter (fun c => is_word c || is_space c) (lower author)) in
  _normalize_author a = join " " (words a)
  /\ (_normalize_author a = _normalize_author b <-> words a = words b).
Proof.
  cbv zeta. split; [apply normalize_as_words|].
  rewrite !normalize_as_words. split.
  - apply (join_inj _ _ _ _ (split_ws_words _) (split_ws_words _)).
  - now intros ->.
Qed.

(** *** Citations and entries *)

Lemma name_flag (name : string) :
  _format_author_name name false = _format_author_name name true.
Proof. reflexivity. Qed.

(** X4. For one to five authors the citation is the author list of the
    reference entry, as [_format_author_list] gives it, between
    parentheses with a comma and the year (or n.d.) after it; it raises
    when [str] refuses the year. *)
Theorem citation_uses_author_list (ref : ParsedReference) :
  1 <= List.length (lget (f_authors ref)) <= 5 ->
  exists author_list,
    _format_author_list (lget (f_authors ref)) false = Some author_list
    /\ generate_citation ref
       = (year <- year_or_nd (iget (f_year ref) PyNone) ;;
          Some ("(" ++ author_list ++ ", " ++ year ++ ")")).
Proof.
  intros Hlen. unfold generate_citation, _format_author_list. cbv zeta.
  destruct (lget (f_authors ref)) as [|a1 [|a2 [|a3 rest]]]; simpl in Hlen; try lia.
  - simpl nonnil. simpl negb. rewrite !andb_false_l. cbv iota.
    simpl List.length. simpl Nat.eqb. cbv iota.
    rewrite index_head. cbn [bind]. rewrite name_flag.
    destruct (format_author_name_total a1 true) as [n1 ->]. cbn [bind].
    exists n1. split; [reflexivity|]. unfold year_or_nd.
    destruct (truthy _); reflexivity.
  - simpl nonnil. simpl negb. rewrite !andb_false_l. cbv iota.
    simpl List.length. simpl Nat.eqb. simpl Nat.leb. cbv iota.
    cbn [mapM]. rewrite !name_flag.
    destruct (format_author_name_total a1 true) as [n1 H1].
    destruct (format_author_name_total a2 true) as [n2 H2].
    rewrite index_head. cbn [bind]. rewrite H1. cbn [bind].
    rewrite index_second. cbn [bind]. rewrite H2. cbn [bind].
    simpl List.length. simpl Nat.eqb. cbv iota.
    rewrite index_head. cbn [bind]. rewrite index_second. cbn [bind].
    exists (n1 ++ " & " ++ n2). split; [reflexivity|]. unfold year_or_nd.
    destruct (truthy _); [destruct (str _)|]; cbn [bind];
      rewrite ?append_assoc; reflexivity.
  - assert (E1 : (List.length (a1 :: a2 :: a3 :: rest) =? 1)%nat = false) by reflexivity.
    assert (E2 : (List.length (a1 :: a2 :: a3 :: rest) =? 2)%nat = false) by reflexivity.
    assert (E5 : (List.length (a1 :: a2 :: a3 :: rest) <=? 5)%nat = true)
      by (apply Nat.leb_le; simpl; lia).
    assert (E7 : (List.length (a1 :: a2 :: a3 :: rest) <=? 7)%nat = true)
      by (apply Nat.leb_le; simpl; lia).
    rewrite E1, E2, E5, E7. simpl nonnil. simpl negb. rewrite !andb_false_l. cbv iota.
    destruct (mapM_total (fun a => _format_author_name a true) (a1 :: a2 :: a3 :: rest))
      as (fs & Hfs & Hl); [intros a; apply format_author_name_total|].
    change (mapM (fun a => _format_author_name a false) (a1 :: a2 :: a3 :: rest))
      with (mapM (fun a => _format_author_name a true) (a1 :: a2 :: a3 :: rest)).
    rewrite Hfs. cbn [bind].
    assert (F2 : (List.length fs =? 2)%nat = false)
      by (rewrite Hl; reflexivity).
    rewrite F2.
    destruct (index_last_total fs) as [l Hlast]; [intros ->; discriminate|].
    rewrite Hlast. cbn [bind].
    eexists. split; [reflexivity|]. unfold year_or_nd.
    destruct (truthy _); reflexivity.
Qed.

Lemma citation_uses_author_list_witness :
  exists author_list,
    _format_author_list (lget (f_authors (ref_with ["Smith, J."; "Jones, M."] (Val 2020%Z))))
                        false = Some author_list
    /\ generate_citation (ref_with ["Smith, J."; "Jones, M."] (Val 2020%Z))
       = Some ("(" ++ author_list ++ ", " ++ "2020" ++ ")").
Proof.
  apply (citation_uses_author_list (ref_with ["Smith, J."; "Jones, M."] (Val 2020%Z))).
  simpl. lia.
Defined.

(** *** The type of a reference *)

Lemma lower_char_idem (c : ascii) : lower_char (lower_char c) = lower_char c.
Proof. destruct c as [[] [] [] [] [] [] [] []]; reflexivity. Qed.

Lemma lower_idem (s : string) : lower (lower s) = lower s.
Proof.
  unfold lower. induction s as [|c t IH]; simpl; [reflexivity|].
  now rewrite lower_char_idem, IH.
Qed.

(** X5. [generate_reference] reads the type whatever its case, formats
    the type website as it formats web, and formats a reference without
    a type as a book. *)
Theorem reference_type_dispatch (now : string) (ref : ParsedReference) :
  (forall t, generate_reference now (set_type t ref)
             = generate_reference now (set_type (lower t) ref))
  /\ generate_reference now (set_type "website" ref)
     = generate_reference now (set_type "web" ref)
  /\ (f_type ref = None ->
      generate_reference now ref = generate_reference now (set_type "book" ref)).
Proof.
  split; [|split].
  - intros t. unfold generate_reference, ref_type_of. cbn [f_type set_type].
    rewrite lower_idem.
    destruct (String.eqb (lower t) "book"); [reflexivity|].
    destruct (String.eqb (lower t) "article"); [reflexivity|].
    destruct (String.eqb (lower t) "web" || String.eqb (lower t) "website");
      [reflexivity|].
    destruct (String.eqb (lower t) "chapter"); reflexivity.
  - reflexivity.
  - intros H. unfold generate_reference, ref_type_of. rewrite H. reflexivity.
Qed.

(** *** The reference list, piece by piece *)

Lemma join_app (sep : string) (a b : list string) :
  a <> [] -> b <> [] ->
  join sep (a ++ b) = join sep a ++ sep ++ join sep b.
Proof.
  intros Ha Hb. induction a as [|x a IH]; [congruence|].
  destruct a as [|y a].
  - simpl. destruct b; [congruence | reflexivity].
  - change (join sep ((x :: y :: a) ++ b)) with (x ++ sep ++ join sep ((y :: a) ++ b)).
    rewrite IH by discriminate.
    change (join sep (x :: y :: a)) with (x ++ sep ++ join sep (y :: a)).
    now rewrite !append_assoc.
Qed.

Lemma mapM_app {A B : Type} (f : A -> option B) (l1 l2 : list A) :
  mapM f (l1 ++ l2) = (x <- mapM f l1 ;; y <- mapM f l2 ;; Some (x ++ y)%list).
Proof.
  induction l1 as [|a l1 IH]; simpl.
  - destruct (mapM f l2); reflexivity.
  - destruct (f a); [|reflexivity]. simpl. rewrite IH.
    destruct (mapM f l1); [|reflexivity]. simpl.
    destruct (mapM f l2); reflexivity.
Qed.

Lemma mapM_length {A B : Type} (f : A -> option B) (l : list A) (bs : list B) :
  mapM f l = Some bs -> List.length bs = List.length l.
Proof.
  revert bs. induction l as [|a t IH]; intros bs; simpl.
  - intros H. injection H as <-. reflexivity.
  - destruct (f a); [|discriminate]. simpl.
    destruct (mapM f t) as [xs|]; [|discriminate]. simpl.
    intros H. injection H as <-. simpl. now rewrite (IH xs).
Qed.

(** X6. In every output format the reference list of two non-empty
    lists of references put one after the other is the list of the first,
    a newline, and the list of the second, and it raises when one of the
    two does: an entry does not depend on the entries around it. *)
Theorem reference_list_app (now format_output : string)
    (l1 l2 : list ParsedReference) :
  l1 <> [] -> l2 <> [] ->
  generate_reference_list now (l1 ++ l2) format_output
  = (s1 <- generate_reference_list now l1 format_output ;;
     s2 <- generate_reference_list now l2 format_output ;;
     Some (s1 ++ nl ++ s2)).
Proof.
  intros H1 H2. unfold generate_reference_list.
  match goal with |- context [mapM ?f l1] => set (wrap := f) end.
  rewrite mapM_app.
  destruct (mapM wrap l1) as [x1|] eqn:E1; cbn [bind]; [|reflexivity].
  destruct (mapM wrap l2) as [x2|] eqn:E2; cbn [bind]; [|reflexivity].
  f_equal. apply join_app.
  - intros ->. apply mapM_length in E1. destruct l1; [congruence | discriminate].
  - intros ->. apply mapM_length in E2. destruct l2; [congruence | discriminate].
Qed.

Lemma reference_list_app_witness :
  generate_reference_list "November 04, 2026" ([book_2020] ++ [book_undated]) "html"
  = (s1 <- generate_reference_list "November 04, 2026" [book_2020] "html" ;;
     s2 <- generate_reference_list "November 04, 2026" [book_undated] "html" ;;
     Some (s1 ++ nl ++ s2)).
Proof.
  apply (reference_list_app "November 04, 2026" "html" [book_2020] [book_undated]);
    discriminate.
Defined.

(** *** What a pattern matches *)

Section Language.
Variable G : nat -> string -> Prop.

Lemma reaches_here r st : lang r [] -> must_set r = [] -> reaches G r st st.
Proof.
  intros H M. exists [], []. rewrite M. repeat split; auto. intros x [].
Qed.

Lemma reaches_seq a b st st1 st2 :
  reaches G a st st1 -> reaches G b st1 st2 -> reaches G (Seq a b) st st2.
Proof.
  intros (cs & new & L & Hb & Ha & Hg & Hf & Hm) (ds & new' & L' & Hb' & Ha' & Hg' & Hf' & Hm').
  exists (cs ++ ds)%list, (new' ++ new)%list. repeat split.
  - exists cs, ds. auto.
  - rewrite Hb', Hb, rev_app_distr, app_assoc. reflexivity.
  - rewrite Ha, Ha', app_assoc. reflexivity.
  - rewrite Hg', Hg, app_assoc. reflexivity.
  - apply Forall_app. auto.
  - simpl. rewrite map_app. intros n Hn. apply in_app_or in Hn. apply in_or_app.
    destruct Hn as [Hn | Hn]; [right; now apply Hm | left; now apply Hm'].
Qed.

Lemma reaches_star_more a st st1 st2 :
  reaches G a st st1 -> reaches G (Star a) st1 st2 -> reaches G (Star a) st st2.
Proof.
  intros (cs & new & L & Hb & Ha & Hg & Hf & Hm) (ds & new' & L' & Hb' & Ha' & Hg' & Hf' & Hm').
  exists (cs ++ ds)%list, (new' ++ new)%list. repeat split.
  - simpl. apply star_more; assumption.
  - rewrite Hb', Hb, rev_app_distr, app_assoc. reflexivity.
  - rewrite Ha, Ha', app_assoc. reflexivity.
  - rewrite Hg', Hg, app_assoc. reflexivity.
  - apply Forall_app. auto.
  - intros n [].
Qed.

Lemma consumed_reaches (st st' : mstate) (cs : list ascii) :
  before st' = (rev cs ++ before st)%list -> consumed st st' = string_of_list_ascii cs.
Proof.
  intros Hb. unfold consumed. rewrite Hb, length_app, length_rev.
  replace (List.length cs + List.length (before st) - List.length (before st))
    with (List.length (rev cs)) by (rewrite length_rev; lia).
  rewrite firstn_app, Nat.sub_diag, firstn_all. simpl.
  rewrite app_nil_r, rev_involutive. reflexivity.
Qed.

Lemma star_loop_lang a (body : mstate -> (mstate -> option mstate) -> option mstate) :
  (forall st k x, body st k = Some x -> exists st', reaches G a st st' /\ k st' = Some x) ->
  forall n st k x,
    star_loop body n st k = Some x ->
    exists st', reaches G (Star a) st st' /\ k st' = Some x.
Proof.
  intros Hbody. induction n as [|n IH]; intros st k x H; simpl in H.
  - exists st. split; [apply reaches_here; [constructor | reflexivity] | exact H].
  - destruct (body st _) as [r|] eqn:E.
    + injection H as ->. apply Hbody in E. destruct E as (st1 & H1 & E1).
      destruct (Nat.ltb _ _); [|discriminate].
      apply IH in E1. destruct E1 as (st2 & H2 & E2).
      exists st2. split; [|exact E2]. eapply reaches_star_more; eassumption.
    + exists st. split; [apply reaches_here; [constructor | reflexivity] | exact H].
Qed.

(** A successful run of [r] reads a text of [lang r] and sets its groups
    accordingly. *)
Theorem run_lang (r : regex) :
  groups_in G r ->
  forall st k x,
    run r st k = Some x -> exists st', reaches G r st st' /\ k st' = Some x.
Proof.
  induction r as [|p|a IHa b IHb|a IHa b IHb|a IHa| | |g a IHa];
    intros Hg st k x H; simpl in H.
  - exists st. split; [now apply reaches_here | exact H].
  - destruct (after st) as [|c t] eqn:Ea; [discriminate|].
    destruct (p c) eqn:Ep; [|discriminate].
    eexists. split; [|exact H].
    exists [c], []. simpl. split; [exists c; auto|].
    repeat split; auto. intros n [].
  - destruct Hg as [Hga Hgb].
    apply (IHa Hga) in H. destruct H as (st1 & H1 & H).
    apply (IHb Hgb) in H. destruct H as (st2 & H2 & H).
    exists st2. split; [|exact H]. eapply reaches_seq; eassumption.
  - destruct Hg as [Hga Hgb].
    destruct (run a st k) as [r|] eqn:E.
    + injection H as ->. apply (IHa Hga) in E. destruct E as (st1 & H1 & E1).
      exists st1. split; [|exact E1].
      destruct H1 as (cs & new & L & Hb & Ha & Hgr & Hf & _).
      exists cs, new. simpl. repeat split; auto. intros n [].
    + apply (IHb Hgb) in H. destruct H as (st1 & H1 & E1).
      exists st1. split; [|exact E1].
      destruct H1 as (cs & new & L & Hb & Ha & Hgr & Hf & _).
      exists cs, new. simpl. repeat split; auto. intros n [].
  - simpl in Hg. apply (star_loop_lang a (run a)) in H; [exact H|].
    intros st0 k0 x0 H0. exact (IHa Hg st0 k0 x0 H0).
  - destruct (at_boundary st); [|discriminate].
    exists st. split; [now apply reaches_here | exact H].
  - destruct (before st); [|discriminate].
    exists st. split; [now apply reaches_here | exact H].
  - destruct Hg as [Hgn Hga].
    apply (IHa Hga) in H. destruct H as (st1 & H1 & E1).
    eexists. split; [|exact E1].
    destruct H1 as (cs & new & L & Hb & Ha & Hgr & Hf & Hm).
    exists cs, ((g, consumed st st1) :: new). simpl. repeat split; auto.
    + now rewrite Hgr.
    + constructor; [|exact Hf]. simpl.
      rewrite (consumed_reaches st st1 cs Hb). now apply Hgn.
    + intros n [Hn | Hn]; [left; exact Hn | right; now apply Hm].
Qed.

(** What [re.search] returns: the text of the match is in [lang r], and
    the groups of the match object satisfy [G]. *)
Lemma search_lang (r : regex) :
  groups_in G r ->
  forall aft bef m,
    search_from r bef aft = Some m ->
    exists cs,
      lang r cs /\ m_group0 m = string_of_list_ascii cs
      /\ Forall (fun g => G (fst g) (snd g)) (m_groups m)
      /\ incl (must_set r) (map fst (m_groups m)).
Proof.
  intros Hg.
  assert (Hhere : forall bef aft st',
             match_here r (MState bef aft []) = Some st' ->
             exists cs,
               lang r cs
               /\ m_group0 (mk_match (MState bef aft []) st') = string_of_list_ascii cs
               /\ Forall (fun g => G (fst g) (snd g))
                         (m_groups (mk_match (MState bef aft []) st'))
               /\ incl (must_set r) (map fst (m_groups (mk_match (MState bef aft []) st')))).
  { intros bef aft st' E. apply (run_lang r Hg) in E.
    destruct E as (st1 & H1 & E1). injection E1 as ->.
    destruct H1 as (cs & new & L & Hb & Ha & Hgr & Hf & Hm).
    exists cs. simpl. rewrite (consumed_reaches _ _ cs Hb).
    simpl in Hgr. rewrite app_nil_r in Hgr. rewrite Hgr. auto. }
  induction aft as [|c t IH]; intros bef m H; simpl in H.
  - destruct (match_here r _) as [st'|] eqn:E; [|discriminate].
    injection H as <-. now apply Hhere.
  - destruct (match_here r _) as [st'|] eqn:E.
    + injection H as <-. now apply Hhere.
    + apply IH in H. exact H.
Qed.

End Language.

(** *** The fields the parser returns *)

Lemma slice_head_length {A : Type} (l : list A) (n : nat) :
  List.length (slice l None (Some (Z.of_nat n))) <= n.
Proof.
  unfold slice. rewrite length_firstn. unfold bound.
  destruct (Z.of_nat n <? 0)%Z eqn:E; [apply Z.ltb_lt in E; lia|].
  rewrite Nat2Z.id. lia.
Qed.

Lemma finditer_search (r : regex) (aft bef : list ascii) :
  finditer_from r bef aft 0 = [] <-> search_from r bef aft = None.
Proof.
  revert bef. induction aft as [|c t IH]; intros bef; simpl.
  - destruct (match_here r _); split; congruence.
  - destruct (match_here r _); [split; discriminate|]. apply IH.
Qed.

Lemma findall_search (r : regex) (s : string) :
  nonnil (findall r s) = true <-> search r s <> None.
Proof.
  unfold findall, search.
  pose proof (finditer_search r (list_ascii_of_string s) []) as H.
  destruct (finditer_from r [] (list_ascii_of_string s) 0) eqn:E; simpl.
  - split; [discriminate|]. intros Hn. exfalso. apply Hn. now apply H.
  - split; [|reflexivity]. intros _ Hn. apply H in Hn. discriminate.
Qed.

(** *** The year *)

Lemma digit_value (c : ascii) :
  is_digit c = true -> (0 <= Z.of_N (code c - 48) <= 9)%Z.
Proof.
  unfold is_digit, in_range. intros H. apply andb_prop in H. destruct H as [H1 H2].
  apply N.leb_le in H1, H2. lia.
Qed.

Lemma year_match_text (cs : list ascii) :
  lang year_pattern cs ->
  exists y, int (string_of_list_ascii cs) = Some y /\ (1900 <= y <= 2099)%Z.
Proof.
  unfold year_pattern, digit. cbn [lang Rep Lit].
  intros (x0 & y0 & -> & -> & x1 & y1 & -> & H1 & x2 & y2 & -> & H2 & ->).
  destruct H2 as (d1 & r2 & -> & (c3 & -> & D3) & d2 & r3 & -> & (c4 & -> & D4) & ->).
  pose proof (digit_value c3 D3). pose proof (digit_value c4 D4).
  destruct H1 as [H1 | H1];
    destruct H1 as (a1 & a2 & -> & (c1 & -> & E1) & b1 & b2 & -> & (c2 & -> & E2) & ->);
    apply Ascii.eqb_eq in E1, E2; subst c1 c2;
    cbn [app string_of_list_ascii int int_digits];
    change (is_digit "1") with true; change (is_digit "9") with true;
    change (is_digit "2") with true; change (is_digit "0") with true;
    cbv iota; rewrite D3, D4; eexists; (split; [reflexivity|]);
    change (Z.of_N (code "1" - 48)) with 1%Z;
    change (Z.of_N (code "9" - 48)) with 9%Z;
    change (Z.of_N (code "2" - 48)) with 2%Z;
    change (Z.of_N (code "0" - 48)) with 0%Z; lia.
Qed.

Lemma year_groups : groups_in (fun _ _ => True) year_pattern.
Proof. unfold year_pattern, digit. cbn [groups_in Rep Lit]. auto 10. Qed.

Lemma extract_year_range (raw_text : string) (p : ParsedReference) :
  exists p1,
    extract_year raw_text p = Some p1
    /\ ((search year_pattern raw_text = None /\ p1 = p)
        \/ exists y, search year_pattern raw_text <> None
                     /\ p1 = set_year (Val y) p /\ (1900 <= y <= 2099)%Z).
Proof.
  unfold extract_year. cbv zeta.
  destruct (nonnil (findall year_pattern raw_text)) eqn:En.
  - destruct (search year_pattern raw_text) as [m|] eqn:E.
    + destruct (search_lang _ year_pattern year_groups _ _ _ E) as (cs & L & Hg0 & _).
      destruct (year_match_text cs L) as (y & Hy & Hr).
      cbn [group fmt_group]. rewrite Hg0, Hy. cbn [bind].
      eexists. split; [reflexivity|]. right. exists y. split; [discriminate | auto].
    + apply findall_search in En. congruence.
  - exists p. split; [reflexivity|]. left. split; [|reflexivity].
    destruct (search year_pattern raw_text) eqn:E; [|reflexivity].
    assert (H : nonnil (findall year_pattern raw_text) = true)
      by (apply findall_search; congruence).
    congruence.
Qed.

(** The steps [parse_reference_text] goes through, none of which raises. *)
Lemma parse_steps (raw_text : string) :
  exists p1 author_section,
    ((search year_pattern raw_text = None
      /\ p1 = extract_url raw_text (extract_doi raw_text initial_parsed))
     \/ exists y, search year_pattern raw_text <> None
                  /\ p1 = set_year (Val y)
                            (extract_url raw_text (extract_doi raw_text initial_parsed))
                  /\ (1900 <= y <= 2099)%Z)
    /\ author_section_of (before_year_of raw_text (iget (f_year p1) PyNone))
       = Some author_section
    /\ parse_reference_text raw_text
       = Some (extract_pages raw_text
                 (extract_volume raw_text
                    (extract_source raw_text
                       (extract_title raw_text author_section
                          (extract_authors author_section p1))))).
Proof.
  destruct (extract_year_range raw_text
              (extract_url raw_text (extract_doi raw_text initial_parsed)))
    as (p1 & Hy & Hp1).
  destruct (author_section_total (before_year_of raw_text (iget (f_year p1) PyNone)))
    as [sec Hsec].
  exists p1, sec. repeat split; auto.
  unfold parse_reference_text. cbv zeta. rewrite Hy. cbn [bind].
  rewrite Hsec. reflexivity.
Qed.

(** X7. The year [parse_reference_text] returns is [None] exactly when
    the text has no match of [\b(19|20)\d{2}\b]; otherwise it is an integer
    from 1900 to 2099. *)
Theorem parsed_year_range (raw_text : string) :
  exists parsed,
    parse_reference_text raw_text = Some parsed
    /\ ((search year_pattern raw_text = None /\ f_year parsed = Null)
        \/ exists y, search year_pattern raw_text <> None
                     /\ f_year parsed = Val y /\ (1900 <= y <= 2099)%Z).
Proof.
  destruct (parse_steps raw_text) as (p1 & sec & Hp1 & _ & ->).
  eexists. split; [reflexivity|]. frame f_year.
  destruct Hp1 as [[Hn ->] | (y & Hs & -> & Hr)].
  - left. split; [exact Hn|]. frame f_year. reflexivity.
  - right. exists y. auto.
Qed.

(** X8. The type [parse_reference_text] returns is article when the
    text contains Journal or Review, else web when it has a URL, else
    book: the two words win over the URL. *)
Theorem parsed_type (raw_text : string) :
  exists parsed,
    parse_reference_text raw_text = Some parsed
    /\ f_type parsed
       = Some (if contains "Journal" raw_text || contains "Review" raw_text
               then "article"
               else match search url_pattern raw_text with
                    | Some _ => "web"
                    | None => "book"
                    end).
Proof.
  destruct (parse_steps raw_text) as (p1 & sec & Hp1 & _ & ->).
  eexists. split; [reflexivity|]. frame f_type.
  unfold extract_source. cbv zeta.
  destruct (contains "Journal" raw_text || contains "Review" raw_text).
  - destruct (search journal_pattern raw_text); reflexivity.
  - frame f_type.
    assert (E : f_type p1 = f_type (extract_url raw_text (extract_doi raw_text initial_parsed)))
      by (destruct Hp1 as [[_ ->] | (y & _ & -> & _)]; reflexivity).
    rewrite E. unfold extract_url.
    destruct (search url_pattern raw_text); [reflexivity|]. frame f_type. reflexivity.
Qed.

(** X9. [parse_reference_text] returns five authors at most, and a
    title only together with a year; a title it returns is longer than
    ten characters. *)
Theorem parsed_bounds (raw_text : string) :
  exists parsed authors,
    parse_reference_text raw_text = Some parsed
    /\ f_authors parsed = Some authors
    /\ List.length authors <= 5
    /\ match f_title parsed with
       | Val title => (10 < len title)%Z /\ f_year parsed <> Null
       | Null => True
       | Missing => False
       end.
Proof.
  destruct (parse_steps raw_text) as (p1 & sec & Hp1 & _ & ->).
  assert (A1 : f_authors p1 = Some [])
    by (destruct Hp1 as [[_ ->] | (y & _ & -> & _)]; frame f_authors; reflexivity).
  assert (T1 : f_title p1 = Null)
    by (destruct Hp1 as [[_ ->] | (y & _ & -> & _)]; frame f_title; reflexivity).
  assert (A2 : exists l, f_authors (extract_authors sec p1) = Some l
                         /\ List.length l <= 5).
  { unfold extract_authors. cbv zeta. destruct (nonnil _).
    - eexists. split; [reflexivity|]. apply (slice_head_length _ 5).
    - exists []. split; [exact A1 | simpl; lia]. }
  destruct A2 as (l & Hl & Hlen).
  eexists. exists l. split; [reflexivity|].
  frame f_authors. frame f_year. frame f_title.
  split; [exact Hl|]. split; [exact Hlen|].
  unfold extract_title. cbv zeta. frame f_year.
  destruct (truthy (iget (f_year p1) PyNone)) eqn:Ey.
  - destruct (nonempty _ && (10 <? _)%Z) eqn:Ec.
    + cbn [f_title set_title]. apply andb_prop in Ec. destruct Ec as [_ Ec].
      apply Z.ltb_lt in Ec. split; [exact Ec|].
      intros E. rewrite E in Ey. discriminate.
    + frame f_title. now rewrite T1.
  - frame f_title. now rewrite T1.
Qed.

(** *** DOI and URL *)

Lemma lower_char_space (c : ascii) : is_space (lower_char c) = is_space c.
Proof. destruct c as [[] [] [] [] [] [] [] []]; reflexivity. Qed.

Lemma eq_nocase_space (a c : ascii) :
  is_space a = false -> eq_nocase a c = true -> Not is_space c = true.
Proof.
  unfold eq_nocase, Not. intros Ha H. apply Ascii.eqb_eq in H.
  rewrite <- (lower_char_space c), <- H, lower_char_space, Ha. reflexivity.
Qed.

Lemma digit_not_space (c : ascii) : is_digit c = true -> Not is_space c = true.
Proof. destruct c as [[] [] [] [] [] [] [] []]; intros H; try reflexivity; discriminate H. Qed.

Lemma doi_chars : chars_in (Not is_space) DOI_PATTERN.
Proof.
  unfold DOI_PATTERN, AtLeast, Plus, digit, non_space. cbn [chars_in LitI Rep].
  repeat split; auto using digit_not_space;
    intros c; apply eq_nocase_space; reflexivity.
Qed.

Lemma url_chars : chars_in (Not is_space) url_pattern.
Proof.
  unfold url_pattern, Opt, Plus, non_space. cbn [chars_in LitI].
  repeat split; auto; intros c; apply eq_nocase_space; reflexivity.
Qed.

Lemma no_space_of (cs : list ascii) :
  Forall (fun c => Not is_space c = true) cs -> no_space (string_of_list_ascii cs).
Proof.
  unfold no_space. rewrite list_ascii_of_string_of_list_ascii.
  apply Forall_impl. intros c H. unfold Not in H. now apply negb_true_iff in H.
Qed.

Lemma length_of_list (cs : list ascii) :
  String.length (string_of_list_ascii cs) = List.length cs.
Proof. induction cs; simpl; congruence. Qed.

Lemma doi_text (cs : list ascii) :
  lang DOI_PATTERN cs -> String.prefix "10." (string_of_list_ascii cs) = true.
Proof.
  unfold DOI_PATTERN. cbn [lang LitI].
  intros (x & y & -> & (a1 & b1 & -> & (c1 & -> & E1)
             & a2 & b2 & -> & (c2 & -> & E2) & a3 & b3 & -> & (c3 & -> & E3) & ->) & _).
  unfold eq_nocase in E1, E2, E3. apply Ascii.eqb_eq in E1, E2, E3.
  change (lower_char "1") with "1"%char in E1.
  change (lower_char "0") with "0"%char in E2.
  change (lower_char ".") with "."%char in E3.
  assert (F : forall c d : ascii,
             is_digit d || Ascii.eqb d "." = true -> d = lower_char c -> c = d).
  { intros c d Hd ->. revert Hd.
    destruct c as [[] [] [] [] [] [] [] []]; intros Hd; vm_compute in Hd;
      first [discriminate Hd | reflexivity]. }
  rewrite (F c1 "1"%char), (F c2 "0"%char), (F c3 "."%char) by (auto; reflexivity).
  cbn [app string_of_list_ascii]. destruct (string_of_list_ascii y); reflexivity.
Qed.

Lemma url_text (cs : list ascii) :
  lang url_pattern cs -> String.prefix "http" (lower (string_of_list_ascii cs)) = true.
Proof.
  unfold url_pattern. cbn [lang LitI].
  intros (x & y & -> & (a1 & b1 & -> & (c1 & -> & E1)
             & a2 & b2 & -> & (c2 & -> & E2) & a3 & b3 & -> & (c3 & -> & E3)
             & a4 & b4 & -> & (c4 & -> & E4) & ->) & _).
  unfold eq_nocase in E1, E2, E3, E4. apply Ascii.eqb_eq in E1, E2, E3, E4.
  cbn [app string_of_list_ascii lower smap]. rewrite <- E1, <- E2, <- E3, <- E4.
  destruct (smap lower_char (string_of_list_ascii y)); reflexivity.
Qed.

Lemma all_groups_true (r : regex) : groups_in (fun _ _ => True) r.
Proof. induction r; simpl; auto. Qed.

(** X10. The DOI [parse_reference_text] returns is [None] exactly when
    the DOI pattern does not match; otherwise it starts with 10., has nine
    characters or more and holds no whitespace.  The same for the URL,
    which starts with http in any case and has eight characters or more. *)
Theorem parsed_links (raw_text : string) :
  exists parsed,
    parse_reference_text raw_text = Some parsed
    /\ match f_doi parsed with
       | Val doi =>
           search DOI_PATTERN raw_text <> None
           /\ String.prefix "10." doi = true
           /\ 9 <= String.length doi /\ no_space doi
       | Null => search DOI_PATTERN raw_text = None
       | Missing => False
       end
    /\ match f_url parsed with
       | Val url =>
           search url_pattern raw_text <> None
           /\ String.prefix "http" (lower url) = true
           /\ 8 <= String.length url /\ no_space url
       | Null => search url_pattern raw_text = None
       | Missing => False
       end.
Proof.
  destruct (parse_steps raw_text) as (p1 & sec & Hp1 & _ & ->).
  eexists. split; [reflexivity|]. frame f_doi. frame f_url.
  assert (D : f_doi p1 = f_doi (extract_doi raw_text initial_parsed))
    by (destruct Hp1 as [[_ ->] | (y & _ & -> & _)]; frame f_doi; reflexivity).
  assert (U : f_url p1 = f_url (extract_url raw_text (extract_doi raw_text initial_parsed)))
    by (destruct Hp1 as [[_ ->] | (y & _ & -> & _)]; frame f_url; reflexivity).
  rewrite D, U. split.
  - unfold extract_doi. destruct (search DOI_PATTERN raw_text) as [m|] eqn:E;
      [|reflexivity].
    cbn [f_doi set_doi of_group group].
    destruct (search_lang _ DOI_PATTERN (all_groups_true _) _ _ _ E) as (cs & L & Hg0 & _).
    destruct (search_sound _ DOI_PATTERN doi_chars _ _ _ E) as (ds & Hd & Hf & Hn).
    split; [discriminate|]. split; [rewrite Hg0; now apply doi_text|].
    rewrite Hd. split; [rewrite length_of_list; exact Hn | now apply no_space_of].
  - unfold extract_url. destruct (search url_pattern raw_text) as [m|] eqn:E.
    + cbn [f_url set_url set_type of_group group].
      destruct (search_lang _ url_pattern (all_groups_true _) _ _ _ E) as (cs & L & Hg0 & _).
      destruct (search_sound _ url_pattern url_chars _ _ _ E) as (ds & Hd & Hf & Hn).
      split; [discriminate|]. split; [rewrite Hg0; now apply url_text|].
      rewrite Hd. split; [rewrite length_of_list; exact Hn | now apply no_space_of].
    + frame f_url. reflexivity.
Qed.

(** *** Volume, issue and pages *)







(** *** From the parser to the formatters *)

(** [str] renders a year the parser can return. *)
Lemma str_of_int_year (y : Z) :
  (1900 <= y <= 2099)%Z -> str_of_int y = Some (numeral y).
Proof.
  intros H. unfold str_of_int.
  assert (F : forallb (fun k =>
                (Z.of_nat (String.length (numeral (Z.abs (1900 + Z.of_nat k))))
                 <=? max_str_digits)%Z) (seq 0 200) = true)
    by (vm_compute; reflexivity).
  rewrite forallb_forall in F. specialize (F (Z.to_nat (y - 1900))).
  replace (1900 + Z.of_nat (Z.to_nat (y - 1900)))%Z with y in F by lia.
  rewrite F; [reflexivity|]. apply in_seq. lia.
Qed.

Lemma citation_without_key (ref : ParsedReference) (y : string) :
  year_text ref = Some y ->
  nonnil (lget (f_authors ref)) = false ->
  truthy (sget (f_citation_key ref) (PyStr EmptyString)) = false ->
  exists s, generate_citation ref = Some s /\ parenthesized s = true.
Proof.
  intros Hy Ha Hk. unfold year_text in Hy.
  unfold generate_citation. cbv zeta. rewrite Ha, Hk, Hy.
  simpl negb. rewrite !andb_true_l.
  destruct (truthy (iget (f_year ref) PyNone)); simpl negb; cbv iota; cbn [bind];
    eexists; (split; [reflexivity|]).
  - apply parenthesized_open. ends_with_paren.
  - reflexivity.
Qed.

(** X12. Whatever the text, what [parse_reference_text] returns can be
    given to [generate_citation] and to [generate_reference]: neither
    raises, and the citation is between parentheses (the result of the
    parser has no citation key that could be returned bare, and its year
    has four digits). *)
Theorem parsed_reference_formats (now raw_text : string) :
  exists parsed citation entry,
    parse_reference_text raw_text = Some parsed
    /\ generate_citation parsed = Some citation
    /\ parenthesized citation = true
    /\ generate_reference now parsed = Some entry.
Proof.
  destruct (parse_steps raw_text) as (p1 & sec & Hp1 & _ & Hp).
  match type of Hp with _ = Some ?p => set (parsed := p) in * end.
  assert (K : f_citation_key parsed = Missing).
  { unfold parsed. frame f_citation_key.
    destruct Hp1 as [[_ ->] | (y & _ & -> & _)]; frame f_citation_key; reflexivity. }
  assert (Y : exists y, year_text parsed = Some y).
  { unfold year_text, parsed. frame f_year.
    destruct Hp1 as [[_ ->] | (y & _ & -> & Hr)].
    - frame f_year. eexists. reflexivity.
    - cbn [f_year set_year iget str]. rewrite (str_of_int_year y Hr). eauto. }
  destruct Y as [y Hy].
  destruct (generate_reference_total now parsed y Hy) as [entry He].
  assert (C : exists s, generate_citation parsed = Some s /\ parenthesized s = true).
  { destruct (nonnil (lget (f_authors parsed))) eqn:Ea.
    - destruct (citation_with_authors parsed Ea) as [a Hs].
      assert (Ho : exists y', year_or_nd (iget (f_year parsed) PyNone) = Some y').
      { unfold year_or_nd. unfold year_text in Hy. destruct (truthy _); eauto. }
      destruct Ho as [y' Ho]. rewrite Ho in Hs. cbn [bind] in Hs.
      eexists. split; [exact Hs|]. apply parenthesized_open. ends_with_paren.
    - apply (citation_without_key parsed y); [exact Hy | exact Ea | now rewrite K]. }
  destruct C as (s & Hs & Hpar). exists parsed, s, entry. auto.
Qed.

(** X13. For a text without Journal, Review or a URL, parsing and then
    formatting gives the author list, the year between parentheses and
    the title, each only if it was found, and nothing else: the DOI, the
    volume, the issue and the pages the parser found are not in the
    entry. *)
Theorem parsed_book_entry (now raw_text : string) :
  contains "Journal" raw_text || contains "Review" raw_text = false ->
  search url_pattern raw_text = None ->
  exists parsed author_list,
    parse_reference_text raw_text = Some parsed
    /\ _format_author_list (lget (f_authors parsed)) false = Some author_list
    /\ generate_reference now parsed
       = Some (join " "
                 ((if nonempty author_list then [author_list] else [])
                    ++ match f_year parsed with
                       | Val y => [("(" ++ numeral y ++ ").")%string]
                       | _ => []
                       end
                    ++ match f_title parsed with
                       | Val title => [(title ++ ".")%string]
                       | _ => []
                       end)%list).
Proof.
  intros Hj Hu.
  destruct (parse_steps raw_text) as (p1 & sec & Hp1 & _ & Hp).
  match type of Hp with _ = Some ?p => set (parsed := p) in * end.
  assert (E0 : extract_url raw_text (extract_doi raw_text initial_parsed)
               = extract_doi raw_text initial_parsed)
    by (unfold extract_url; now rewrite Hu).
  rewrite E0 in Hp1.
  assert (Ht : f_type parsed = Some "book").
  { unfold parsed. frame f_type. unfold extract_source. rewrite Hj. frame f_type.
    destruct Hp1 as [[_ ->] | (y & _ & -> & _)]; frame f_type; reflexivity. }
  assert (Hpub : f_publisher parsed = Null).
  { unfold parsed. frame f_publisher.
    destruct Hp1 as [[_ ->] | (y & _ & -> & _)]; frame f_publisher; reflexivity. }
  assert (Hloc : f_location parsed = Missing).
  { unfold parsed. frame f_location.
    destruct Hp1 as [[_ ->] | (y & _ & -> & _)]; frame f_location; reflexivity. }
  assert (Hy : f_year parsed = f_year p1) by (unfold parsed; frame f_year; reflexivity).
  assert (Hy1 : f_year p1 = Null \/ exists y, f_year p1 = Val y /\ (1900 <= y <= 2099)%Z).
  { destruct Hp1 as [[_ ->] | (y & _ & -> & Hr)].
    - left. frame f_year. reflexivity.
    - right. exists y. auto. }
  assert (Htitle : f_title parsed = Null
                   \/ exists t, f_title parsed = Val t /\ nonempty t = true).
  { unfold parsed. frame f_title. unfold extract_title. cbv zeta.
    assert (T1 : f_title (extract_authors sec p1) = Null).
    { frame f_title.
      destruct Hp1 as [[_ ->] | (y & _ & -> & _)]; frame f_title; reflexivity. }
    destruct (truthy _); [|left; exact T1].
    destruct (nonempty _ && _) eqn:Ec; [|left; exact T1].
    right. eexists. split; [reflexivity|]. apply andb_prop in Ec. apply Ec. }
  destruct (format_author_list_total (lget (f_authors parsed)) false) as [a Ha].
  exists parsed, a. split; [exact Hp|]. split; [exact Ha|].
  unfold generate_reference, ref_type_of. rewrite Ht.
  cbn [lower smap lower_char String.eqb Ascii.eqb Bool.eqb]. 
  change (String.eqb (lower "book") "book") with true. cbv iota.
  unfold _format_book_reference, _book_parts. cbv zeta.
  rewrite Ha, Hpub, Hloc, Hy. cbn [bind sget truthy nonempty].
  unfold append_year, append_if, append.
  assert (Hyy : forall y, (1900 <= y <= 2099)%Z -> truthy (PyInt y) = true).
  { intros y Hr. simpl. apply negb_true_iff, Z.eqb_neq. lia. }
  destruct Hy1 as [-> | (y & -> & Hr)]; cbn [iget str];
    [cbn [truthy] | rewrite (Hyy y Hr), (str_of_int_year y Hr)]; cbn [bind];
    (destruct Htitle as [-> | (t & -> & Hne)]; cbn [sget truthy fmt];
     [|rewrite Hne]; destruct (nonempty a); reflexivity).
Qed.

Lemma parsed_book_entry_witness :
  exists parsed author_list,
    parse_reference_text "Smith, J. (2020). Introduction to Psychology. Academic Press." = Some parsed
    /\ _format_author_list (lget (f_authors parsed)) false = Some author_list
    /\ generate_reference "November 04, 2026" parsed
       = Some (join " "
                 ((if nonempty author_list then [author_list] else [])
                    ++ match f_year parsed with
                       | Val y => [("(" ++ numeral y ++ ").")%string]
                       | _ => []
                       end
                    ++ match f_title parsed with
                       | Val title => [(title ++ ".")%string]
                       | _ => []
                       end)%list).
Proof.
  apply (parsed_book_entry "November 04, 2026"
           "Smith, J. (2020). Introduction to Psychology. Academic Press.");
    vm_compute; reflexivity.
Defined.

(** *** The findings of the validator *)

Lemma last_with_none {A : Type} (key : A -> field string) (k : string) (l : list A) :
  last_with key k l = None <-> existsb (has_key key k) l = false.
Proof.
  induction l as [|x l IH]; simpl.
  - tauto.
  - destruct (last_with key k l) eqn:E.
    + split; [discriminate|]. intros H. apply orb_false_elim in H.
      destruct H as [_ H]. apply IH in H. discriminate.
    + destruct (has_key key k x); simpl.
      * split; discriminate.
      * split; intros _; [now apply IH | reflexivity].
Qed.

Lemma last_with_has_key {A : Type} (key : A -> field string) (k : string) (l : list A) x :
  last_with key k l = Some x -> In x l /\ key x = Val k.
Proof.
  induction l as [|y l IH]; simpl; [discriminate|].
  destruct (last_with key k l) eqn:E.
  - intros H. injection H as <-. destruct (IH eq_refl). auto.
  - destruct (has_key key k y) eqn:Ey; [|discriminate].
    intros H. injection H as <-. split; [auto|].
    unfold has_key in Ey. destruct (key y); try discriminate.
    apply String.eqb_eq in Ey. now subst.
Qed.

Lemma dict_mem_keyed {A : Type} (key : A -> field string) (k : string) (l : list A) :
  nonempty k = true ->
  dict_mem k (keyed key l) = existsb (has_key key k) l.
Proof.
  intros Hk. unfold dict_mem. rewrite dict_get_keyed, Hk.
  destruct (last_with key k l) eqn:E.
  - symmetry. destruct (existsb (has_key key k) l) eqn:E'; [reflexivity|].
    apply last_with_none in E'. congruence.
  - symmetry. now apply last_with_none.
Qed.

(** X14. [validate_coherence] reports a citation without reference
    exactly for each non-empty citation key that no reference has as its
    key, with the text of the last citation under that key (the empty
    text if it has none); and the same for the references without
    citation. *)
Theorem orphan_findings (citations : list Citation) (references : list Reference) :
  let res := validate_coherence citations references in
  (forall o,
      In o (citations_without_reference res)
      <-> nonempty (oc_citation_key o) = true
          /\ existsb (has_key r_ref_key (oc_citation_key o)) references = false
          /\ exists c,
               last_with c_citation_key (oc_citation_key o) citations = Some c
               /\ oc_citation_text o = sget (c_citation_text c) (PyStr EmptyString))
  /\ (forall o,
         In o (references_without_citations res)
         <-> nonempty (or_ref_key o) = true
             /\ existsb (has_key c_citation_key (or_ref_key o)) citations = false
             /\ exists r,
                  last_with r_ref_key (or_ref_key o) references = Some r
                  /\ or_ref_text o = sget (r_ref_text r) (PyStr EmptyString)).
Proof.
  cbv zeta. unfold validate_coherence.
  cbn [citations_without_reference references_without_citations].
  split; intros o; rewrite in_flat_map; split.
  - intros ([k c] & Hin & Ho).
    pose proof (keyed_keys_nonempty c_citation_key citations) as F.
    rewrite Forall_forall in F. specialize (F _ Hin). simpl in F.
    apply dict_get_in in Hin; [|apply keyed_nodup].
    rewrite dict_get_keyed, F in Hin.
    destruct (negb (dict_mem k _)) eqn:E; [|destruct Ho].
    destruct Ho as [<- | []]. simpl.
    apply negb_true_iff in E. rewrite dict_mem_keyed in E by exact F.
    split; [exact F|]. split; [exact E|]. exists c. auto.
  - intros (Hk & Hr & c & Hc & Ht). exists (oc_citation_key o, c). split.
    + apply dict_get_in; [apply keyed_nodup|]. now rewrite dict_get_keyed, Hk.
    + rewrite dict_mem_keyed, Hr by exact Hk. simpl. left.
      destruct o as [k t]. simpl in *. now rewrite Ht.
  - intros ([k r] & Hin & Ho).
    pose proof (keyed_keys_nonempty r_ref_key references) as F.
    rewrite Forall_forall in F. specialize (F _ Hin). simpl in F.
    apply dict_get_in in Hin; [|apply keyed_nodup].
    rewrite dict_get_keyed, F in Hin.
    destruct (negb (dict_mem k _)) eqn:E; [|destruct Ho].
    destruct Ho as [<- | []]. simpl.
    apply negb_true_iff in E. rewrite dict_mem_keyed in E by exact F.
    split; [exact F|]. split; [exact E|]. exists r. auto.
  - intros (Hk & Hr & c & Hc & Ht). exists (or_ref_key o, c). split.
    + apply dict_get_in; [apply keyed_nodup|]. now rewrite dict_get_keyed, Hk.
    + rewrite dict_mem_keyed, Hr by exact Hk. simpl. left.
      destruct o as [k t]. simpl in *. now rewrite Ht.
Qed.

Lemma flat_map_keys_nodup {V B : Type} (f : string * V -> list B) (kf : B -> string)
    (d : pydict V) :
  (forall k v b, In b (f (k, v)) -> f (k, v) = [b] /\ kf b = k) ->
  NoDup (map fst d) ->
  NoDup (map kf (flat_map f d)) /\ incl (map kf (flat_map f d)) (map fst d).
Proof.
  intros Hf. induction d as [|[k v] d IH]; intros Hd; simpl.
  - split; [constructor | intros x []].
  - inversion Hd as [|? ? Hn Hd']; subst. destruct (IH Hd') as [IH1 IH2].
    rewrite map_app. destruct (f (k, v)) as [|b l] eqn:E.
    + simpl. split; [exact IH1|]. intros x Hx. right. now apply IH2.
    + destruct (Hf k v b) as [E' Hb]; [rewrite E; left; reflexivity|].
      rewrite E in E'. injection E' as ->. simpl. split.
      * constructor; [|exact IH1]. rewrite Hb. intros Hin. apply Hn. now apply IH2.
      * intros x [Hx | Hx]; [left; congruence | right; now apply IH2].
Qed.

Lemma flat_map_length_le {V B : Type} (f : string * V -> list B) (d : pydict V) :
  (forall kv, List.length (f kv) <= 1) -> List.length (flat_map f d) <= List.length d.
Proof.
  intros Hf. induction d as [|kv d IH]; simpl; [lia|].
  rewrite length_app. specialize (Hf kv). lia.
Qed.

Lemma dict_set_length {V : Type} k (v : V) d :
  List.length (dict_set k v d) <= S (List.length d).
Proof.
  induction d as [|[k0 v0] d IH]; simpl; [lia|].
  destruct (String.eqb k k0); simpl; lia.
Qed.

Lemma keyed_length {A : Type} (key : A -> field string) (l : list A) :
  List.length (keyed key l) <= List.length l.
Proof.
  induction l as [|x l IH] using rev_ind; [simpl; lia|].
  rewrite keyed_snoc, length_app. simpl. unfold enter.
  destruct (key x) as [| |k]; try lia.
  destruct (nonempty k); [|lia].
  pose proof (dict_set_length k x (keyed key l)). lia.
Qed.

(** X15. In each of the three lists of [validate_coherence] a key
    occurs once at most, and no key is both in a citation without
    reference and in an imperfect match. *)
Theorem findings_keys_unique (citations : list Citation) (references : list Reference) :
  let res := validate_coherence citations references in
  NoDup (map oc_citation_key (citations_without_reference res))
  /\ NoDup (map or_ref_key (references_without_citations res))
  /\ NoDup (map im_citation_key (imperfect_matches res))
  /\ (forall o m, In o (citations_without_reference res) ->
                  In m (imperfect_matches res) ->
                  oc_citation_key o <> im_citation_key m).
Proof.
  cbv zeta. unfold validate_coherence.
  cbn [citations_without_reference references_without_citations imperfect_matches].
  split; [|split; [|split]].
  - apply flat_map_keys_nodup; [|apply keyed_nodup].
    intros k v b Hb. destruct (negb _); [|destruct Hb].
    destruct Hb as [<- | []]. auto.
  - apply flat_map_keys_nodup; [|apply keyed_nodup].
    intros k v b Hb. destruct (negb _); [|destruct Hb].
    destruct Hb as [<- | []]. auto.
  - apply flat_map_keys_nodup; [|apply keyed_nodup].
    intros k v b Hb. destruct (dict_get k _); [|destruct Hb].
    destruct (_ || _); [|destruct Hb]. destruct Hb as [<- | []]. auto.
  - intros o m Ho Hm E. apply in_flat_map in Ho, Hm.
    destruct Ho as ([k c] & _ & Ho). destruct Hm as ([k' c'] & _ & Hm).
    unfold dict_mem in Ho.
    destruct (dict_get k' _) eqn:E'; [|destruct Hm].
    destruct (_ || _); [|destruct Hm]. destruct Hm as [<- | []].
    simpl in E. subst k'.
    destruct (dict_get k _) eqn:E''; simpl in Ho; [destruct Ho|].
    destruct Ho as [<- | []]. simpl in E'. congruence.
Qed.

Lemma flat_map_length_excl {V B C : Type} (f : string * V -> list B)
    (g : string * V -> list C) (d : pydict V) :
  (forall kv, List.length (f kv) + List.length (g kv) <= 1) ->
  List.length (flat_map f d) + List.length (flat_map g d) <= List.length d.
Proof.
  intros H. induction d as [|kv d IH]; simpl; [lia|].
  rewrite !length_app. specialize (H kv). lia.
Qed.

Lemma dict_get_some_in {V : Type} k (v : V) d : dict_get k d = Some v -> In k (map fst d).
Proof.
  intros H. destruct (in_dec string_dec k (map fst d)) as [Hin | Hn]; [exact Hin|].
  apply dict_get_keys in Hn. congruence.
Qed.

Lemma citation_findings_count (citations : list Citation) (references : list Reference) :
  let res := validate_coherence citations references in
  List.length (citations_without_reference res) + List.length (imperfect_matches res)
    <= List.length citations.
Proof.
  cbv zeta. unfold validate_coherence.
  cbn [citations_without_reference imperfect_matches].
  eapply Nat.le_trans; [|apply (keyed_length c_citation_key citations)].
  apply flat_map_length_excl. intros [k c]. unfold dict_mem.
  destruct (dict_get k _); simpl; [|lia].
  destruct (_ || _); simpl; lia.
Qed.

Lemma reference_findings_count (citations : list Citation) (references : list Reference) :
  let res := validate_coherence citations references in
  List.length (references_without_citations res) + List.length (imperfect_matches res)
    <= List.length references.
Proof.
  cbv zeta. unfold validate_coherence.
  cbn [references_without_citations imperfect_matches].
  set (cd := keyed c_citation_key citations).
  set (rd := keyed r_ref_key references).
  match goal with |- List.length ?a + List.length ?b <= _ =>
    set (rwc := a); set (imp := b) end.
  assert (Hr : NoDup (map or_ref_key rwc)).
  { apply flat_map_keys_nodup; [|apply keyed_nodup].
    intros k v b Hb. destruct (negb _); [|destruct Hb].
    destruct Hb as [<- | []]. auto. }
  assert (Hi : NoDup (map im_citation_key imp)).
  { apply flat_map_keys_nodup; [|apply keyed_nodup].
    intros k v b Hb. destruct (dict_get k _); [|destruct Hb].
    destruct (_ || _); [|destruct Hb]. destruct Hb as [<- | []]. auto. }
  eapply Nat.le_trans; [|apply (keyed_length r_ref_key references)].
  fold rd. rewrite <- (length_map fst rd).
  rewrite <- (length_map or_ref_key rwc), <- (length_map im_citation_key imp).
  rewrite <- length_app. apply NoDup_incl_length.
  - apply NoDup_app; [exact Hr | exact Hi |].
    intros k Hk Hk'. apply in_map_iff in Hk, Hk'.
    destruct Hk as (o & <- & Ho). destruct Hk' as (m & Hm' & Hm).
    apply in_flat_map in Ho, Hm.
    destruct Ho as ([k r] & _ & Ho). destruct Hm as ([k' c'] & Hin & Hm).
    destruct (dict_get k' rd); [|destruct Hm].
    destruct (_ || _); [|destruct Hm]. destruct Hm as [<- | []].
    destruct (negb (dict_mem k cd)) eqn:E; [|destruct Ho].
    destruct Ho as [<- | []]. simpl in Hm'. subst k'.
    apply negb_true_iff in E. unfold dict_mem in E.
    apply dict_get_in in Hin; [|apply keyed_nodup]. fold cd in Hin.
    rewrite Hin in E. discriminate.
  - intros k Hk. apply in_app_or in Hk. destruct Hk as [Hk | Hk];
      apply in_map_iff in Hk.
    + destruct Hk as (o & <- & Ho). apply in_flat_map in Ho.
      destruct Ho as ([k r] & Hin & Ho).
      destruct (negb _); [|destruct Ho]. destruct Ho as [<- | []].
      apply (in_map fst) in Hin. exact Hin.
    + destruct Hk as (m & <- & Hm). apply in_flat_map in Hm.
      destruct Hm as ([k' c'] & _ & Hm).
      destruct (dict_get k' rd) eqn:E; [|destruct Hm].
      destruct (_ || _); [|destruct Hm]. destruct Hm as [<- | []]. simpl.
      eapply dict_get_some_in. exact E.
Qed.

(** X16. The citations without reference and the imperfect matches
    together are no more than the citations given, and the references
    without citation and the imperfect matches together no more than the
    references given. *)
Theorem findings_counts (citations : list Citation) (references : list Reference) :
  let res := validate_coherence citations references in
  List.length (citations_without_reference res) + List.length (imperfect_matches res)
    <= List.length citations
  /\ List.length (references_without_citations res) + List.length (imperfect_matches res)
     <= List.length references.
Proof.
  split; [apply citation_findings_count | apply reference_findings_count].
Qed.

(** *** Through the request model *)

(** X17. A book sent to the endpoint [generate_references] without a
    year is listed without any year segment (no n.d.): [.dict()] gives the
    key [year] the value [None], which [ref.get("year", "n.d.")] returns
    as it is.  The entry is the author list, the title and the publisher,
    after the tab of the text format. *)
Theorem undated_book_through_model (now : string) (m : ParsedReferenceModel) :
  m_year m = None ->
  lower (m_type m) = "book" ->
  exists author_list,
    _format_author_list (m_authors m) false = Some author_list
    /\ generate_references now [m] "text"
       = Some (tab ++
               join " " ((if nonempty author_list then [author_list] else [])
                           ++ match m_title m with
                              | Some title => if nonempty title then [(title ++ ".")%string] else []
                              | None => []
                              end
                           ++ match m_publisher m with
                              | Some publisher =>
                                  if nonempty publisher then [(publisher ++ ".")%string] else []
                              | None => []
                              end)%list).
Proof.
  intros Hy Ht.
  destruct (format_author_list_total (m_authors m) false) as [a Ha].
  exists a. split; [exact Ha|].
  unfold generate_references, generate_reference_list. cbv zeta. cbn [map mapM].
  unfold generate_reference, ref_type_of. cbn [f_type model_dict]. rewrite Ht.
  cbn [String.eqb Ascii.eqb Bool.eqb]. cbv iota.
  unfold _format_book_reference, _book_parts. cbv zeta.
  cbn [f_authors f_year f_title f_publisher f_location model_dict lget].
  rewrite Ha, Hy. cbn [bind optional iget sget truthy].
  unfold append_if, append.
  destruct (nonempty a); destruct (m_title m) as [t|]; destruct (m_publisher m) as [p|];
    cbn [optional sget truthy fmt];
    try destruct (nonempty t); try destruct (nonempty p); reflexivity.
Qed.

Lemma undated_book_through_model_witness :
  exists author_list,
    _format_author_list (m_authors undated_model) false = Some author_list
    /\ generate_references "November 04, 2026" [undated_model] "text"
       = Some (tab ++
               join " " ((if nonempty author_list then [author_list] else [])
                           ++ [("Book Title" ++ ".")%string]
                           ++ [("Academic Press" ++ ".")%string])%list).
Proof.
  apply (undated_book_through_model "November 04, 2026" undated_model); reflexivity.
Defined.

(** *** The report of the validation task *)

(** X18. In the summary the task [validate_apa_coherence] returns, the
    citations without reference plus the imperfect matches do not exceed
    [total_citations], and the references without citation plus the
    imperfect matches do not exceed [total_references]. *)
Theorem summary_within_totals (citations : list CitationRow)
    (references : list ReferenceRow) :
  let summary := snd (validate_apa_coherence citations references) in
  n_citations_without_reference summary + n_imperfect_matches summary
    <= total_citations summary
  /\ n_references_without_citations summary + n_imperfect_matches summary
     <= total_references summary.
Proof.
  cbv zeta. unfold validate_apa_coherence. cbv zeta.
  cbn [snd total_citations total_references n_citations_without_reference
       n_references_without_citations n_imperfect_matches].
  pose proof (citation_findings_count (map citation_dict citations)
                (map reference_dict references)) as H1.
  pose proof (reference_findings_count (map citation_dict citations)
                (map reference_dict references)) as H2.
  cbv zeta in H1, H2. rewrite !length_map in H1, H2. auto.
Qed.
